(** * gql: a text-completion model as policy and value function

    Shallow embedding of the trajectory codec ([gql/model.py]), the
    completion client ([GPT3.__call__]), the two prompting agents ([Q], [Pi])
    and the training loop ([gqn/train.py]), with the properties the
    specification states about them; then the environment base class
    ([gqn/base_env.py]), the completion client of [gqn] ([gqn/rl/gpt3.py])
    and the Space Invaders encoder and metrics
    ([gqn/space_invaders_metrics.py]), with further properties of the code.

    Conventions.  Python [str] is [string] (one [ascii] per code point below
    256); Python [int] is [Z]; Python [float] is idealised as [Q], and
    [math.exp] is a function on it that the outside provides, with [None]
    where it raises [OverflowError].  A [shelve]
    database is a [gmap string string].  Loops that Python writes
    [while ...] without a bound take a fuel argument and tell when it ran
    out. *)

From Stdlib Require Import ZArith QArith List Ascii String Lia Permutation.
From Stdlib Require Import Sorted.
From Stdlib Require Import Lqa.
From stdpp Require Import gmap strings list pretty.

Local Open Scope string_scope.
Local Open Scope Z_scope.

(** ** Python string primitives *)

Module Py.

(** [str.isspace] on one code point below 256. *)
Definition is_space (c : ascii) : bool :=
  let n := nat_of_ascii c in
  (Nat.leb 9 n && Nat.leb n 13) || (Nat.leb 28 n && Nat.leb n 32)
  || Nat.eqb n 133 || Nat.eqb n 160.

(** [s.lstrip()] *)
Fixpoint lstrip (s : string) : string :=
  match s with
  | EmptyString => EmptyString
  | String c s' => if is_space c then lstrip s' else s
  end.

(** [bool(s)]: a string is truthy when it is not empty. *)
Definition truthy (s : string) : bool :=
  match s with EmptyString => false | String _ _ => true end.

Definition dot : ascii := "."%char.

(** ["." in s] *)
Fixpoint contains_dot (s : string) : bool :=
  match s with
  | EmptyString => false
  | String c s' => if Ascii.eqb c dot then true else contains_dot s'
  end.

(** [s.split(".")]: always at least one piece. *)
Fixpoint split_dot (s : string) : list string :=
  match s with
  | EmptyString => [EmptyString]
  | String c s' =>
      if Ascii.eqb c dot then EmptyString :: split_dot s'
      else match split_dot s' with
           | piece :: rest => String c piece :: rest
           | [] => [String c EmptyString]
           end
  end.

(** [sep.join(pieces)] *)
Fixpoint join (sep : string) (pieces : list string) : string :=
  match pieces with
  | [] => EmptyString
  | [p] => p
  | p :: rest => p +:+ sep +:+ join sep rest
  end.

(** [xs.index(x)]: position of the first equal element, [None] for
    [ValueError]. *)
Fixpoint index (x : string) (xs : list string) : option nat :=
  match xs with
  | [] => None
  | y :: ys => if String.eqb y x then Some O
               else option_map S (index x ys)
  end.

(** [x in xs] *)
Definition mem (x : string) (xs : list string) : bool :=
  existsb (String.eqb x) xs.

(** [sum(xs)] on floats: from 0, left to right. *)
Definition sum (xs : list Q) : Q := fold_left Qplus xs 0%Q.

(** [sorted(xs, reverse=True)] on floats: descending, equal elements in
    their first order. *)
Fixpoint insert_reverse (x : Q) (sorted : list Q) : list Q :=
  match sorted with
  | [] => [x]
  | y :: rest =>
      if negb (Qle_bool y x) then y :: insert_reverse x rest else x :: sorted
  end.

Definition sorted_reverse (xs : list Q) : list Q :=
  fold_right insert_reverse [] xs.

(** [xs[start:]] for any integer [start]. *)
Definition slice_from {A} (start : Z) (xs : list A) : list A :=
  let len := Z.of_nat (length xs) in
  let lo := if start <? 0 then Z.max 0 (len + start) else Z.min start len in
  skipn (Z.to_nat lo) xs.

(** [xs[:stop]] for any integer [stop]. *)
Definition slice_to {A} (stop : Z) (xs : list A) : list A :=
  let len := Z.of_nat (length xs) in
  let hi := if stop <? 0 then Z.max 0 (len + stop) else Z.min stop len in
  firstn (Z.to_nat hi) xs.

End Py.

(** ** The environment capability

    The [env] module of [gql] is not part of the sources at hand; its class
    [Env] is the record of the methods [model.py] calls on it, and its tables
    [ACTIONS] and [REWARDS] are parameters of the agents below. *)

Record Env := {
  state_str : Z -> string;
  action_str : Z -> string;
  reward_str : Q -> option Z -> string;
  quantify : string -> option Q -> Q;
  action_space_n : Z
}.

(** ** Data model ([gql/model.py]) *)

Module TimeStep.

Record t := mk {
  state : Z;
  action : Z;
  reward : Q;
  next_state : option Z
}.

Definition to_string (self : t) (env : Env) : string :=
  state_str env (state self)
  +:+ " "
  +:+ action_str env (action self)
  +:+ " "
  +:+ reward_str env (reward self) (next_state self)
  +:+ (match next_state self with
       | None => ""
       | Some s' => state_str env s'
       end).

End TimeStep.

Module Prompt.

Record t := mk {
  state : Z;
  action : Z;
  value : string
}.

Definition make (state action : Z) (value : string) : t :=
  mk state action (Py.lstrip value).

Definition to_string (self : t) (env : Env) : string :=
  state_str env (state self) +:+ " " +:+ action_str env (action self)
  +:+ " " +:+ value self.

Definition to_value_quantity (self : t) (env : Env) (gamma : option Q) : Q :=
  quantify env (to_string self env) gamma.

End Prompt.

(** The module-level [to_string] over a whole trajectory. *)
Fixpoint to_string (env : Env) (_trajectory : list TimeStep.t) : string :=
  match _trajectory with
  | [] => ""
  | head :: tail =>
      let reward_str :=
        match TimeStep.next_state head with
        | None => reward_str env (TimeStep.reward head) None
        | Some _ => ""
        end in
      let tail_trajectory := to_string env tail in
      let sep := if Py.truthy tail_trajectory && Py.truthy reward_str
                 then " " else "" in
      Prompt.to_string
        (Prompt.make (TimeStep.state head) (TimeStep.action head)
           (reward_str +:+ sep +:+ tail_trajectory))
        env
  end.

(** The rendering as the specification words it: built right to left, every
    step gives its [state action] pair, a terminal step (no next state) gives
    its reward text, and one space stands between the reward text and the
    continuation exactly when both are non-empty. *)
Fixpoint render (env : Env) (steps : list TimeStep.t) : string :=
  match steps with
  | [] => ""
  | step :: later =>
      let reward_text :=
        match TimeStep.next_state step with
        | None => reward_str env (TimeStep.reward step) None
        | Some _ => ""
        end in
      let continuation := render env later in
      let space :=
        match reward_text, continuation with
        | String _ _, String _ _ => " "
        | _, _ => ""
        end in
      state_str env (TimeStep.state step) +:+ " "
      +:+ action_str env (TimeStep.action step) +:+ " "
      +:+ reward_text +:+ space +:+ continuation
  end.

(** A rendering the codec leaves untouched: non-empty, first character not
    white space. *)
Definition starts_visible (s : string) : bool :=
  match s with
  | EmptyString => false
  | String c _ => negb (Py.is_space c)
  end.

(** A rendering without white space in front (it may be empty). *)
Definition no_leading_space (s : string) : bool :=
  match s with
  | EmptyString => true
  | String c _ => negb (Py.is_space c)
  end.

(** ** Quantification ([gqn/base_env.py]) *)

Module Gqn.

Definition reward_prefix : string := "assert reward == ".

(** [\d] on a code point below 256. *)
Definition is_digit (c : ascii) : bool :=
  let n := nat_of_ascii c in Nat.leb 48 n && Nat.leb n 57.

(** [s] without the prefix [p], when it starts with [p]. *)
Fixpoint strip_prefix (p s : string) : option string :=
  match p, s with
  | EmptyString, _ => Some s
  | String a p', String b s' =>
      if Ascii.eqb a b then strip_prefix p' s' else None
  | String _ _, EmptyString => None
  end.

(** One attempt of the pattern [assert reward == (\d)] at the head of [s]:
    the captured digit. *)
Definition match_here (s : string) : option ascii :=
  match strip_prefix reward_prefix s with
  | Some (String d _) => if is_digit d then Some d else None
  | _ => None
  end.

(** [re.findall]: leftmost matches, not overlapping; after a match the scan
    resumes behind it ([skip] characters are still to be passed over). *)
Fixpoint findall_from (skip : nat) (s : string) : list ascii :=
  match s with
  | EmptyString => []
  | String c s' =>
      match skip with
      | S k => findall_from k s'
      | O => match match_here s with
             | Some d => d :: findall_from 17 s'
             | None => findall_from 0 s'
             end
      end
  end.

Definition findall (prompt : string) : list ascii := findall_from 0 prompt.

(** [float(x)] for a one-digit string. *)
Definition float_of_digit (d : ascii) : Q :=
  inject_Z (Z.of_nat (nat_of_ascii d - 48)).

(** [Env.quantify] *)
Definition quantify (prompt : string) : Q :=
  let matches := findall prompt in
  Py.sum (map float_of_digit matches).

(** The text [quantify] reads as the reward [d], for a digit [d]. *)
Definition reward_text (d : nat) : string :=
  reward_prefix +:+ String (ascii_of_nat (48 + d)) EmptyString.

End Gqn.

(** No ['='] occurs in [s]. *)
Fixpoint no_equals (s : string) : bool :=
  match s with
  | EmptyString => true
  | String c s' => negb (Ascii.eqb c "="%char) && no_equals s'
  end.

(** Position of the first ['='] of [s]. *)
Fixpoint first_equals (s : string) : option nat :=
  match s with
  | EmptyString => None
  | String c s' =>
      if Ascii.eqb c "="%char then Some O else option_map S (first_equals s')
  end.

(** ** Example environments *)

Module Demo.

Definition state_str (s : Z) : string :=
  "state " +:+ (if s =? 0 then "zero" else "other") +:+ ".".

Definition action_str (a : Z) : string :=
  if a =? 0 then "Left." else "Right.".

(** Rewards rendered as [Gqn.quantify] reads them. *)
Definition reward_str (r : Q) (next_state : option Z) : string :=
  match next_state with
  | None => Gqn.reward_text (Z.to_nat (Qnum r))
  | Some _ => ""
  end.

Definition env : Env :=
  Build_Env state_str action_str reward_str
    (fun prompt _ => Gqn.quantify prompt) 2.

Definition walk : list TimeStep.t :=
  [TimeStep.mk 0 1 0 (Some 1); TimeStep.mk 1 0 0 (Some 0)].

Definition goal : TimeStep.t := TimeStep.mk 0 1 1 None.

End Demo.

(** ** The outside world

    What the program reads and writes besides its own variables: the
    [shelve] database behind the completion client, the completion service
    and the random generators.  The service and the generators are oracles,
    indexed by how often they were used so far: [create k prompt] is the
    text of the first choice that the [k]-th call of
    [openai.Completion.create] gives for [prompt]; [shuffle k] is the
    rearrangement that the [k]-th draw applies, [random k] the number and
    [space_sample k] the action that it yields.  [calls] counts the live
    calls made, [draws] the draws. *)

Record World := mkWorld {
  db : gmap string string;
  calls : nat;
  draws : nat
}.

Record Oracle := mkOracle {
  create : nat -> string -> string;
  shuffle : nat -> forall A : Type, list A -> list A;
  random : nat -> Q;
  space_sample : nat -> Z
}.

Inductive Exn :=
  ValueError | KeyError | AssertionError | ZeroDivisionError | OverflowError.

(** A call returns a value and the world it leaves, raises, or is still
    running when the fuel is spent. *)
Inductive Outcome (A : Type) :=
| Ok (a : A) (w : World)
| Raises (e : Exn)
| OutOfFuel.

Arguments Ok {A} a w.
Arguments Raises {A} e.
Arguments OutOfFuel {A}.

Definition M (A : Type) : Type := World -> Outcome A.

Definition ret {A} (a : A) : M A := fun w => Ok a w.

Definition bind {A B} (m : M A) (k : A -> M B) : M B :=
  fun w => match m w with
           | Ok a w' => k a w'
           | Raises e => Raises e
           | OutOfFuel => OutOfFuel
           end.

Definition raise {A} (e : Exn) : M A := fun _ => Raises e.

Notation "'let*' x ':=' m 'in' k" := (bind m (fun x => k))
  (at level 10, x name, m at level 100, k at level 200).

(** [rng.shuffle(xs)] *)
Definition rng_shuffle {A} (o : Oracle) (xs : list A) : M (list A) :=
  fun w => Ok (shuffle o (draws w) A xs)
              (mkWorld (db w) (calls w) (S (draws w))).

(** [rng.random()] *)
Definition rng_random (o : Oracle) : M Q :=
  fun w => Ok (random o (draws w)) (mkWorld (db w) (calls w) (S (draws w))).

(** [env.action_space.sample()] *)
Definition action_space_sample (o : Oracle) : M Z :=
  fun w => Ok (space_sample o (draws w))
              (mkWorld (db w) (calls w) (S (draws w))).

(** [[f(x) for x in xs]] for an [f] with effects. *)
Fixpoint for_each {A B} (f : A -> M B) (xs : list A) : M (list B) :=
  match xs with
  | [] => ret []
  | x :: rest =>
      let* y := f x in
      let* ys := for_each f rest in
      ret (y :: ys)
  end.

(** ** The completion client ([GPT3.__call__]) *)

Module GPT3.

(** The [while True] loop: one live call per round, kept only when the
    stripped text holds a full stop.  The engine, the temperature and the
    token limit of the request are fixed by the code and are part of what
    the oracle [create] stands for. *)
Fixpoint live (o : Oracle) (fuel : nat) (prompt : string) : M string :=
  fun w =>
    match fuel with
    | O => OutOfFuel
    | S fuel' =>
        let completion := Py.lstrip (create o (calls w) prompt) in
        if Py.contains_dot completion
        then Ok completion
               (mkWorld (<[prompt := completion]> (db w)) (S (calls w)) (draws w))
        else live o fuel' prompt (mkWorld (db w) (S (calls w)) (draws w))
    end.

Definition call (o : Oracle) (fuel : nat) (prompt : string) : M string :=
  fun w =>
    match db w !! prompt with
    | Some completion => Ok completion w
    | None => live o fuel prompt w
    end.

End GPT3.

(** Every stored completion holds a full stop. *)
Definition all_dotted (d : gmap string string) : Prop :=
  forall prompt completion,
    d !! prompt = Some completion -> Py.contains_dot completion = true.

Module DemoClient.

(** A service whose first answer lacks a full stop. *)
Definition oracle : Oracle :=
  mkOracle (fun k _ => match k with O => "abc" | S _ => " Left. x." end)
           (fun _ _ xs => xs)
           (fun _ => 0%Q)
           (fun _ => 0).

Definition start : World := mkWorld ∅ 0 0.

End DemoClient.

(** ** The agents ([gql/model.py])

    [ACTIONS] and [REWARDS] are the tables of the [env] module; [REWARDS]
    is a dictionary from rewards to their tokens, kept as the list of its
    items.  [retries] is how many live calls one invocation of the client
    is followed for. *)

Definition newline : string := String "010"%char EmptyString.

(** [a < b] on floats. *)
Definition Qltb (a b : Q) : bool := negb (Qle_bool b a).

(** [REWARDS.values()] *)
Definition rewards_values (REWARDS : list (Q * string)) : list string :=
  map snd REWARDS.

(** [REWARDS[key]] *)
Definition rewards_get (REWARDS : list (Q * string)) (key : Q) : M string :=
  match List.find (fun item => Qeq_bool (fst item) key) REWARDS with
  | Some item => ret (snd item)
  | None => raise KeyError
  end.

Module Model.

(** The fields [gpt3] and [rng] are the world and its oracle.  The methods
    called on the entries of [buffer] are those of [Prompt]. *)
Record t := mk {
  buffer : list Prompt.t;
  env : Env;
  failure_threshold : Q;
  prompt_size : Z
}.

Definition ready (self : t) : bool :=
  prompt_size self <=? Z.of_nat (length (buffer self)).

Definition act (_act : Z -> M Z) (o : Oracle) (self : t) (state : Z) : M Z :=
  if ready self then _act state else action_space_sample o.

Definition sample (o : Oracle) (self : t) : M (list string) :=
  let prompts := map (fun p => Prompt.to_string p (env self)) (buffer self) in
  let* prompts := rng_shuffle o prompts in
  ret (Py.slice_to (prompt_size self) prompts).

Definition sample_best (o : Oracle) (self : t) : M (list string) :=
  let success_prompts :=
    List.filter
      (fun p => Qltb (failure_threshold self)
                  (Prompt.to_value_quantity p (env self) (Some 1%Q)))
      (buffer self) in
  let* success_prompts := rng_shuffle o success_prompts in
  ret (Py.slice_to (prompt_size self)
         (map (fun p => Prompt.to_string p (env self)) success_prompts)).

End Model.

Definition reformat (completion : string) : string :=
  Py.lstrip completion +:+ ".".

(** The class [Q]. *)
Module QAgent.

Record agent := mk {
  base : Model.t;
  gamma : Q;
  max_steps : Z
}.

(** The [while] loop of [value]; it gives the list [completions]. *)
Fixpoint rollout (o : Oracle) (retries : nat) (REWARDS : list (Q * string))
    (self : agent) (fuel : nat) (state_or_reward : string) (t : Z)
    (completions : list string) : M (list string) :=
  if Py.mem state_or_reward (rewards_values REWARDS) then ret completions
  else
    match fuel with
    | O => fun _ => OutOfFuel
    | S fuel' =>
        let state := state_or_reward in
        let* trajectories := Model.sample_best o (base self) in
        let new_prompt := Py.join newline (trajectories ++ [state]) in
        let* completion := GPT3.call o retries new_prompt in
        let completion := Py.lstrip completion in
        match Py.split_dot completion with
        | action :: state_or_reward :: _ =>
            let action := reformat action in
            let state_or_reward := reformat state_or_reward in
            let* state_or_reward :=
              (if t =? max_steps self then rewards_get REWARDS 0%Q
               else ret state_or_reward) in
            rollout o retries REWARDS self fuel' state_or_reward (t + 1)
              (completions ++ [action; state_or_reward])
        | _ => raise ValueError
        end
    end.

(** [value] up to the [" ".join]. *)
Definition value_completions (o : Oracle) (retries : nat)
    (REWARDS : list (Q * string)) (self : agent) (fuel : nat)
    (state : Z) (action : option Z) : M (list string) :=
  match action with
  | None => raise AssertionError
  | Some action =>
      let state := state_str (Model.env (base self)) state in
      let action := action_str (Model.env (base self)) action in
      let* trajectories := Model.sample o (base self) in
      let new_prompt :=
        Py.join newline (trajectories ++ [state +:+ " " +:+ action]) in
      let* completion := GPT3.call o retries new_prompt in
      match Py.split_dot (Py.lstrip completion) with
      | state_or_reward :: action :: _ =>
          let state_or_reward := reformat state_or_reward in
          let action := reformat action in
          rollout o retries REWARDS self fuel state_or_reward 1
            [state_or_reward]
      | _ => raise ValueError
      end
  end.

Definition value (o : Oracle) (retries : nat) (REWARDS : list (Q * string))
    (self : agent) (fuel : nat) (state : Z) (action : option Z) : M string :=
  let* completions :=
    value_completions o retries REWARDS self fuel state action in
  ret (Py.join " " completions).

(** [range(n)] *)
Definition range (n : Z) : list Z := map Z.of_nat (seq 0 (Z.to_nat n)).

(** [a > b] on the keys, pairs of floats. *)
Definition key_gt (a b : Q * Q) : bool :=
  if Qeq_bool (fst a) (fst b) then Qltb (snd b) (snd a)
  else Qltb (fst b) (fst a).

(** [max(xs, key=...)] on the items with their keys: the first item whose
    key no later one exceeds. *)
Definition max_by_key {A} (first : A * (Q * Q)) (rest : list (A * (Q * Q)))
  : A * (Q * Q) :=
  fold_left (fun best item => if key_gt (snd item) (snd best) then item else best)
    rest first.

(** The key of [max] in [_act]. *)
Definition keyed (o : Oracle) (self : agent) (x : Z * string)
  : M ((Z * string) * (Q * Q)) :=
  let* r := rng_random o in
  ret (x, (quantify (Model.env (base self)) (snd x) (Some (9 # 10)%Q), r)).

(** [get_values] *)
Definition get_values (o : Oracle) (retries : nat)
    (REWARDS : list (Q * string)) (self : agent) (fuel : nat) (state : Z)
  : M (list string) :=
  for_each (fun a => value o retries REWARDS self fuel state (Some a))
    (range (action_space_n (Model.env (base self)))).

Definition _act (o : Oracle) (retries : nat) (REWARDS : list (Q * string))
    (self : agent) (fuel : nat) (state : Z) : M Z :=
  let actions := range (action_space_n (Model.env (base self))) in
  let* values := get_values o retries REWARDS self fuel state in
  let action_values := combine actions values in
  let* action_values := rng_shuffle o action_values in
  let* with_keys := for_each (keyed o self) action_values in
  match with_keys with
  | [] => raise ValueError
  | first :: rest => ret (fst (fst (max_by_key first rest)))
  end.

End QAgent.

Module Pi.

(** One round of the [while action is None] loop. *)
Definition attempt (o : Oracle) (retries : nat) (ACTIONS : list string)
    (self : Model.t) (state : string) : M (option nat) :=
  let* trajectories := Model.sample_best o self in
  let prompt := Py.join newline (trajectories ++ [state]) in
  let* completion := GPT3.call o retries prompt in
  let completion := Py.lstrip completion in
  match Py.split_dot completion with
  | maybe_action :: _ => ret (Py.index (maybe_action +:+ ".") ACTIONS)
  | [] => raise ValueError
  end.

Fixpoint retry (o : Oracle) (retries : nat) (ACTIONS : list string)
    (self : Model.t) (fuel : nat) (state : string) : M Z :=
  match fuel with
  | O => fun _ => OutOfFuel
  | S fuel' =>
      let* action := attempt o retries ACTIONS self state in
      match action with
      | Some a => ret (Z.of_nat a)
      | None => retry o retries ACTIONS self fuel' state
      end
  end.

Definition _act (o : Oracle) (retries : nat) (ACTIONS : list string)
    (self : Model.t) (fuel : nat) (state : Z) : M Z :=
  retry o retries ACTIONS self fuel (state_str (Model.env self) state).

End Pi.

Module DemoAgents.

Definition ACTIONS : list string := ["Left."; "Right."].

Definition REWARDS : list (Q * string) :=
  [(1%Q, "Success."); (0%Q, "Failure.")].

(** A service that first proposes a move that does not exist. *)
Definition oracle : Oracle :=
  mkOracle (fun k _ => match k with O => " Jump. x." | S _ => " Left. x." end)
           (fun _ _ xs => xs)
           (fun _ => 0%Q)
           (fun _ => 0).

Definition model : Model.t := Model.mk [] Demo.env 0 0.

Definition start : World := mkWorld ∅ 0 0.

Definition later : World := mkWorld ∅ 1 0.

End DemoAgents.

(** ** Shapes used in the statements *)

(** Whatever the prompt and however many calls went before, one of the next
    [retries] live answers holds a full stop. *)
Definition service_answers (o : Oracle) (retries : nat) : Prop :=
  forall k prompt,
    exists n, (n < retries)%nat
              /\ Py.contains_dot (Py.lstrip (create o (k + n) prompt)) = true.

(** Pairs [state, action] whose state is no terminal-reward token. *)
Fixpoint open_chain (tokens : list string) (completions : list string) : bool :=
  match completions with
  | [] => true
  | state :: _ :: rest => negb (Py.mem state tokens) && open_chain tokens rest
  | [_] => false
  end.

(** A value string as [Q.value] builds it before the join: such pairs and
    then one terminal-reward token. *)
Fixpoint well_formed_value (tokens : list string) (completions : list string)
  : bool :=
  match completions with
  | [] => false
  | [token] => Py.mem token tokens
  | state :: _ :: rest =>
      negb (Py.mem state tokens) && well_formed_value tokens rest
  end.

Module DemoQ.

Definition agent : QAgent.agent := QAgent.mk DemoAgents.model (1 # 2) 2.

End DemoQ.

(** An environment whose returns are discounted: the value of a chain is the
    reward of its last token times [gamma] to the number of its full
    stops. *)
Module DemoGamma.

Fixpoint count_dots (s : string) : nat :=
  match s with
  | EmptyString => O
  | String c s' => (if Ascii.eqb c Py.dot then 1 else 0) + count_dots s'
  end.

Fixpoint ends_with (suffix s : string) : bool :=
  String.eqb s suffix
  || match s with
     | EmptyString => false
     | String _ s' => ends_with suffix s'
     end.

Definition REWARDS : list (Q * string) :=
  [(1%Q, "Success."); ((1 # 2)%Q, "Half."); (0%Q, "Failure.")].

Definition quantify (value : string) (gamma : option Q) : Q :=
  let reward :=
    if ends_with "Success." value then 1%Q
    else if ends_with "Half." value then (1 # 2)%Q else 0%Q in
  let g := match gamma with Some g => g | None => 1%Q end in
  (reward * g ^ Z.of_nat (count_dots value))%Q.

Definition env : Env :=
  Build_Env Demo.state_str Demo.action_str
    (fun _ _ => "") quantify 2.

(** A long way to a full reward on the left, half a reward at once on the
    right. *)
Definition oracle : Oracle :=
  mkOracle
    (fun _ prompt =>
       if String.eqb prompt "state zero. Left." then " B. x."
       else if String.eqb prompt "B." then " Go. Success."
       else " Half. x.")
    (fun _ _ xs => xs)
    (fun _ => 0%Q)
    (fun _ => 0).

Definition agent : QAgent.agent :=
  QAgent.mk (Model.mk [] env 0 0) (1 # 2) 5.

Definition start : World := mkWorld ∅ 0 0.

End DemoGamma.

(** [a > b] on the keys of [max], as a proposition. *)
Definition key_gt_holds (a b : Q * Q) : Prop :=
  (fst b < fst a)%Q \/ ((fst a == fst b)%Q /\ (snd b < snd a)%Q).

(** ** The training loop ([gqn/train.py])

    The environment, the two agents behind [act], [get_value] and the
    generator are not defined by [train]; they are the fields of [Outside],
    acting on a world [W] of their own.  The agents read the buffer they
    share with the loop, so they take it as an argument.  The report of an
    evaluation episode to the logger changes no variable of the loop and is
    left out. *)

Module Train.

Record Config := mkConfig {
  eval_frequency : Z;
  gamma : Q;
  max_steps : Z;
  max_trajectory : Z;
  min_successes : Z;
  n : Z;
  q_prompt_size : Z;
  total_steps : Z
}.

Record Outside (W : Type) := mkOutside {
  env_reset : W -> Z * W;
  env_step : Z -> W -> (Z * Q * bool) * W;
  env_sample : W -> Z * W;
  rng_draw : W -> Q * W;
  math_exp : Q -> option Q;
  get_value : list TimeStep.t -> Q;
  pi_act : list (list TimeStep.t) -> Z -> W -> option (Z * W);
  q_act : list (list TimeStep.t) -> Z -> W -> option (Z * W)
}.

Arguments env_reset {W}.
Arguments env_step {W}.
Arguments env_sample {W}.
Arguments rng_draw {W}.
Arguments math_exp {W}.
Arguments get_value {W}.
Arguments pi_act {W}.
Arguments q_act {W}.

(** The variables of [train]. *)
Record Locals (W : Type) := mkLocals {
  T : Z;
  episodes : Z;
  train_episodes : Z;
  buffer : list (list TimeStep.t);
  done : bool;
  state : Z;
  trajectory : list TimeStep.t;
  evaluate : bool;
  timed_out : bool;
  t : Z;
  r : Q;
  world : W
}.

Arguments mkLocals {W}.
Arguments T {W}.
Arguments episodes {W}.
Arguments train_episodes {W}.
Arguments buffer {W}.
Arguments done {W}.
Arguments state {W}.
Arguments trajectory {W}.
Arguments evaluate {W}.
Arguments timed_out {W}.
Arguments t {W}.
Arguments r {W}.
Arguments world {W}.

Inductive Run (A : Type) :=
| Finished (a : A)
| Crashed (e : Exn)
| Unfinished.

Arguments Finished {A} a.
Arguments Crashed {A} e.
Arguments Unfinished {A}.

Definition value_sum {W} (out : Outside W) (cfg : Config)
    (buffer : list (list TimeStep.t)) : Q :=
  let value_quantities := map (get_value out) buffer in
  let value_quantities :=
    Py.slice_to (n cfg) (Py.sorted_reverse value_quantities) in
  Py.sum value_quantities.

(** [math.exp] raises [OverflowError] when its result is too large for a
    float: [math_exp] gives [None] there. *)
Definition use_model_prob {W} (out : Outside W) (cfg : Config)
    (buffer : list (list TimeStep.t)) : option Q :=
  match math_exp out
          (2 * (inject_Z (min_successes cfg) - value_sum out cfg buffer))%Q with
  | Some e => Some (1 / (1 + e))%Q
  | None => None
  end.

(** [model.ready()] of the agent built with [prompt_size=q_prompt_size]. *)
Definition ready (cfg : Config) (buffer : list (list TimeStep.t)) : bool :=
  q_prompt_size cfg <=? Z.of_nat (length buffer).

(** [use_model] on a training step, given [use_model_prob] and the number
    [rng.random()] drew. *)
Definition use_model (cfg : Config) (buffer : list (list TimeStep.t))
    (use_model_prob draw : Q) : bool :=
  Qltb draw use_model_prob && ready cfg buffer.

(** The lines from [env.step(action)] to [state = next_state]. *)
Definition take_step {W} (out : Outside W) (cfg : Config) (v : Locals W)
    (action : Z) (w2 : W) : Locals W :=
  let '(next_state, reward, done, w3) := env_step out action w2 in
  let step :=
    TimeStep.mk (state v) action reward
      (if done then None else Some next_state) in
  let r := (r v + reward)%Q in
  let t := t v + 1 in
  let T := if evaluate v then T v else T v + 1 in
  let '(done, timed_out) :=
    if max_steps cfg <=? t then (true, true) else (done, timed_out v) in
  let episodes := if done then episodes v + 1 else episodes v in
  let train_episodes :=
    if done && negb (evaluate v) then train_episodes v + 1
    else train_episodes v in
  mkLocals T episodes train_episodes (buffer v) done next_state
    (trajectory v ++ [step]) (evaluate v) timed_out t r w3.

(** The round once the action is asked for: [chosen] is the action and the
    world the one asked left, or [None] when it never answers. *)
Definition after_choice {W} (out : Outside W) (cfg : Config) (v : Locals W)
    (chosen : option (Z * W)) : Run (Locals W) :=
  match chosen with
  | None => Unfinished
  | Some (action, w2) => Finished (take_step out cfg v action w2)
  end.

(** One round of [while not done].  The probability is computed first, on
    the steps of evaluation episodes too. *)
Definition body {W} (out : Outside W) (cfg : Config) (v : Locals W)
  : Run (Locals W) :=
  match use_model_prob out cfg (buffer v) with
  | None => Crashed OverflowError
  | Some use_model_prob =>
      let '(use_model, w1) :=
        if evaluate v then (true, world v)
        else let '(draw, w) := rng_draw out (world v) in
             (use_model cfg (buffer v) use_model_prob draw, w) in
      after_choice out cfg v
        (if use_model
         then (if evaluate v then pi_act out else q_act out)
                (buffer v) (state v) w1
         else Some (env_sample out w1))
  end.

Fixpoint while_not_done {W} (out : Outside W) (cfg : Config) (fuel : nat)
    (v : Locals W) : Run (Locals W) :=
  if done v then Finished v
  else match fuel with
       | O => Unfinished
       | S fuel' =>
           match body out cfg v with
           | Finished v' => while_not_done out cfg fuel' v'
           | Crashed e => Crashed e
           | Unfinished => Unfinished
           end
       end.

(** [while trajectory: buffer.append(trajectory); head, *trajectory =
    trajectory] *)
Fixpoint push_all (buffer : list (list TimeStep.t))
    (trajectory : list TimeStep.t) : list (list TimeStep.t) :=
  match trajectory with
  | [] => buffer
  | head :: rest => push_all (buffer ++ [trajectory]) rest
  end.

(** The lines after the inner loop. *)
Definition store {W} (cfg : Config) (v : Locals W) : Locals W :=
  if evaluate v then v
  else
    let trajectory := Py.slice_from (- max_trajectory cfg) (trajectory v) in
    if timed_out v
    then mkLocals (T v) (episodes v) (train_episodes v) (buffer v) (done v)
           (state v) trajectory (evaluate v) (timed_out v) (t v) (r v) (world v)
    else mkLocals (T v) (episodes v) (train_episodes v)
           (push_all (buffer v) trajectory) (done v)
           (state v) [] (evaluate v) (timed_out v) (t v) (r v) (world v).

(** One round of [while T < total_steps]. *)
Definition episode {W} (out : Outside W) (cfg : Config) (fuel : nat)
    (v : Locals W) : Run (Locals W) :=
  let '(state, w) := env_reset out (world v) in
  if eval_frequency cfg =? 0 then Crashed ZeroDivisionError
  else
    let evaluate := episodes v mod eval_frequency cfg =? 0 in
    match while_not_done out cfg fuel
            (mkLocals (T v) (episodes v) (train_episodes v) (buffer v) false
               state [] evaluate false 0 0%Q w) with
    | Finished v' => Finished (store cfg v')
    | Crashed e => Crashed e
    | Unfinished => Unfinished
    end.

Fixpoint while_budget {W} (out : Outside W) (cfg : Config) (fuel : nat)
    (v : Locals W) : Run (Locals W) :=
  if T v <? total_steps cfg then
    match fuel with
    | O => Unfinished
    | S fuel' =>
        match episode out cfg fuel' v with
        | Finished v' => while_budget out cfg fuel' v'
        | Crashed e => Crashed e
        | Unfinished => Unfinished
        end
    end
  else Finished v.

Definition train {W} (out : Outside W) (cfg : Config) (fuel : nat) (w : W)
  : Run (Locals W) :=
  while_budget out cfg fuel
    (mkLocals 0 0 0 [] false 0 [] false false 0 0%Q w).

End Train.

(** The buffer entries of one stored trajectory as the code pushes them, the
    whole trajectory first, and in the opposite order. *)
Fixpoint suffixes_longest_first {A} (xs : list A) : list (list A) :=
  match xs with
  | [] => []
  | _ :: rest => xs :: suffixes_longest_first rest
  end.

Definition suffixes_shortest_first {A} (xs : list A) : list (list A) :=
  rev (suffixes_longest_first xs).

(** The last [m] of [xs]. *)
Definition last_steps {A} (m : nat) (xs : list A) : list A :=
  skipn (length xs - m) xs.

Module DemoTrain.

Definition first_step : TimeStep.t := TimeStep.mk 0 1 0 (Some 1).

Definition second_step : TimeStep.t := TimeStep.mk 1 1 1 None.

Definition config : Train.Config :=
  Train.mkConfig 2 (9 # 10) 2 5 1 1 1 1.

(** The number of rewarded steps: the return of a trajectory at [gamma=1]
    when the rewards are 0 or 1. *)
Definition get_value (trajectory : list TimeStep.t) : Q :=
  inject_Z
    (Z.of_nat
       (length
          (List.filter (fun step => Qltb 0 (TimeStep.reward step))
             trajectory))).

(** A stand-in for [math.exp] that overflows where it does, above 709. *)
Definition math_exp (x : Q) : option Q :=
  if Qle_bool x 709 then Some 1%Q else None.

(** An environment that never reaches its goal and agents that always
    answer 0. *)
Definition outside : Train.Outside unit :=
  Train.mkOutside unit
    (fun w => (0, w))
    (fun _ w => ((0, 0%Q, false), w))
    (fun w => (0, w))
    (fun w => (0%Q, w))
    math_exp
    get_value
    (fun _ _ w => Some (0, w))
    (fun _ _ w => Some (0, w)).

(** A training episode of two steps that reached its end. *)
Definition finished : Train.Locals unit :=
  Train.mkLocals 2 2 1 [] true 1 [first_step; second_step] false false 2 1%Q tt.

End DemoTrain.

(** The confidence score as the specification words it: the sum over the
    [n] most recent entries of the buffer. *)
Definition recent_value_sum {W} (out : Train.Outside W) (cfg : Train.Config)
    (buffer : list (list TimeStep.t)) : Q :=
  Py.sum (map (Train.get_value out)
            (last_steps (Z.to_nat (Train.n cfg)) buffer)).

(** Descending order on floats. *)
Definition descending : list Q -> Prop :=
  StronglySorted (fun a b => (b <= a)%Q).

(** Episodes still to come, at worst, when no two episodes in a row are
    evaluation episodes: each training episode brings [T] at least one step
    nearer the budget. *)
Definition episodes_left {W} (cfg : Train.Config) (v : Train.Locals W) : Z :=
  if Train.T v <? Train.total_steps cfg
  then 2 * (Train.total_steps cfg - Train.T v)
       - (if Train.episodes v mod Train.eval_frequency cfg =? 0 then 0 else 1)
  else 0.

(** ** Further shapes used in the statements *)

(** Every stored completion is as [lstrip] leaves it. *)
Definition all_stripped (d : gmap string string) : Prop :=
  forall prompt completion,
    d !! prompt = Some completion -> Py.lstrip completion = completion.

(** The rewards of the terminal steps of a trajectory, in order. *)
Definition terminal_rewards (steps : list TimeStep.t) : list Q :=
  map TimeStep.reward
    (List.filter (fun step => match TimeStep.next_state step with
                              | None => true
                              | Some _ => false
                              end) steps).

(** A text made of stretches without ['='] and of the reward occurrences
    with the digits [ds], in this order. *)
Inductive Rendered : list nat -> string -> Prop :=
| Rendered_plain (x : string) :
    no_equals x = true -> Rendered [] x
| Rendered_reward (x : string) (d : nat) (ds : list nat) (rest : string) :
    no_equals x = true -> (d < 10)%nat -> Rendered ds rest ->
    Rendered (d :: ds)
      (x +:+ Gqn.reward_prefix +:+ String (ascii_of_nat (48 + d)) rest).

(** A terminal step carries a one-digit reward, [digit step], rendered as
    [Gqn.quantify] reads it. *)
Definition readable (env : Env) (digit : TimeStep.t -> nat)
    (step : TimeStep.t) : Prop :=
  TimeStep.next_state step = None ->
  (digit step < 10)%nat
  /\ (TimeStep.reward step == inject_Z (Z.of_nat (digit step)))%Q
  /\ reward_str env (TimeStep.reward step) None = Gqn.reward_text (digit step).

Module DemoCodec.

(** Two episodes in a row, each ending with a reward. *)
Definition two_goals : list TimeStep.t :=
  [TimeStep.mk 0 1 0 (Some 1); TimeStep.mk 1 1 2 None;
   TimeStep.mk 0 0 0 (Some 1); TimeStep.mk 1 0 3 None].

Definition digit (step : TimeStep.t) : nat :=
  Z.to_nat (Qnum (TimeStep.reward step)).

End DemoCodec.

(** The reward text of the last step of a trajectory, empty when that step
    is not terminal or there is none. *)
Fixpoint last_reward_text (env : Env) (steps : list TimeStep.t) : string :=
  match steps with
  | [] => ""
  | [step] =>
      match TimeStep.next_state step with
      | None => reward_str env (TimeStep.reward step) None
      | Some _ => ""
      end
  | _ :: later => last_reward_text env later
  end.

(** What stands between the renderings of two trajectories put one after
    the other. *)
Definition joint (env : Env) (before after : list TimeStep.t) : string :=
  match last_reward_text env before, to_string env after with
  | String _ _, String _ _ => " "
  | _, _ => ""
  end.

(** ** The environment base class ([gqn/base_env.py]) *)

(** [xs[i]] for any integer [i], counting from the end when [i] is
    negative; [None] for [IndexError]. *)
Definition getitem {A} (xs : list A) (i : Z) : option A :=
  let len := Z.of_nat (length xs) in
  if (0 <=? i) && (i <? len) then nth_error xs (Z.to_nat i)
  else if (- len <=? i) && (i <? 0) then nth_error xs (Z.to_nat (len + i))
  else None.

(** [a == b] on optional strings. *)
Definition option_string_eqb (a b : option string) : bool :=
  match a, b with
  | Some x, Some y => String.eqb x y
  | None, None => true
  | _, _ => false
  end.

Module GqnEnv.

(** The class [Env] with what its abstract methods give: [actions] for
    [actions()], [n] for [action_space.n], [_state_str] for the class
    method of that name. *)
Record t := mk {
  hint : bool;
  n : Z;
  actions : list string;
  _state_str : Z -> string
}.

Definition action_stop : string := newline.

(** On [IndexError] the method stops in the debugger and, resumed, ends
    without a value. *)
Definition action_str (self : t) (action : Z) : option string :=
  match getitem (actions self) action with
  | Some name => Some (name +:+ action_stop)
  | None => None
  end.

(** [ValueError], raised when the list does not hold exactly one action, is
    caught and turned into [None]. *)
Definition action (self : t) (action_str_ : option string) : option Z :=
  let actions :=
    List.filter
      (fun a => option_string_eqb (action_str self a) action_str_)
      (QAgent.range (n self)) in
  match actions with
  | [action] => Some action
  | _ => None
  end.

Definition hint_stop (self : t) : option string :=
  if hint self then Some newline else None.

Definition reward_stop : option string := Some newline.

Definition state_stop : string := newline.

Definition state_str (self : t) (state : Z) : string :=
  _state_str self state +:+ state_stop.

Definition quantify (self : t) (prompt : string) : Q := Gqn.quantify prompt.

End GqnEnv.

Module DemoGqn.

Definition env : GqnEnv.t :=
  GqnEnv.mk true 3 ["Left"; "Shoot"; "Right"] (fun _ => "ship").

End DemoGqn.

(** ** Shapes of what the training loop stores *)

Definition nonterminal (step : TimeStep.t) : Prop :=
  TimeStep.next_state step <> None.

(** The steps of an episode up to and with the step that ended it: one
    terminal step, the last. *)
Definition episode_shaped (trajectory : list TimeStep.t) : Prop :=
  exists steps last,
    trajectory = (steps ++ [last])%list
    /\ Forall nonterminal steps
    /\ TimeStep.next_state last = None.

Module DemoGoal.

(** An environment that ends every episode at its first step, with the
    reward 1. *)
Definition outside : Train.Outside unit :=
  Train.mkOutside unit
    (fun w => (0, w))
    (fun _ w => ((1, 1%Q, true), w))
    (fun w => (0, w))
    (fun w => (0%Q, w))
    DemoTrain.math_exp
    DemoTrain.get_value
    (fun _ _ w => Some (0, w))
    (fun _ _ w => Some (0, w)).

Definition config : Train.Config :=
  Train.mkConfig 2 (9 # 10) 5 5 1 1 1 3.

End DemoGoal.

(** ** Completions that lead the agents nowhere *)

(** What [Pi._act] looks up, the text before the first full stop with the
    full stop put back, is not in [ACTIONS]. *)
Definition names_no_action (ACTIONS : list string) (completion : string)
  : Prop :=
  forall maybe_action rest,
    Py.split_dot (Py.lstrip completion) = maybe_action :: rest ->
    Py.index (maybe_action +:+ ".") ACTIONS = None.

(** Neither of the two sentences [Q.value] reads is in
    [REWARDS.values()]. *)
Definition names_no_reward (REWARDS : list (Q * string)) (completion : string)
  : Prop :=
  forall first second rest,
    Py.split_dot (Py.lstrip completion) = first :: second :: rest ->
    Py.mem (reformat first) (rewards_values REWARDS) = false
    /\ Py.mem (reformat second) (rewards_values REWARDS) = false.

(** [P] holds of every completion the client can return from [w] on:
    those in the cache and those the service gives from now on. *)
Definition every_completion (o : Oracle) (P : string -> Prop) (w : World)
  : Prop :=
  (forall prompt completion, db w !! prompt = Some completion -> P completion)
  /\ (forall k prompt, (calls w <= k)%nat -> P (create o k prompt)).

Module DemoLost.

(** A service that only ever proposes a move that does not exist. *)
Definition oracle : Oracle :=
  mkOracle (fun _ _ => " Jump. On.")
           (fun _ _ xs => xs)
           (fun _ => 0%Q)
           (fun _ => 0).

(** An agent of [Q] with no bound on its rollouts. *)
Definition agent : QAgent.agent := QAgent.mk DemoAgents.model (1 # 2) 0.

End DemoLost.

Module DemoPrompts.

(** A buffer of one success and one failure, a prompt of one example. *)
Definition model : Model.t :=
  Model.mk
    [Prompt.make 0 1 " assert reward == 1"; Prompt.make 1 0 "assert reward == 0"]
    Demo.env (1 # 2) 1.

End DemoPrompts.

(** ** The completion client of [gqn] ([gqn/rl/gpt3.py])

    The class [GPT3] extends [rl.lm.LM], which is not part of the sources
    at hand: the fields it reads are those of [GqnGPT3.t], the methods it
    calls ([clip_prompt], [get_completions], [post_completion]) and the
    completion service are the record [GqnGPT3.Base].  Output ([print],
    [logger.log]) and the clock are left out.  [breakpoint()] is counted
    and resumed. *)

Module Request.

(** The arguments of [openai.Completion.create]. *)
Record t := mk {
  engine : string;
  max_tokens : Z;
  prompt : string;
  logprobs : Z;
  temperature : Q;
  stop : list string
}.

End Request.

Module GqnGPT3.

(** [choice.logprobs.top_logprobs] as dictionaries. *)
Definition TopLogprobs : Type := list (list (string * Q)).

(** What a request comes to: [choices] with its first element, or one of
    the two errors the loop catches. *)
Inductive Reply :=
| Choice (text : string) (top_logprobs : TopLogprobs)
| RateLimitError
| InvalidRequestError.

Inductive Error := ValueError | AssertionError | TypeError | SystemExit.

Record t := mk {
  debug : Z;
  logprobs : Z;
  max_tokens_in_completion : Z;
  model_name : string;
  require_cache : bool;
  wait_time : option Q
}.

Record Base (Store Cached : Type) := mkBase {
  clip_prompt : string -> string;
  get_completions : Store -> string -> list string -> Q -> list Cached;
  post_completion :
    Store -> string -> string -> list string -> Q -> TopLogprobs ->
    string * Store;
  create : nat -> Request.t -> Reply
}.

Arguments clip_prompt {Store Cached}.
Arguments get_completions {Store Cached}.
Arguments post_completion {Store Cached}.
Arguments create {Store Cached}.

(** The store behind the cache, the requests sent, the arguments of
    [time.sleep] and the number of stops in the debugger, in order. *)
Record Machine (Store : Type) := mkMachine {
  store : Store;
  sent : list Request.t;
  slept : list Q;
  stopped : nat
}.

Arguments mkMachine {Store}.
Arguments store {Store}.
Arguments sent {Store}.
Arguments slept {Store}.
Arguments stopped {Store}.

Inductive Result (Cached : Type) :=
| FromCache (completion : Cached)
| Fresh (prompt completion : string) (top_logprobs : TopLogprobs).

Arguments FromCache {Cached}.
Arguments Fresh {Cached}.

Inductive Outcome (Store A : Type) :=
| Returns (a : A) (m : Machine Store)
| Raises (e : Error) (m : Machine Store)
| Running.

Arguments Returns {Store A}.
Arguments Raises {Store A}.
Arguments Running {Store A}.

Definition OPENAI_MODELS : list string :=
  ["code-davinci-002"; "text-davinci-002"; "gpt3"].

Definition MAX_TOKENS_ACCEPTED_BY_LM : Z := 4000.

Definition __post_init__ (self : t) : Error + t :=
  let wait_time :=
    match wait_time self with
    | None =>
        if String.eqb (model_name self) "code-davinci-002" then inr 4%Q
        else if Py.mem (model_name self) ["text-davinci-002"; "gpt3"]
             then inr 0%Q
             else inl ValueError
    | Some wait_time => inr wait_time
    end in
  match wait_time with
  | inl e => inl e
  | inr wait_time =>
      if logprobs self <=? 5
      then inr (mk (debug self) (logprobs self) (max_tokens_in_completion self)
                  (model_name self) (require_cache self) (Some wait_time))
      else inl AssertionError
  end.

Definition breakpoint {Store} (m : Machine Store) : Machine Store :=
  mkMachine (store m) (sent m) (slept m) (S (stopped m)).

(** [min(wait_time, 60)] *)
Definition min_60 (wait_time : Q) : Q :=
  if Qltb 60 wait_time then 60%Q else wait_time.

(** The request of the loop; its temperature is the literal [0.1]. *)
Definition request {Store Cached} (b : Base Store Cached) (self : t)
    (prompt : string) (stop : list string) : Request.t :=
  Request.mk
    (if String.eqb (model_name self) "gpt3" then "text-davinci-002"
     else model_name self)
    (max_tokens_in_completion self) prompt (logprobs self) (1 # 10) stop.

(** The [while True] loop; [prompt] is the clipped prompt.  [time.sleep]
    raises [ValueError] on a negative number, which the loop does not
    catch. *)
Fixpoint requests {Store Cached} (b : Base Store Cached) (self : t)
    (prompt : string) (stop : list string) (temperature : Q) (fuel : nat)
    (wait_time : Q) (m : Machine Store) : Outcome Store (Result Cached) :=
  match fuel with
  | O => Running
  | S fuel' =>
      let wait_time := min_60 wait_time in
      if Qltb wait_time 0 then Raises ValueError m
      else
        let m := mkMachine (store m) (sent m) (slept m ++ [wait_time])
                   (stopped m) in
        let reply := create b (length (sent m)) (request b self prompt stop) in
        let m := mkMachine (store m) (sent m ++ [request b self prompt stop])
                   (slept m) (stopped m) in
        match reply with
        | RateLimitError =>
            requests b self prompt stop temperature fuel' (wait_time * 2)%Q m
        | InvalidRequestError =>
            requests b self prompt stop temperature fuel' wait_time
              (breakpoint m)
        | Choice text top_logprobs =>
            let completion := Py.lstrip text in
            let '(response, store') :=
              post_completion b (store m) completion prompt stop temperature
                top_logprobs in
            let m := mkMachine store' (sent m) (slept m) (stopped m) in
            let m := if String.eqb response completion then m
                     else breakpoint m in
            let m := if 6 <=? debug self then breakpoint m else m in
            Returns (Fresh prompt completion top_logprobs) m
        end
  end.

Definition get_full_completion {Store Cached} (b : Base Store Cached)
    (self : t) (prompt : string) (stop : list string) (temperature : Q)
    (use_cache : bool) (fuel : nat) (m : Machine Store)
  : Outcome Store (Result Cached) :=
  let prompt := clip_prompt b prompt in
  let live :=
    let m := if 5 <=? debug self then breakpoint m else m in
    match wait_time self with
    | None => Raises TypeError m
    | Some wait_time =>
        requests b self prompt stop temperature fuel wait_time m
    end in
  if use_cache then
    match get_completions b (store m) prompt stop temperature with
    | completion :: _ => Returns (FromCache completion) m
    | [] => if require_cache self then Raises SystemExit (breakpoint m)
            else live
    end
  else live.

Definition max_prompt_tokens (self : t) : Z :=
  MAX_TOKENS_ACCEPTED_BY_LM - max_tokens_in_completion self - 100.

End GqnGPT3.

(** How many of the requests [from], [from + 1], ..., [from + i - 1] the
    service turned down for their rate. *)
Fixpoint rate_limited {Store Cached} (b : GqnGPT3.Base Store Cached)
    (r : Request.t) (from i : nat) : nat :=
  match i with
  | O => O
  | S i' =>
      (match GqnGPT3.create b from r with
       | GqnGPT3.RateLimitError => 1
       | _ => 0
       end + rate_limited b r (S from) i')%nat
  end.

(** [2 ** j] as a float. *)
Definition pow2 (j : nat) : Q := inject_Z (2 ^ Z.of_nat j).

Module DemoBackoff.

(** A service that turns down the first five requests for their rate and
    answers the sixth; a cache that is empty and keeps what is posted. *)
Definition base : GqnGPT3.Base (list string) string :=
  GqnGPT3.mkBase (list string) string
    (fun prompt => prompt)
    (fun _ _ _ _ => [])
    (fun store completion _ _ _ _ => (completion, completion :: store))
    (fun k _ =>
       if (k <? 5)%nat then GqnGPT3.RateLimitError
       else GqnGPT3.Choice " ship=1" []).

Definition raw : GqnGPT3.t :=
  GqnGPT3.mk (-1) 5 100 "code-davinci-002" false None.

Definition lm : GqnGPT3.t :=
  GqnGPT3.mk (-1) 5 100 "code-davinci-002" false (Some 4%Q).

Definition start : GqnGPT3.Machine (list string) :=
  GqnGPT3.mkMachine [] [] [] 0.

End DemoBackoff.

(** ** The Space Invaders encoder and metrics
    ([gqn/space_invaders_metrics.py])

    The module [space_invaders] is not part of the sources at hand: [Obs]
    and [Alien] are the records of the fields the encoder reads, in the
    order [name] builds them.  An integer in an f-string is its decimal
    numeral, [pretty]. *)

Module SpaceInvaders.

Record Alien := mkAlien {
  i : Z;
  x : Z;
  y : Z
}.

Record Obs := mkObs {
  agent : Z;
  aliens : list Alien
}.

(** [TimeStep] of [base_env]. *)
Record TimeStep := mkTimeStep {
  state : Obs;
  action : Z;
  reward : Q;
  done : bool;
  next_state : Obs
}.

(** [TimeStepWithActions] of [metrics.metric], as it is built in
    [collect_trajectory]. *)
Record TimeStepWithActions := mkTimeStepWithActions {
  time_step : TimeStep;
  good_actions : list Z
}.

Inductive Error := IndexError | AssertionError.

Definition ACTIONS : list string := ["Left"; "Shoot"; "Right"].

Module Encoder.

Definition actions : list Z := QAgent.range 3.

Definition action_str (action : Z) : Error + string :=
  match getitem ACTIONS action with
  | Some name => inr (name +:+ ":")
  | None => inl IndexError
  end.

Definition hint (state : Obs) : string :=
  let hint :=
    Py.join ", "
      (map (fun a =>
              if x a =? agent state
              then "ship==alien" +:+ pretty (i a) +:+ "_x"
              else "ship!=alien" +:+ pretty (i a) +:+ "_x")
         (aliens state)) in
  "[" +:+ hint +:+ "].".

Definition state_str (state : Obs) : string :=
  let aliens :=
    Py.join ", "
      (map (fun a =>
              "alien" +:+ pretty (i a) +:+ "=("
              +:+ pretty (x a) +:+ ", " +:+ pretty (y a) +:+ ")")
         (aliens state)) in
  let ship := "ship=" +:+ pretty (agent state) in
  if Py.truthy aliens then ship +:+ ", " +:+ aliens else ship.

Definition hint_query (state : Obs) : string := state_str state.

Definition action_query (state : Obs) : string :=
  hint_query state +:+ " " +:+ hint state.

Definition nonterminal_reward_str (ts : TimeStep) : string :=
  if negb (action ts =? 1) then ""
  else if Qeq_bool (reward ts) 0 then "missed;"
  else
    let in_range :=
      map i (List.filter (fun a => x a =? agent (state ts))
               (aliens (state ts))) in
    let aliens_hit :=
      Py.join " and " (map (fun i => "alien" +:+ pretty i) in_range) in
    "hit " +:+ aliens_hit +:+ ";".

Definition reward_query (ts : TimeStep) : Error + string :=
  match action_str (action ts) with
  | inr action => inr (action_query (state ts) +:+ " " +:+ action)
  | inl e => inl e
  end.

Definition stop : list string := [":"; ";"; "."].

Definition terminal_reward_str (ts : TimeStep) : string :=
  let landed :=
    map i (List.filter (fun a => y a =? 0) (aliens (next_state ts))) in
  match landed with
  | _ :: _ =>
      Py.join " and " (map (fun i => "alien" +:+ pretty i) landed)
      +:+ " landed."
  | [] => "survived."
  end.

Definition transition_query (ts : TimeStep) : Error + string :=
  if done ts then inl AssertionError
  else
    let reward_str := nonterminal_reward_str ts in
    match reward_query ts with
    | inr query =>
        if Py.truthy reward_str then inr (query +:+ " " +:+ reward_str)
        else inr query
    | inl e => inl e
    end.

Definition time_step_str (ts : TimeStep) : Error + string :=
  if done ts then reward_query ts else transition_query ts.

Definition name : Error + string :=
  time_step_str
    (mkTimeStep (mkObs 1 [mkAlien 1 1 2]) 1 1 false (mkObs 1 [])).

End Encoder.

(** A generator over [queries] that reads [query[-1]] and yields the
    queries whose last step passes [keep]: what it yielded, and whether an
    empty query ended it with [IndexError]. *)
Fixpoint yield_by_last_step (keep : TimeStep -> bool)
    (queries : list (list TimeStepWithActions))
  : list (list TimeStepWithActions) * bool :=
  match queries with
  | [] => ([], false)
  | query :: rest =>
      match getitem query (-1) with
      | None => ([], true)
      | Some last_step =>
          let '(yielded, raised) := yield_by_last_step keep rest in
          (if keep (time_step last_step) then query :: yielded else yielded,
           raised)
      end
  end.

Module Hint.

Definition _get_query (last_step : TimeStep) : string :=
  Encoder.hint_query (state last_step).

Definition _get_query_trajectories
    (queries : list (list TimeStepWithActions))
  : list (list TimeStepWithActions) * bool :=
  (queries, false).

Definition get_output (last_step : TimeStepWithActions) : list string :=
  [Encoder.hint (state (time_step last_step))].

End Hint.

Module HitReward.

Definition _get_query (last_step : TimeStep) : Error + string :=
  Encoder.reward_query last_step.

Definition _get_query_trajectories
    (queries : list (list TimeStepWithActions))
  : list (list TimeStepWithActions) * bool :=
  yield_by_last_step (fun last_step => Qltb 0 (reward last_step)) queries.

Definition get_output (last_step : TimeStepWithActions) : list string :=
  [Encoder.nonterminal_reward_str (time_step last_step)].

End HitReward.

Module MissReward.

Definition _get_query (last_step : TimeStep) : Error + string :=
  Encoder.reward_query last_step.

Definition _get_query_trajectories
    (queries : list (list TimeStepWithActions))
  : list (list TimeStepWithActions) * bool :=
  yield_by_last_step
    (fun last_step =>
       (action last_step =? 1) && Qeq_bool (reward last_step) 0)
    queries.

Definition get_output (last_step : TimeStepWithActions) : list string :=
  [Encoder.nonterminal_reward_str (time_step last_step)].

End MissReward.

Module Transition.

Definition _get_query_trajectories
    (queries : list (list TimeStepWithActions))
  : list (list TimeStepWithActions) * bool :=
  yield_by_last_step
    (fun last_step =>
       let spawned :=
         (length (aliens (state last_step))
          <? length (aliens (next_state last_step)))%nat in
       negb (done last_step) && negb spawned)
    queries.

End Transition.

(** [any([abs(s.agent - a.x) > a.y for a in s.aliens])] *)
Definition hopeless (s : Obs) : bool :=
  existsb (fun a => y a <? Z.abs (agent s - x a)) (aliens s).

End SpaceInvaders.

Module DemoInvaders.

Definition shot : SpaceInvaders.TimeStep :=
  SpaceInvaders.mkTimeStep
    (SpaceInvaders.mkObs 1 [SpaceInvaders.mkAlien 1 1 2]) 1 1 false
    (SpaceInvaders.mkObs 1 []).

Definition miss : SpaceInvaders.TimeStep :=
  SpaceInvaders.mkTimeStep
    (SpaceInvaders.mkObs 0 [SpaceInvaders.mkAlien 1 1 2]) 1 0 false
    (SpaceInvaders.mkObs 0 [SpaceInvaders.mkAlien 1 1 1]).

Definition queries : list (list SpaceInvaders.TimeStepWithActions) :=
  [[SpaceInvaders.mkTimeStepWithActions shot [1]];
   [SpaceInvaders.mkTimeStepWithActions shot [1];
    SpaceInvaders.mkTimeStepWithActions miss [2]]].

End DemoInvaders.

(** The same collaborators with another agent for [q]. *)
Definition with_q_act {W} (out : Train.Outside W)
    (q_act : list (list TimeStep.t) -> Z -> W -> option (Z * W))
  : Train.Outside W :=
  Train.mkOutside W (Train.env_reset out) (Train.env_step out)
    (Train.env_sample out) (Train.rng_draw out) (Train.math_exp out)
    (Train.get_value out) (Train.pi_act out) q_act.

Module DemoScore.

(** Episodes of one step each, the steps of the whole run counted by the
    world: the step numbered 1 is rewarded, no other is.  With every
    second episode an evaluation episode, the first training episode is
    a success and the later ones are failures. *)
Definition outside : Train.Outside nat :=
  Train.mkOutside nat
    (fun w => (0, w))
    (fun _ w => ((1, if (w =? 1)%nat then 1%Q else 0%Q, true), S w))
    (fun w => (0, w))
    (fun w => (0%Q, w))
    DemoTrain.math_exp
    DemoTrain.get_value
    (fun _ _ w => Some (0, w))
    (fun _ _ w => Some (1, w)).

Definition config : Train.Config :=
  Train.mkConfig 2 (9 # 10) 5 5 1 1 1 2.

(** What [train] leaves in the buffer: the success, then the failure. *)
Definition stored : list (list TimeStep.t) :=
  [[TimeStep.mk 0 0 1 None]; [TimeStep.mk 0 1 0 None]].

(** The first step of a training episode that starts from there. *)
Definition next : Train.Locals nat :=
  Train.mkLocals 2 5 2 stored false 0 [] false false 0 0%Q 5%nat.

End DemoScore.

Module DemoTie.

(** A service for which both actions are worth the same, and a generator
    whose fifth number, the one drawn for the second candidate, is the
    greater. *)
Definition oracle : Oracle :=
  mkOracle (fun _ _ => " Half. x.")
           (fun _ _ xs => xs)
           (fun k => if (k =? 4)%nat then 1%Q else 0%Q)
           (fun _ => 0).

End DemoTie.

Module DemoDecimal.

(** Rewards rendered as whole numbers in decimal, behind the words
    [Env.quantify] looks for. *)
Definition reward_str (r : Q) (next_state : option Z) : string :=
  match next_state with
  | None => Gqn.reward_prefix +:+ pretty (Qnum r)
  | Some _ => ""
  end.

Definition env : Env :=
  Build_Env Demo.state_str Demo.action_str reward_str
    (fun prompt _ => Gqn.quantify prompt) 2.

(** A step that ends the episode with the reward 10. *)
Definition ten : TimeStep.t := TimeStep.mk 0 1 10 None.

End DemoDecimal.

(** * Properties *)

(** ** Strings *)

Lemma append_nil_l (s : string) : "" +:+ s = s.
Proof. reflexivity. Qed.

Lemma append_cons (c : ascii) (s t : string) :
  String c s +:+ t = String c (s +:+ t).
Proof. reflexivity. Qed.

Create Rewrite HintDb str.
#[local] Hint Rewrite append_nil_l append_cons : str.

Lemma append_assoc (a b c : string) : (a +:+ b) +:+ c = a +:+ (b +:+ c).
Proof.
  induction a as [|x a IH]; autorewrite with str; [reflexivity | now rewrite IH].
Qed.

Lemma append_empty_r (a : string) : a +:+ "" = a.
Proof.
  induction a as [|x a IH]; autorewrite with str; [reflexivity | now rewrite IH].
Qed.

Lemma starts_visible_app (s t : string) :
  starts_visible s = true -> starts_visible (s +:+ t) = true.
Proof. destruct s; autorewrite with str; simpl; [discriminate | trivial]. Qed.

Lemma length_append (x y : string) :
  String.length (x +:+ y) = (String.length x + String.length y)%nat.
Proof.
  induction x as [|c x IH]; [reflexivity |].
  rewrite append_cons. cbn. now rewrite IH.
Qed.

Lemma append_stop_inj (x y stop : string) :
  x +:+ stop = y +:+ stop -> x = y.
Proof.
  intros H.
  assert (Hlen : String.length x = String.length y).
  { apply (f_equal String.length) in H.
    rewrite !length_append in H. lia. }
  revert y H Hlen. induction x as [|c x IH]; intros [|d y] H Hlen;
    try discriminate; [reflexivity |].
  rewrite !append_cons in H. injection H as -> H.
  f_equal. apply IH; [exact H | now injection Hlen].
Qed.

Lemma lstrip_visible (s : string) :
  starts_visible s = true -> Py.lstrip s = s.
Proof.
  destruct s as [|c s]; simpl; [discriminate |].
  intros H. destruct (Py.is_space c); [discriminate | reflexivity].
Qed.

(** ** The codec *)

Section Codec.

Variable env : Env.

Hypothesis state_visible : forall s, starts_visible (state_str env s) = true.
Hypothesis reward_clean :
  forall r, no_leading_space (reward_str env r None) = true.

Lemma render_clean (steps : list TimeStep.t) :
  Py.lstrip (render env steps) = render env steps.
Proof.
  destruct steps as [|step later]; [reflexivity |].
  apply lstrip_visible. cbn [render].
  apply starts_visible_app, state_visible.
Qed.

Lemma to_string_render (steps : list TimeStep.t) :
  to_string env steps = render env steps.
Proof.
  induction steps as [|step later IH]; [reflexivity |].
  cbn [to_string render]. rewrite IH.
  unfold Prompt.to_string, Prompt.make; cbn [Prompt.state Prompt.action Prompt.value].
  do 4 f_equal.
  destruct (TimeStep.next_state step) as [s'|].
  - rewrite andb_false_r. autorewrite with str. apply render_clean.
  - pose proof (reward_clean (TimeStep.reward step)) as Hr.
    destruct (reward_str env (TimeStep.reward step) None) as [|c rw].
    + rewrite andb_false_r. autorewrite with str. apply render_clean.
    + cbn in Hr. rewrite andb_true_r.
      destruct (render env later) as [|d rest]; autorewrite with str; cbn;
        destruct (Py.is_space c); try discriminate; reflexivity.
Qed.

End Codec.

(** C7.  For an environment whose state renderings are non-empty and whose
    state and terminal-reward renderings do not begin with white space (so
    that the [lstrip] of [Prompt.make] leaves them alone), [to_string]
    renders every sequence of time steps as the right-to-left concatenation
    of the specification: each step gives its [state action] pair, a
    terminal step its reward text, with one space between the reward text
    and the continuation exactly when both are non-empty; and the rendering
    of a single terminal step ends with its reward text, no state after it. *)
Theorem to_string_right_to_left (env : Env) :
  (forall s, starts_visible (state_str env s) = true) ->
  (forall r, no_leading_space (reward_str env r None) = true) ->
  (forall steps, to_string env steps = render env steps)
  /\ (forall step,
        TimeStep.next_state step = None ->
        TimeStep.to_string step env
        = state_str env (TimeStep.state step) +:+ " "
          +:+ action_str env (TimeStep.action step) +:+ " "
          +:+ reward_str env (TimeStep.reward step) None).
Proof.
  intros Hs Hr. split.
  - intros steps. now apply to_string_render.
  - intros step Hnone. unfold TimeStep.to_string. rewrite Hnone.
    now rewrite append_empty_r.
Qed.

Lemma to_string_right_to_left_witness :
  to_string Demo.env (Demo.walk ++ [Demo.goal])
  = render Demo.env (Demo.walk ++ [Demo.goal]).
Proof.
  apply (to_string_right_to_left Demo.env).
  - intros s. reflexivity.
  - intros r. unfold Demo.env, reward_str, Demo.reward_str, Gqn.reward_text.
    reflexivity.
Defined.

(** ** Quantifying a rendered trajectory *)

Lemma strip_prefix_Some (p s r : string) :
  Gqn.strip_prefix p s = Some r -> s = p +:+ r.
Proof.
  revert s; induction p as [|a p IH]; intros s; cbn.
  - now intros [= ->].
  - destruct s as [|b s]; [discriminate |].
    destruct (Ascii.eqb_spec a b) as [->|]; [|discriminate].
    intros H. rewrite append_cons. f_equal. now apply IH.
Qed.

Lemma no_equals_app (s t : string) :
  no_equals (s +:+ t) = no_equals s && no_equals t.
Proof.
  induction s as [|c s IH]; autorewrite with str; cbn; [reflexivity |].
  now rewrite IH, andb_assoc.
Qed.

Lemma first_equals_app (s t : string) :
  no_equals s = true ->
  first_equals (s +:+ t)
  = option_map (Nat.add (String.length s)) (first_equals t).
Proof.
  induction s as [|c s IH]; autorewrite with str; cbn.
  - intros _. now destruct (first_equals t).
  - intros [Hc Hs]%andb_true_iff. destruct (Ascii.eqb c "="); [discriminate |].
    rewrite (IH Hs). now destruct (first_equals t).
Qed.

Lemma match_here_first_equals (s : string) (d : ascii) :
  Gqn.match_here s = Some d -> first_equals s = Some 14%nat.
Proof.
  unfold Gqn.match_here.
  destruct (Gqn.strip_prefix Gqn.reward_prefix s) as [r|] eqn:E; [|discriminate].
  intros _. apply strip_prefix_Some in E. subst s. reflexivity.
Qed.

(** Text without ['='] in front of a reward occurrence holds no match, and
    none that runs into the occurrence. *)
Lemma findall_skips_plain_text (x rest : string) :
  no_equals x = true ->
  Gqn.findall_from 0 (x +:+ Gqn.reward_prefix +:+ rest)
  = Gqn.findall_from 0 (Gqn.reward_prefix +:+ rest).
Proof.
  induction x as [|c x IH]; [reflexivity |].
  intros Hx. pose proof Hx as Hx'. cbn in Hx'.
  apply andb_true_iff in Hx' as [_ Hx'].
  rewrite append_cons. cbn [Gqn.findall_from].
  destruct (Gqn.match_here (String c (x +:+ Gqn.reward_prefix +:+ rest)))
    as [d|] eqn:E; [|now apply IH].
  apply match_here_first_equals in E.
  rewrite <- append_cons, (first_equals_app _ _ Hx) in E.
  change (first_equals (Gqn.reward_prefix +:+ rest)) with (Some 14%nat) in E.
  cbn in E. injection E as E. lia.
Qed.

Lemma digit_is_digit (d : nat) :
  (d < 10)%nat ->
  Gqn.is_digit (ascii_of_nat (48 + d)) = true
  /\ Gqn.float_of_digit (ascii_of_nat (48 + d)) = inject_Z (Z.of_nat d).
Proof.
  intros Hd. do 10 (destruct d as [|d]; [split; reflexivity |]). lia.
Qed.

Lemma findall_reward_text (d : nat) (sfx : string) :
  (d < 10)%nat ->
  Gqn.findall_from 0 (Gqn.reward_prefix +:+ String (ascii_of_nat (48 + d)) sfx)
  = ascii_of_nat (48 + d) :: Gqn.findall_from 0 sfx.
Proof.
  intros Hd. destruct (digit_is_digit d Hd) as [Hdig _].
  change (Gqn.reward_prefix +:+ String (ascii_of_nat (48 + d)) sfx)
    with (String "a" ("ssert reward == " +:+ String (ascii_of_nat (48 + d)) sfx)).
  cbn [Gqn.findall_from].
  change (Gqn.match_here
            (String "a" ("ssert reward == " +:+ String (ascii_of_nat (48 + d)) sfx)))
    with (if Gqn.is_digit (ascii_of_nat (48 + d))
          then Some (ascii_of_nat (48 + d)) else None).
  rewrite Hdig. reflexivity.
Qed.

Lemma lstrip_keeps_visible_suffix (x r : string) :
  starts_visible r = true ->
  exists x', Py.lstrip (x +:+ r) = x' +:+ r
             /\ (no_equals x = true -> no_equals x' = true).
Proof.
  intros Hr. induction x as [|c x (x' & E & Hx')].
  - exists "". split; [now apply lstrip_visible | trivial].
  - rewrite append_cons. cbn [Py.lstrip]. destruct (Py.is_space c).
    + exists x'. split; [exact E |].
      cbn. intros [_ H]%andb_true_iff. auto.
    + exists (String c x). split; [reflexivity | trivial].
Qed.

(** A prefix that runs beyond the first of two texts goes on in the
    second. *)
Lemma strip_prefix_app (p : string) :
  forall x y r,
  Gqn.strip_prefix p (x +:+ y) = Some r ->
  (exists r', Gqn.strip_prefix p x = Some r' /\ r = r' +:+ y)
  \/ (exists p2, Gqn.strip_prefix x p = Some p2
                 /\ p2 <> ""
                 /\ Gqn.strip_prefix p2 y = Some r).
Proof.
  induction p as [|a p IH]; intros x y r.
  - cbn. intros [= <-]. left. now exists x.
  - destruct x as [|b x].
    + rewrite append_nil_l. intros H. right.
      exists (String a p). repeat split; [discriminate | exact H].
    + rewrite append_cons. cbn [Gqn.strip_prefix].
      destruct (Ascii.eqb_spec a b) as [->|Hab]; [|discriminate].
      intros H. apply IH in H as [(r' & Hx & ->) | (p2 & Hx & Hp2 & Hy)].
      * left. now exists r'.
      * right. exists p2. rewrite Ascii.eqb_refl. auto.
Qed.

(** No occurrence of the pattern starts in the text before a reward
    occurrence and ends in it: the words [assert reward == ] do not
    overlap themselves. *)
Lemma match_here_before_reward (x rest : string) (d : ascii) :
  x <> "" ->
  Gqn.match_here (x +:+ Gqn.reward_prefix +:+ rest) = Some d ->
  Gqn.match_here x = Some d.
Proof.
  intros Hx. unfold Gqn.match_here.
  destruct (Gqn.strip_prefix Gqn.reward_prefix
              (x +:+ Gqn.reward_prefix +:+ rest)) as [r|] eqn:E;
    [|discriminate].
  apply strip_prefix_app in E as [(r' & -> & ->) | (p2 & Hp & Hp2 & Hr)].
  - destruct r' as [|c r']; [|now rewrite append_cons].
    rewrite append_nil_l. vm_compute. discriminate.
  - exfalso. clear d. unfold Gqn.reward_prefix in Hp.
    destruct x as [|c x]; [now apply Hx |]. clear Hx.
    cbn [Gqn.strip_prefix] in Hp.
    destruct (Ascii.eqb_spec c "a") as [->|]; [|discriminate].
    repeat match type of Hp with
           | Gqn.strip_prefix ?y (String _ _) = Some _ =>
               destruct y as [|c y]; cbn [Gqn.strip_prefix] in Hp;
               [injection Hp as <-; vm_compute in Hr; discriminate Hr |];
               match type of Hp with
               | (if Ascii.eqb c ?k then _ else _) = _ =>
                   destruct (Ascii.eqb_spec c k) as [->|]; [|discriminate]
               end
           end.
    destruct x as [|c x]; cbn [Gqn.strip_prefix] in Hp;
      [injection Hp as <-; now apply Hp2 | discriminate].
Qed.

(** Text without a reward occurrence in front of one holds no match, and
    none that runs into the occurrence. *)
Lemma findall_before_reward (x rest : string) :
  Gqn.findall_from 0 x = [] ->
  Gqn.findall_from 0 (x +:+ Gqn.reward_prefix +:+ rest)
  = Gqn.findall_from 0 (Gqn.reward_prefix +:+ rest).
Proof.
  induction x as [|c x IH]; [reflexivity |].
  cbn [Gqn.findall_from].
  destruct (Gqn.match_here (String c x)) as [d|] eqn:Hhere; [discriminate |].
  intros Hx. rewrite append_cons. cbn [Gqn.findall_from].
  rewrite <- append_cons.
  destruct (Gqn.match_here (String c x +:+ Gqn.reward_prefix +:+ rest))
    as [d|] eqn:E; [|now apply IH].
  apply match_here_before_reward in E; [congruence | discriminate].
Qed.

Lemma to_string_ends_with_reward (env : Env) (last : TimeStep.t)
    (steps : list TimeStep.t) :
  TimeStep.next_state last = None ->
  starts_visible (reward_str env (TimeStep.reward last) None) = true ->
  Forall (fun step => TimeStep.next_state step <> None) steps ->
  exists x,
    to_string env (steps ++ [last])
    = x +:+ reward_str env (TimeStep.reward last) None.
Proof.
  intros Hlast Hvisible.
  set (r := reward_str env (TimeStep.reward last) None) in *.
  induction 1 as [|step steps Hstep _ (x & E)].
  - cbn [app to_string]. rewrite Hlast. fold r.
    unfold Prompt.to_string, Prompt.make;
      cbn [Prompt.state Prompt.action Prompt.value].
    cbn [Py.truthy andb]. rewrite append_nil_l, append_empty_r.
    rewrite (lstrip_visible _ Hvisible).
    exists (state_str env (TimeStep.state last) +:+ " "
            +:+ action_str env (TimeStep.action last) +:+ " ").
    now rewrite !append_assoc.
  - cbn [app to_string]. fold (@app TimeStep.t).
    destruct (TimeStep.next_state step) as [s'|]; [|contradiction].
    rewrite andb_false_r, !append_nil_l, E.
    destruct (lstrip_keeps_visible_suffix x r Hvisible) as (x' & E' & _).
    unfold Prompt.to_string, Prompt.make;
      cbn [Prompt.state Prompt.action Prompt.value].
    rewrite E'.
    exists (state_str env (TimeStep.state step) +:+ " "
            +:+ action_str env (TimeStep.action step) +:+ " " +:+ x').
    now rewrite !append_assoc.
Qed.

(** C8 as stated does not hold for every reward: [quantify] reads
    one digit.  An episode that ends with the reward 10, rendered
    [assert reward == 10] with no other reward occurrence in the text, is
    quantified as 1. *)
Lemma reward_of_two_digits_refuted :
  ~ (forall (env : Env) (steps : list TimeStep.t) (last : TimeStep.t)
            (r : Z),
        Forall (fun step => TimeStep.next_state step <> None) steps ->
        TimeStep.next_state last = None ->
        0 <= r ->
        (TimeStep.reward last == inject_Z r)%Q ->
        reward_str env (TimeStep.reward last) None
        = Gqn.reward_prefix +:+ pretty r ->
        (forall x,
            to_string env (steps ++ [last])
            = x +:+ reward_str env (TimeStep.reward last) None ->
            Gqn.findall x = []) ->
        (Gqn.quantify (to_string env (steps ++ [last]))
         == TimeStep.reward last)%Q).
Proof.
  intros H.
  specialize (H DemoDecimal.env Demo.walk DemoDecimal.ten 10).
  assert (E : (Gqn.quantify
                 (to_string DemoDecimal.env (Demo.walk ++ [DemoDecimal.ten]))
               == 1)%Q) by (vm_compute; reflexivity).
  rewrite H in E; [vm_compute in E; discriminate E | | | | | |].
  - repeat constructor; discriminate.
  - reflexivity.
  - lia.
  - reflexivity.
  - reflexivity.
  - intros x Hx.
    change (to_string DemoDecimal.env (Demo.walk ++ [DemoDecimal.ten]))
      with ("state zero. Right. state other. Left. state zero. Right. "
            +:+ reward_str DemoDecimal.env
                  (TimeStep.reward DemoDecimal.ten) None) in Hx.
    apply append_stop_inj in Hx. subst x. reflexivity.
Qed.

(** C8, amended.  Take a trajectory whose last step is its only terminal
    step, with a reward [r] that is a one-digit number, in an environment
    that renders that reward as [Gqn.quantify] reads it
    ([assert reward == r]), and let the rendered trajectory hold no other
    reward occurrence: none in the text before that rendering, none in
    what follows the digit.  Then quantifying the rendered trajectory,
    undiscounted as [quantify] sums rewards, gives back [r]. *)
Theorem quantify_to_string_terminal
    (env : Env) (steps : list TimeStep.t) (last : TimeStep.t)
    (d : nat) (sfx : string) :
  Forall (fun step => TimeStep.next_state step <> None) steps ->
  TimeStep.next_state last = None ->
  (d < 10)%nat ->
  (TimeStep.reward last == inject_Z (Z.of_nat d))%Q ->
  reward_str env (TimeStep.reward last) None = Gqn.reward_text d +:+ sfx ->
  (forall x,
      to_string env (steps ++ [last])
      = x +:+ reward_str env (TimeStep.reward last) None ->
      Gqn.findall x = []) ->
  Gqn.findall sfx = [] ->
  (Gqn.quantify (to_string env (steps ++ [last])) == TimeStep.reward last)%Q.
Proof.
  intros Hsteps Hlast Hd Hr Hrender Hbefore Hsfx.
  assert (Htext : reward_str env (TimeStep.reward last) None
                  = Gqn.reward_prefix +:+ String (ascii_of_nat (48 + d)) sfx).
  { rewrite Hrender. unfold Gqn.reward_text.
    now rewrite append_assoc, append_cons, append_nil_l. }
  destruct (to_string_ends_with_reward env last steps Hlast) as [x E];
    [now rewrite Htext | assumption |].
  pose proof (Hbefore x E) as Hx. unfold Gqn.findall in Hx.
  unfold Gqn.quantify, Gqn.findall. rewrite E, Htext.
  rewrite (findall_before_reward _ _ Hx), (findall_reward_text _ _ Hd).
  unfold Gqn.findall in Hsfx. rewrite Hsfx.
  destruct (digit_is_digit d Hd) as [_ Hfloat].
  cbn [map]. rewrite Hfloat. unfold Py.sum. cbn [fold_left].
  rewrite Qplus_0_l. now symmetry.
Qed.

Lemma quantify_to_string_terminal_witness :
  (Gqn.quantify (to_string Demo.env (Demo.walk ++ [Demo.goal])) == 1)%Q.
Proof.
  apply (quantify_to_string_terminal Demo.env Demo.walk Demo.goal 1 "").
  - repeat constructor; discriminate.
  - reflexivity.
  - lia.
  - reflexivity.
  - reflexivity.
  - intros x Hx.
    change (to_string Demo.env (Demo.walk ++ [Demo.goal]))
      with ("state zero. Right. state other. Left. state zero. Right. "
            +:+ reward_str Demo.env (TimeStep.reward Demo.goal) None) in Hx.
    apply append_stop_inj in Hx. subst x. reflexivity.
  - reflexivity.
Defined.

(** ** The completion client *)

Lemma live_Ok (o : Oracle) (fuel : nat) (prompt : string) (w : World)
    (c : string) (w' : World) :
  GPT3.live o fuel prompt w = Ok c w' ->
  exists n,
    (n < fuel)%nat
    /\ (forall j, (j < n)%nat ->
          Py.contains_dot (Py.lstrip (create o (calls w + j) prompt)) = false)
    /\ c = Py.lstrip (create o (calls w + n) prompt)
    /\ Py.contains_dot c = true
    /\ w' = mkWorld (<[prompt := c]> (db w)) (calls w + S n) (draws w).
Proof.
  revert w; induction fuel as [|fuel IH]; intros w; cbn; [discriminate |].
  destruct (Py.contains_dot (Py.lstrip (create o (calls w) prompt))) eqn:E.
  - intros [= <- <-]. exists 0%nat. rewrite !Nat.add_0_r, Nat.add_1_r.
    repeat split; [lia | intros j Hj; lia | exact E].
  - intros H. apply IH in H as (n & Hn & Hrej & -> & Hdot & ->). cbn in *.
    exists (S n). rewrite <- !Nat.add_succ_comm in *.
    repeat split; [lia | | exact Hdot].
    intros [|j] Hj; [now rewrite Nat.add_0_r |].
    rewrite <- Nat.add_succ_comm. apply Hrej. lia.
Qed.

Lemma live_retries (o : Oracle) (prompt : string) (n : nat) :
  forall (fuel : nat) (w : World),
  (n < fuel)%nat ->
  (forall j, (j < n)%nat ->
     Py.contains_dot (Py.lstrip (create o (calls w + j) prompt)) = false) ->
  Py.contains_dot (Py.lstrip (create o (calls w + n) prompt)) = true ->
  GPT3.live o fuel prompt w
  = Ok (Py.lstrip (create o (calls w + n) prompt))
       (mkWorld (<[prompt := Py.lstrip (create o (calls w + n) prompt)]> (db w))
          (calls w + S n) (draws w)).
Proof.
  induction n as [|n IH]; intros [|fuel] w Hfuel Hrej Hdot; try lia; cbn.
  - rewrite Nat.add_0_r in *. rewrite Hdot. now rewrite Nat.add_1_r.
  - pose proof (Hrej 0%nat ltac:(lia)) as H0. rewrite Nat.add_0_r in H0.
    rewrite H0, IH; cbn.
    + now rewrite !Nat.add_succ_r.
    + lia.
    + intros j Hj. rewrite <- Nat.add_succ_r. apply Hrej. lia.
    + now rewrite <- Nat.add_succ_r.
Qed.

Lemma call_Ok (o : Oracle) (fuel : nat) (prompt : string) (w : World)
    (c : string) (w' : World) :
  GPT3.call o fuel prompt w = Ok c w' ->
  (db w !! prompt = Some c /\ w' = w)
  \/ (db w !! prompt = None
      /\ exists n,
           (n < fuel)%nat
           /\ (forall j, (j < n)%nat ->
                 Py.contains_dot (Py.lstrip (create o (calls w + j) prompt))
                 = false)
           /\ c = Py.lstrip (create o (calls w + n) prompt)
           /\ Py.contains_dot c = true
           /\ w' = mkWorld (<[prompt := c]> (db w)) (calls w + S n) (draws w)).
Proof.
  unfold GPT3.call. destruct (db w !! prompt) as [c0|] eqn:E.
  - intros [= <- <-]. now left.
  - intros H. right. split; [reflexivity |]. now apply live_Ok in H.
Qed.

Lemma all_dotted_insert (d : gmap string string) (prompt c : string) :
  all_dotted d -> Py.contains_dot c = true -> all_dotted (<[prompt := c]> d).
Proof.
  intros Hd Hc p c'. rewrite lookup_insert. case_decide.
  - now intros [= <-].
  - apply Hd.
Qed.

(** C10.  When every completion already in the cache holds a full stop (an
    empty cache, or one that only this client has written), any completion
    [GPT3.call] returns holds one, it is then the cached entry of its
    prompt, and the cache still holds only such completions.  On a miss the
    live answers are taken in turn: those without a full stop are neither
    returned nor stored, each costs one more live call, and the first one
    with a full stop is stored and returned. *)
Theorem completions_hold_a_full_stop (o : Oracle) (prompt : string) (w : World) :
  all_dotted (db w) ->
  (forall fuel c w',
      GPT3.call o fuel prompt w = Ok c w' ->
      Py.contains_dot c = true /\ all_dotted (db w') /\ db w' !! prompt = Some c)
  /\ (forall n fuel,
        db w !! prompt = None ->
        (forall j, (j < n)%nat ->
           Py.contains_dot (Py.lstrip (create o (calls w + j) prompt)) = false) ->
        Py.contains_dot (Py.lstrip (create o (calls w + n) prompt)) = true ->
        (n < fuel)%nat ->
        GPT3.call o fuel prompt w
        = Ok (Py.lstrip (create o (calls w + n) prompt))
             (mkWorld
                (<[prompt := Py.lstrip (create o (calls w + n) prompt)]> (db w))
                (calls w + S n) (draws w))).
Proof.
  intros Hdb. split.
  - intros fuel c w' [[Hhit ->] | [Hmiss (n & _ & _ & _ & Hdot & ->)]]%call_Ok.
    + split; [exact (Hdb _ _ Hhit) | split; assumption].
    + cbn. split; [exact Hdot |].
      split; [now apply all_dotted_insert | apply lookup_insert_eq].
  - intros n fuel Hmiss Hrej Hdot Hfuel. unfold GPT3.call. rewrite Hmiss.
    now apply live_retries.
Qed.

Lemma completions_hold_a_full_stop_witness :
  GPT3.call DemoClient.oracle 2 "p" DemoClient.start
  = Ok "Left. x." (mkWorld (<["p" := "Left. x."]> ∅) 2 0).
Proof.
  refine (proj2 (completions_hold_a_full_stop DemoClient.oracle "p"
                   DemoClient.start _) 1%nat 2%nat _ _ _ _).
  - intros p c H. cbn in H. rewrite lookup_empty in H. discriminate.
  - reflexivity.
  - intros [|j] Hj; [reflexivity | lia].
  - reflexivity.
  - lia.
Defined.

(** C3 as stated does not hold when the service first answers
    without a full stop: two invocations for one prompt then make two live
    calls. *)
Lemma at_most_one_live_call_refuted :
  ~ (forall (o : Oracle) (fuel : nat) (prompt : string) (w : World)
            (c1 c2 : string) (w1 w2 : World),
        GPT3.call o fuel prompt w = Ok c1 w1 ->
        GPT3.call o fuel prompt w1 = Ok c2 w2 ->
        c1 = c2 /\ (calls w2 <= calls w + 1)%nat).
Proof.
  intros H.
  destruct (H DemoClient.oracle 2%nat "p" DemoClient.start
              "Left. x." "Left. x."
              (mkWorld (<["p" := "Left. x."]> ∅) 2 0)
              (mkWorld (<["p" := "Left. x."]> ∅) 2 0)) as [_ Hcalls].
  - reflexivity.
  - unfold GPT3.call. cbn [db]. now rewrite lookup_insert_eq.
  - cbn in Hcalls. lia.
Qed.

(** C3, amended.  Two invocations for one prompt return the identical
    completion, and the second makes no live call: once an invocation has
    returned [c], the cache maps exactly that prompt to [c], written before
    the return, and any further invocation returns [c] and leaves the world
    as it is.  The first invocation makes no live call on a hit and at least
    one on a miss, exactly one when the first live answer holds a full
    stop. *)
Theorem second_call_is_a_cache_hit
    (o : Oracle) (fuel : nat) (prompt : string) (w : World)
    (c : string) (w' : World) :
  GPT3.call o fuel prompt w = Ok c w' ->
  db w' !! prompt = Some c
  /\ (forall fuel', GPT3.call o fuel' prompt w' = Ok c w')
  /\ (is_Some (db w !! prompt) -> w' = w)
  /\ (db w !! prompt = None ->
      db w' = <[prompt := c]> (db w) /\ (calls w < calls w')%nat)
  /\ (Py.contains_dot (Py.lstrip (create o (calls w) prompt)) = true ->
      (calls w' <= calls w + 1)%nat).
Proof.
  intros [[Hhit ->] | [Hmiss (n & _ & Hrej & Hc & Hdot & ->)]]%call_Ok.
  - repeat split; try lia; trivial.
    + intros fuel'. unfold GPT3.call. now rewrite Hhit.
    + rewrite Hhit in *. discriminate.
    + rewrite Hhit in *. discriminate.
  - cbn [db calls]. assert (Hstored : <[prompt := c]> (db w) !! prompt = Some c)
      by apply lookup_insert_eq.
    repeat split; try lia; trivial.
    + intros fuel'. unfold GPT3.call. cbn [db]. now rewrite Hstored.
    + intros [c0 Hc0]. rewrite Hmiss in Hc0. discriminate.
    + intros Hfirst. destruct n as [|n]; [lia |].
      specialize (Hrej 0%nat ltac:(lia)). rewrite Nat.add_0_r in Hrej.
      rewrite Hrej in Hfirst. discriminate.
Qed.

Lemma second_call_is_a_cache_hit_witness :
  GPT3.call DemoClient.oracle 0 "p" (mkWorld (<["p" := "Left. x."]> ∅) 2 0)
  = Ok "Left. x." (mkWorld (<["p" := "Left. x."]> ∅) 2 0).
Proof.
  refine (proj1 (proj2 (second_call_is_a_cache_hit DemoClient.oracle 2 "p"
                          DemoClient.start "Left. x."
                          (mkWorld (<["p" := "Left. x."]> ∅) 2 0) _)) 0%nat).
  reflexivity.
Defined.

(** ** The policy agent *)

Lemma index_Some (x : string) (xs : list string) (i : nat) :
  Py.index x xs = Some i -> (i < length xs)%nat /\ nth_error xs i = Some x.
Proof.
  revert i; induction xs as [|y ys IH]; intros i; cbn; [discriminate |].
  destruct (String.eqb_spec y x) as [->|_].
  - intros [= <-]. split; [lia | reflexivity].
  - destruct (Py.index x ys) as [j|]; cbn; [|discriminate].
    intros [= <-]. destruct (IH j eq_refl). split; [lia | assumption].
Qed.

Lemma index_None (x : string) (xs : list string) :
  ~ In x xs -> Py.index x xs = None.
Proof.
  induction xs as [|y ys IH]; cbn; [reflexivity |].
  intros Hnot. destruct (String.eqb_spec y x) as [->|_]; [tauto |].
  rewrite IH; [reflexivity | tauto].
Qed.

(** What one round does, read off the three calls it makes. *)
Lemma attempt_steps (o : Oracle) (retries : nat) (ACTIONS : list string)
    (self : Model.t) (state : string) (w w0 w1 : World)
    (trajectories : list string) (c maybe_action : string)
    (rest : list string) :
  Model.sample_best o self w = Ok trajectories w0 ->
  GPT3.call o retries (Py.join newline (trajectories ++ [state])) w0 = Ok c w1 ->
  Py.split_dot (Py.lstrip c) = maybe_action :: rest ->
  Pi.attempt o retries ACTIONS self state w
  = Ok (Py.index (maybe_action +:+ ".") ACTIONS) w1.
Proof.
  intros Hs Hc Hsplit. unfold Pi.attempt, bind. rewrite Hs, Hc, Hsplit.
  reflexivity.
Qed.

Lemma attempt_Some (o : Oracle) (retries : nat) (ACTIONS : list string)
    (self : Model.t) (state : string) (w w1 : World) (i : nat) :
  Pi.attempt o retries ACTIONS self state w = Ok (Some i) w1 ->
  (i < length ACTIONS)%nat
  /\ exists maybe_action, nth_error ACTIONS i = Some (maybe_action +:+ ".").
Proof.
  unfold Pi.attempt, bind.
  destruct (Model.sample_best o self w) as [ts w0| |]; try discriminate.
  destruct (GPT3.call o retries _ w0) as [c w2| |]; try discriminate.
  destruct (Py.split_dot (Py.lstrip c)) as [|seg rest]; [discriminate |].
  unfold ret. intros [= Hi <-]. apply index_Some in Hi as [Hlt Hnth].
  split; [exact Hlt | now exists seg].
Qed.

Lemma retry_Ok (o : Oracle) (retries : nat) (ACTIONS : list string)
    (self : Model.t) (state : string) (fuel : nat) :
  forall (w w' : World) (a : Z),
  Pi.retry o retries ACTIONS self fuel state w = Ok a w' ->
  exists (i : nat) (w0 : World),
    a = Z.of_nat i
    /\ Pi.attempt o retries ACTIONS self state w0 = Ok (Some i) w'.
Proof.
  induction fuel as [|fuel IH]; intros w w' a; cbn; [discriminate |].
  unfold bind at 1.
  destruct (Pi.attempt o retries ACTIONS self state w) as [[i|] w1| |] eqn:E;
    try discriminate.
  - unfold ret. intros [= <- <-]. now exists i, w.
  - apply IH.
Qed.

Lemma sample_best_draws (o : Oracle) (self : Model.t) (w w0 : World)
    (trajectories : list string) :
  Model.sample_best o self w = Ok trajectories w0 ->
  w0 = mkWorld (db w) (calls w) (S (draws w)).
Proof. unfold Model.sample_best, bind, rng_shuffle, ret. now intros [= _ <-]. Qed.

(** C1.  Whenever [Pi._act] returns, whatever the completions were, the
    value is an index into [ACTIONS], the entry there being the first
    segment of a completion with its full stop put back.  A completion whose
    first segment is no entry of [ACTIONS] is not returned: the round ends
    without an action and the agent goes on from the world that round left,
    where the generator has moved on, so the next prompt is sampled anew. *)
Theorem Pi_act_returns_an_action
    (o : Oracle) (retries : nat) (ACTIONS : list string) (self : Model.t) :
  (forall fuel state w a w',
      Pi._act o retries ACTIONS self fuel state w = Ok a w' ->
      0 <= a < Z.of_nat (length ACTIONS)
      /\ exists maybe_action,
           nth_error ACTIONS (Z.to_nat a) = Some (maybe_action +:+ "."))
  /\ (forall fuel state w w0 w1 trajectories c maybe_action rest,
        Model.sample_best o self w = Ok trajectories w0 ->
        GPT3.call o retries
          (Py.join newline
             (trajectories ++ [state_str (Model.env self) state])) w0
        = Ok c w1 ->
        Py.split_dot (Py.lstrip c) = maybe_action :: rest ->
        ~ In (maybe_action +:+ ".") ACTIONS ->
        Pi._act o retries ACTIONS self (S fuel) state w
        = Pi._act o retries ACTIONS self fuel state w1
        /\ draws w1 = S (draws w)).
Proof.
  split.
  - intros fuel state w a w' (i & w0 & -> & Hi)%retry_Ok.
    apply attempt_Some in Hi as [Hlt Hnth]. rewrite Nat2Z.id.
    split; [lia | exact Hnth].
  - intros fuel state w w0 w1 ts c seg rest Hs Hc Hsplit Hnot.
    split.
    + unfold Pi._act. cbn [Pi.retry]. unfold bind at 1.
      rewrite (attempt_steps _ _ ACTIONS _ _ _ _ _ _ _ _ _ Hs Hc Hsplit).
      now rewrite (index_None _ _ Hnot).
    + apply sample_best_draws in Hs. subst w0.
      apply call_Ok in Hc as [[_ ->] | [_ (n & _ & _ & _ & _ & ->)]];
        reflexivity.
Qed.

Lemma Pi_act_returns_an_action_witness :
  (0 <= 0 < Z.of_nat (length DemoAgents.ACTIONS)
   /\ exists maybe_action,
        nth_error DemoAgents.ACTIONS (Z.to_nat 0) = Some (maybe_action +:+ "."))
  /\ (Pi._act DemoAgents.oracle 1 DemoAgents.ACTIONS DemoAgents.model 1 0
        DemoAgents.start
      = Pi._act DemoAgents.oracle 1 DemoAgents.ACTIONS DemoAgents.model 0 0
          (mkWorld (<["state zero." := "Jump. x."]> ∅) 1 1)
      /\ draws (mkWorld (<["state zero." := "Jump. x."]> ∅) 1 1)
         = S (draws DemoAgents.start)).
Proof.
  destruct (Pi_act_returns_an_action DemoAgents.oracle 1 DemoAgents.ACTIONS
              DemoAgents.model) as [Hreturn Hretry].
  split.
  - apply (Hreturn 1%nat 0 DemoAgents.later 0
             (mkWorld (<["state zero." := "Left. x."]> ∅) 2 1)).
    reflexivity.
  - apply (Hretry 0%nat 0 DemoAgents.start (mkWorld ∅ 0 1)
             (mkWorld (<["state zero." := "Jump. x."]> ∅) 1 1)
             [] "Jump. x." "Jump" [" x"; ""]).
    + reflexivity.
    + reflexivity.
    + reflexivity.
    + cbn. intros [H | [H | []]]; discriminate.
Defined.

(** ** The value-estimation agent: the rollout *)

Lemma contains_dot_lstrip (s : string) :
  Py.contains_dot s = true -> Py.contains_dot (Py.lstrip s) = true.
Proof.
  induction s as [|c s IH]; cbn; [discriminate |].
  destruct (Py.is_space c) eqn:Hc; cbn.
  - destruct (Ascii.eqb_spec c Py.dot) as [->|_]; [discriminate | exact IH].
  - trivial.
Qed.

Lemma split_dot_nonempty (s : string) : Py.split_dot s <> [].
Proof.
  destruct s as [|c s]; cbn; [discriminate |].
  destruct (Ascii.eqb c Py.dot); [discriminate |].
  destruct (Py.split_dot s); discriminate.
Qed.

Lemma split_dot_two (s : string) :
  Py.contains_dot s = true ->
  exists a b rest, Py.split_dot s = a :: b :: rest.
Proof.
  induction s as [|c s IH]; cbn; [discriminate |].
  destruct (Ascii.eqb c Py.dot).
  - intros _. pose proof (split_dot_nonempty s) as Hne.
    destruct (Py.split_dot s) as [|b rest]; [contradiction |].
    now exists "", b, rest.
  - intros (a & b & rest & ->)%IH. now exists (String c a), b, rest.
Qed.

Lemma live_total (o : Oracle) (prompt : string) (fuel : nat) :
  forall w,
  (exists n, (n < fuel)%nat
             /\ Py.contains_dot (Py.lstrip (create o (calls w + n) prompt)) = true) ->
  exists c w', GPT3.live o fuel prompt w = Ok c w'
               /\ Py.contains_dot c = true
               /\ db w' = <[prompt := c]> (db w)
               /\ draws w' = draws w.
Proof.
  induction fuel as [|fuel IH]; intros w (n & Hn & Hdot); [lia |]. cbn.
  destruct (Py.contains_dot (Py.lstrip (create o (calls w) prompt))) eqn:E.
  - eauto 10.
  - destruct n as [|n]; [rewrite Nat.add_0_r in Hdot; congruence |].
    destruct (IH (mkWorld (db w) (S (calls w)) (draws w))) as (c & w' & H);
      [|now exists c, w'].
    exists n. cbn. split; [lia |]. now rewrite <- Nat.add_succ_r.
Qed.

Lemma call_total (o : Oracle) (retries : nat) (prompt : string) (w : World) :
  service_answers o retries ->
  all_dotted (db w) ->
  exists c w', GPT3.call o retries prompt w = Ok c w'
               /\ Py.contains_dot c = true
               /\ all_dotted (db w').
Proof.
  intros Hsvc Hdb. unfold GPT3.call.
  destruct (db w !! prompt) as [c|] eqn:E.
  - exists c, w. split; [reflexivity | split; [exact (Hdb _ _ E) | exact Hdb]].
  - destruct (live_total o prompt retries w (Hsvc (calls w) prompt))
      as (c & w' & Hlive & Hdot & Hdb' & _).
    exists c, w'. split; [exact Hlive | split; [exact Hdot |]].
    rewrite Hdb'. now apply all_dotted_insert.
Qed.

Lemma open_chain_snoc (tokens pre : list string) (state action : string) :
  open_chain tokens pre = true ->
  Py.mem state tokens = false ->
  open_chain tokens (pre ++ [state; action]) = true.
Proof.
  revert pre. fix IH 1. intros [|s [|a pre]]; cbn.
  - intros _ ->. reflexivity.
  - discriminate.
  - intros [Hs Hpre]%andb_true_iff Hstate. rewrite Hs. cbn.
    now apply IH.
Qed.

Lemma well_formed_snoc (tokens pre : list string) (token : string) :
  open_chain tokens pre = true ->
  well_formed_value tokens (pre ++ [token]) = Py.mem token tokens.
Proof.
  revert pre. fix IH 1. intros [|s [|a pre]]; cbn.
  - reflexivity.
  - discriminate.
  - intros [Hs Hpre]%andb_true_iff. rewrite Hs. cbn.
    now apply IH.
Qed.

Lemma rewards_get_mem (REWARDS : list (Q * string)) (key : Q) (tok : string)
    (w : World) :
  rewards_get REWARDS key w = Ok tok w ->
  Py.mem tok (rewards_values REWARDS) = true.
Proof.
  unfold rewards_get.
  destruct (List.find _ REWARDS) as [item|] eqn:E; [|discriminate].
  unfold ret. intros [= <-]. apply find_some in E as [Hin _].
  unfold Py.mem, rewards_values. apply existsb_exists.
  exists (snd item). split; [now apply in_map | apply String.eqb_refl].
Qed.

Lemma sample_best_Ok (o : Oracle) (self : Model.t) (w : World) :
  exists trajectories,
    Model.sample_best o self w
    = Ok trajectories (mkWorld (db w) (calls w) (S (draws w))).
Proof. unfold Model.sample_best, bind, rng_shuffle, ret. eauto. Qed.

Lemma sample_Ok (o : Oracle) (self : Model.t) (w : World) :
  exists trajectories,
    Model.sample o self w
    = Ok trajectories (mkWorld (db w) (calls w) (S (draws w))).
Proof. unfold Model.sample, bind, rng_shuffle, ret. eauto. Qed.

Section Rollout.

Variable o : Oracle.
Variable retries : nat.
Variable REWARDS : list (Q * string).
Variable self : QAgent.agent.
Variable tok : string.

Hypothesis answers : service_answers o retries.
Hypothesis zero_reward : forall w, rewards_get REWARDS 0%Q w = Ok tok w.

Let tokens := rewards_values REWARDS.

Lemma rollout_total (fuel : nat) :
  forall (t : Z) (state_or_reward : string) (pre : list string) (w : World),
  all_dotted (db w) ->
  open_chain tokens pre = true ->
  Z.of_nat fuel = QAgent.max_steps self - t + 1 ->
  (fuel = 0%nat -> state_or_reward = tok) ->
  exists final w',
    QAgent.rollout o retries REWARDS self fuel state_or_reward t
      (pre ++ [state_or_reward]) w = Ok final w'
    /\ well_formed_value tokens final = true
    /\ (length final <= length pre + 1 + 2 * fuel)%nat
    /\ (length final = (length pre + 1 + 2 * fuel)%nat -> List.last final "" = tok)
    /\ all_dotted (db w').
Proof.
  assert (Htok : Py.mem tok tokens = true)
    by exact (rewards_get_mem _ _ _ _ (zero_reward (mkWorld ∅ 0 0))).
  induction fuel as [|fuel IH]; intros t sor pre w Hdb Hpre Hfuel Hforced.
  - rewrite (Hforced eq_refl). cbn [QAgent.rollout]. fold tokens. rewrite Htok.
    exists (pre ++ [tok])%list, w. unfold ret.
    split; [reflexivity |]. rewrite well_formed_snoc by assumption.
    rewrite length_app, List.last_last. cbn. repeat split; trivial; lia.
  - cbn [QAgent.rollout]. fold tokens.
    destruct (Py.mem sor tokens) eqn:Hsor.
    + exists (pre ++ [sor])%list, w. unfold ret.
      split; [reflexivity |]. rewrite well_formed_snoc by assumption.
      rewrite length_app. cbn. repeat split; trivial; lia.
    + destruct (sample_best_Ok o (QAgent.base self) w) as (ts & Hts).
      unfold bind at 1. rewrite Hts.
      set (w0 := mkWorld (db w) (calls w) (S (draws w))).
      destruct (call_total o retries (Py.join newline (ts ++ [sor])) w0 answers)
        as (c & w1 & Hc & Hdot & Hdb1); [exact Hdb |].
      unfold bind at 1. rewrite Hc.
      destruct (split_dot_two _ (contains_dot_lstrip _ Hdot))
        as (a & b & rest & ->).
      assert (Hstep : exists sor',
                 (if t =? QAgent.max_steps self then rewards_get REWARDS 0%Q
                  else ret (reformat b)) w1 = Ok sor' w1
                 /\ (fuel = 0%nat -> sor' = tok)).
      { destruct (Z.eqb_spec t (QAgent.max_steps self)) as [Ht|Ht].
        - exists tok. split; [apply zero_reward | trivial].
        - exists (reformat b). split; [reflexivity | intros ->; lia]. }
      destruct Hstep as (sor' & Hsor' & Hforced').
      unfold bind at 1. rewrite Hsor'.
      replace ((pre ++ [sor]) ++ [reformat a; sor'])%list
        with ((pre ++ [sor; reformat a]) ++ [sor'])%list
        by now rewrite <- !app_assoc.
      destruct (IH (t + 1) sor' (pre ++ [sor; reformat a])%list w1)
        as (final & w' & Hrun & Hwf & Hlen & Hlast & Hdb');
        [assumption | now apply open_chain_snoc | lia | assumption |].
      exists final, w'. rewrite length_app in Hlen, Hlast. cbn in Hlen, Hlast.
      split; [exact Hrun |]. split; [exact Hwf |].
      split; [lia |]. split; [intros H; apply Hlast; lia | exact Hdb'].
Qed.

End Rollout.

Lemma value_completions_total
    (o : Oracle) (retries : nat) (REWARDS : list (Q * string))
    (self : QAgent.agent) (tok : string) (state action : Z) (w : World) :
  service_answers o retries ->
  (forall w0, rewards_get REWARDS 0%Q w0 = Ok tok w0) ->
  all_dotted (db w) ->
  1 <= QAgent.max_steps self ->
  exists completions w',
    QAgent.value_completions o retries REWARDS self
      (Z.to_nat (QAgent.max_steps self)) state (Some action) w
    = Ok completions w'
    /\ well_formed_value (rewards_values REWARDS) completions = true
    /\ (length completions <= 1 + 2 * Z.to_nat (QAgent.max_steps self))%nat
    /\ (length completions = (1 + 2 * Z.to_nat (QAgent.max_steps self))%nat ->
        List.last completions "" = tok)
    /\ all_dotted (db w').
Proof.
  intros Hsvc Hzero Hdb Hmax. unfold QAgent.value_completions.
  destruct (sample_Ok o (QAgent.base self) w) as (ts & Hts).
  unfold bind at 1. rewrite Hts.
  set (w0 := mkWorld (db w) (calls w) (S (draws w))).
  match goal with
  | |- context [GPT3.call o retries ?p] =>
      destruct (call_total o retries p w0 Hsvc) as (c & w1 & Hc & Hdot & Hdb1);
        [exact Hdb |]
  end.
  unfold bind at 1. rewrite Hc.
  destruct (split_dot_two _ (contains_dot_lstrip _ Hdot))
    as (a & b & rest & ->).
  destruct (rollout_total o retries REWARDS self tok Hsvc Hzero
              (Z.to_nat (QAgent.max_steps self)) 1 (reformat a) [] w1)
    as (final & w' & Hrun & Hwf & Hlen & Hlast & Hdb');
    [assumption | reflexivity | lia | lia |].
  exists final, w'. cbn [app length] in *. repeat split; assumption.
Qed.



Lemma lstrip_lstrip (s : string) : Py.lstrip (Py.lstrip s) = Py.lstrip s.
Proof.
  induction s as [|c s IH]; cbn; [reflexivity |].
  destruct (Py.is_space c) eqn:E; [exact IH |]. cbn. now rewrite E.
Qed.

Lemma live_never_raises (o : Oracle) (prompt : string) (e : Exn) (fuel : nat) :
  forall w, GPT3.live o fuel prompt w <> Raises e.
Proof.
  induction fuel as [|fuel IH]; intros w; cbn; [discriminate |].
  destruct (Py.contains_dot _); [discriminate | apply IH].
Qed.

Lemma call_never_raises (o : Oracle) (retries : nat) (prompt : string)
    (e : Exn) (w : World) :
  GPT3.call o retries prompt w <> Raises e.
Proof.
  unfold GPT3.call. destruct (db w !! prompt); [discriminate |].
  apply live_never_raises.
Qed.

Lemma every_completion_call (o : Oracle) (P : string -> Prop)
    (retries : nat) (prompt : string) (w w' : World) (c : string) :
  (forall completion, P completion -> P (Py.lstrip completion)) ->
  every_completion o P w ->
  GPT3.call o retries prompt w = Ok c w' ->
  P c /\ every_completion o P w'.
Proof.
  intros Hstrip [Hdb Hlive] Hcall.
  apply call_Ok in Hcall
    as [[Hhit ->] | (_ & n & _ & _ & -> & _ & ->)].
  - split; [eapply Hdb; exact Hhit | now split].
  - assert (Hc : P (Py.lstrip (create o (calls w + n) prompt)))
      by (apply Hstrip, Hlive; lia).
    split; [exact Hc |]. split; cbn.
    + intros p c. destruct (decide (p = prompt)) as [->|Hne].
      * rewrite lookup_insert_eq. now intros [= <-].
      * rewrite lookup_insert_ne by congruence. apply Hdb.
    + intros k p Hk. apply Hlive. lia.
Qed.

Lemma every_completion_draw (o : Oracle) (P : string -> Prop) (w : World)
    (draws' : nat) :
  every_completion o P w ->
  every_completion o P (mkWorld (db w) (calls w) draws').
Proof. intros [Hdb Hlive]. now split. Qed.

Lemma names_no_reward_lstrip (REWARDS : list (Q * string))
    (completion : string) :
  names_no_reward REWARDS completion ->
  names_no_reward REWARDS (Py.lstrip completion).
Proof. unfold names_no_reward. now rewrite lstrip_lstrip. Qed.

Lemma rollout_without_a_bound (o : Oracle) (retries : nat)
    (REWARDS : list (Q * string)) (self : QAgent.agent) (fuel : nat) :
  forall (state_or_reward : string) (t : Z) (completions : list string)
         (w : World) (final : list string) (w' : World),
  every_completion o (names_no_reward REWARDS) w ->
  QAgent.max_steps self < t ->
  Py.mem state_or_reward (rewards_values REWARDS) = false ->
  QAgent.rollout o retries REWARDS self fuel state_or_reward t completions w
  <> Ok final w'.
Proof.
  induction fuel as [|fuel IH];
    intros s t completions w final w' Hw Ht Hs; cbn [QAgent.rollout];
    rewrite Hs; [discriminate |].
  destruct (sample_best_Ok o (QAgent.base self) w) as [trajectories Hsample].
  unfold bind at 1. rewrite Hsample.
  apply (every_completion_draw _ _ _ (S (draws w))) in Hw.
  unfold bind at 1.
  destruct (GPT3.call o retries _ _) as [c w1|e|] eqn:Hcall;
    [| discriminate | discriminate].
  eapply every_completion_call in Hcall as [Hc Hw1];
    [| apply names_no_reward_lstrip | exact Hw].
  destruct (Py.split_dot (Py.lstrip c)) as [|action [|next rest]] eqn:Hsplit;
    [discriminate | discriminate |].
  destruct (Hc _ _ _ Hsplit) as [_ Hnext].
  destruct (Z.eqb_spec t (QAgent.max_steps self)) as [Heq|_]; [lia |].
  unfold bind, ret. apply IH; [exact Hw1 | lia | exact Hnext].
Qed.


(** ** The value-estimation agent: the choice *)

Lemma Qltb_true (a b : Q) : Qltb a b = true <-> (a < b)%Q.
Proof.
  unfold Qltb. rewrite negb_true_iff, <- not_true_iff_false, Qle_bool_iff.
  split; [apply Qnot_le_lt | apply Qlt_not_le].
Qed.

Lemma key_gt_true (a b : Q * Q) :
  key_gt_holds a b <-> QAgent.key_gt a b = true.
Proof.
  unfold key_gt_holds, QAgent.key_gt.
  destruct (Qeq_bool (fst a) (fst b)) eqn:E.
  - apply Qeq_bool_iff in E. rewrite Qltb_true. split.
    + intros [H | [_ H]]; [Lqa.lra | exact H].
    + intros H. right. split; assumption.
  - apply Qeq_bool_neq in E. rewrite Qltb_true. split.
    + intros [H | [H _]]; [exact H | contradiction].
    + intros H. now left.
Qed.

Lemma key_le (a b : Q * Q) :
  QAgent.key_gt a b = false ->
  (fst a <= fst b)%Q /\ ((fst a == fst b)%Q -> (snd a <= snd b)%Q).
Proof.
  intros H. apply not_true_iff_false in H. rewrite <- key_gt_true in H.
  unfold key_gt_holds in H. split.
  - apply Qnot_lt_le. tauto.
  - intros E. apply Qnot_lt_le. tauto.
Qed.

Lemma key_le_trans (a b c : Q * Q) :
  QAgent.key_gt a b = false -> QAgent.key_gt b c = false ->
  QAgent.key_gt a c = false.
Proof.
  intros [H1 H1']%key_le [H2 H2']%key_le.
  apply not_true_iff_false. rewrite <- key_gt_true. unfold key_gt_holds.
  intros [H | [E H]].
  - Lqa.lra.
  - assert (fst a == fst b)%Q by Lqa.lra. assert (fst b == fst c)%Q by Lqa.lra.
    specialize (H1' ltac:(assumption)). specialize (H2' ltac:(assumption)).
    Lqa.lra.
Qed.

Lemma key_lt_le (a b : Q * Q) :
  QAgent.key_gt a b = true -> QAgent.key_gt b a = false.
Proof.
  intros H%key_gt_true. apply not_true_iff_false. rewrite <- key_gt_true.
  unfold key_gt_holds in *. intros H'.
  destruct H as [H | [E H]], H' as [H' | [E' H']]; Lqa.lra.
Qed.

Lemma max_by_key_spec {A} (rest : list (A * (Q * Q))) :
  forall best,
  let m := QAgent.max_by_key best rest in
  In m (best :: rest)
  /\ forall item, In item (best :: rest) ->
                  QAgent.key_gt (snd item) (snd m) = false.
Proof.
  unfold QAgent.max_by_key.
  induction rest as [|y rest IH]; intros best; cbn [fold_left].
  - split; [now left |]. intros item [<- | []].
    apply not_true_iff_false. intros H. pose proof (key_lt_le _ _ H). congruence.
  - destruct (IH (if QAgent.key_gt (snd y) (snd best) then y else best))
      as [Hin Hmax].
    split.
    + destruct Hin as [Hin | Hin]; [|now right; right].
      destruct (QAgent.key_gt (snd y) (snd best)); rewrite <- Hin; cbn; auto.
    + intros item [<- | [<- | Hitem]].
      * destruct (QAgent.key_gt (snd y) (snd best)) eqn:E.
        -- eapply key_le_trans; [exact (key_lt_le _ _ E) |].
           apply Hmax. now left.
        -- apply Hmax. now left.
      * destruct (QAgent.key_gt (snd y) (snd best)) eqn:E.
        -- apply Hmax. now left.
        -- eapply key_le_trans; [exact E |]. apply Hmax. now left.
      * apply Hmax. now right.
Qed.

Lemma for_each_keyed (o : Oracle) (self : QAgent.agent)
    (xs : list (Z * string)) :
  forall w ys w',
  for_each (QAgent.keyed o self) xs w = Ok ys w' ->
  map fst ys = xs
  /\ (forall j y,
        nth_error ys j = Some y ->
        snd y = (quantify (Model.env (QAgent.base self)) (snd (fst y))
                   (Some (9 # 10)%Q),
                 random o (draws w + j)))
  /\ w' = mkWorld (db w) (calls w) (draws w + length xs).
Proof.
  induction xs as [|x xs IH]; intros w ys w'; cbn [for_each].
  - unfold ret. intros [= <- <-]. split; [reflexivity |].
    split; [intros [|j] y; discriminate |].
    destruct w. cbn. now rewrite Nat.add_0_r.
  - unfold bind at 1. unfold QAgent.keyed at 1, bind, rng_random, ret.
    destruct (for_each (QAgent.keyed o self) xs _) as [ys' w''| |] eqn:E;
      try discriminate.
    intros [= <- <-]. apply IH in E as (Hmap & Hnth & ->). cbn.
    split; [now rewrite Hmap |]. split.
    + intros [|j] y; cbn.
      * intros [= <-]. cbn. now rewrite Nat.add_0_r.
      * intros Hy. rewrite (Hnth _ _ Hy). cbn. do 2 f_equal. lia.
    + f_equal. lia.
Qed.

Section Act_returns.

Variable o : Oracle.
Variable retries : nat.
Variable REWARDS : list (Q * string).
Variable self : QAgent.agent.
Variable tok : string.
Variable state : Z.

Hypothesis answers : service_answers o retries.
Hypothesis zero_reward : forall w, rewards_get REWARDS 0%Q w = Ok tok w.
Hypothesis depth : 1 <= QAgent.max_steps self.

Let fuel := Z.to_nat (QAgent.max_steps self).

Lemma value_total (a : Z) (w : World) :
  all_dotted (db w) ->
  exists v w',
    QAgent.value o retries REWARDS self fuel state (Some a) w = Ok v w'
    /\ all_dotted (db w').
Proof.
  intros Hdb.
  destruct (value_completions_total o retries REWARDS self tok state a w
              answers zero_reward Hdb depth)
    as (completions & w1 & Hrun & _ & _ & _ & Hdb1).
  exists (Py.join " " completions), w1.
  unfold QAgent.value, bind. fold fuel in Hrun. now rewrite Hrun.
Qed.

Lemma values_total (actions : list Z) :
  forall w,
  all_dotted (db w) ->
  exists values w',
    for_each (fun a => QAgent.value o retries REWARDS self fuel state (Some a))
      actions w = Ok values w'
    /\ length values = length actions
    /\ all_dotted (db w').
Proof.
  induction actions as [|a actions IH]; intros w Hdb; cbn [for_each].
  - exists [], w. now repeat split.
  - destruct (value_total a w Hdb) as (v & w1 & Hv & Hdb1).
    destruct (IH w1 Hdb1) as (values & w' & Hrest & Hlen & Hdb').
    exists (v :: values), w'.
    unfold bind at 1. rewrite Hv. cbv beta iota.
    unfold bind. rewrite Hrest. unfold ret.
    cbn [length]. now rewrite Hlen.
Qed.

Lemma keyed_total (xs : list (Z * string)) :
  forall w,
  exists ys w', for_each (QAgent.keyed o self) xs w = Ok ys w'
                /\ length ys = length xs.
Proof.
  induction xs as [|x xs IH]; intros w; cbn [for_each].
  - now exists [], w.
  - unfold bind at 1. unfold QAgent.keyed at 1, bind, rng_random, ret.
    destruct (IH (mkWorld (db w) (calls w) (S (draws w))))
      as (ys & w' & -> & Hlen).
    eexists _, w'. split; [reflexivity |]. cbn [length]. now rewrite Hlen.
Qed.

Lemma act_total (w : World) :
  (forall k (A : Type) (xs : list A), Permutation (shuffle o k A xs) xs) ->
  all_dotted (db w) ->
  1 <= action_space_n (Model.env (QAgent.base self)) ->
  exists a w', QAgent._act o retries REWARDS self fuel state w = Ok a w'.
Proof.
  intros Hperm Hdb Hn. unfold QAgent._act.
  destruct (values_total
              (QAgent.range (action_space_n (Model.env (QAgent.base self))))
              w Hdb) as (values & w1 & Hvalues & Hlen & _).
  unfold bind at 1. unfold QAgent.get_values. rewrite Hvalues. cbv beta iota.
  unfold bind at 1, rng_shuffle at 1.
  set (candidates := combine _ values).
  set (shuffled := shuffle o (draws w1) _ candidates).
  destruct (keyed_total shuffled (mkWorld (db w1) (calls w1) (S (draws w1))))
    as (ys & w' & Hkeys & Hys).
  unfold bind. rewrite Hkeys.
  assert (Hsome : (0 < length ys)%nat).
  { rewrite Hys. unfold shuffled.
    rewrite (Permutation_length (Hperm _ _ candidates)).
    unfold candidates. rewrite length_combine, Hlen, Nat.min_id.
    unfold QAgent.range. rewrite length_map, length_seq. lia. }
  destruct ys as [|first rest]; [cbn in Hsome; lia |].
  unfold ret. eauto.
Qed.

End Act_returns.

(** C5 as stated does not hold: the agent's configured [gamma] (here
    one half) is not what [_act] discounts with.  The agent returns the
    action 0, whose value string is worth 1/8 at that gamma, while that of
    action 1 is worth 1/4. *)
Lemma configured_gamma_refuted :
  ~ (forall (o : Oracle) (retries : nat) (REWARDS : list (Q * string))
            (self : QAgent.agent) (fuel : nat) (state : Z) (w w' w1 : World)
            (a : Z) (values : list string),
        QAgent._act o retries REWARDS self fuel state w = Ok a w' ->
        QAgent.get_values o retries REWARDS self fuel state w = Ok values w1 ->
        exists v,
          In (a, v)
             (combine
                (QAgent.range (action_space_n (Model.env (QAgent.base self))))
                values)
          /\ forall a0 v0,
               In (a0, v0)
                  (combine
                     (QAgent.range
                        (action_space_n (Model.env (QAgent.base self))))
                     values) ->
               (quantify (Model.env (QAgent.base self)) v0
                  (Some (QAgent.gamma self))
                <= quantify (Model.env (QAgent.base self)) v
                     (Some (QAgent.gamma self)))%Q).
Proof.
  intros H.
  destruct (QAgent._act DemoGamma.oracle 1 DemoGamma.REWARDS DemoGamma.agent
              5 0 DemoGamma.start) as [a w'| |] eqn:Hact;
    [|discriminate Hact..].
  destruct (QAgent.get_values DemoGamma.oracle 1 DemoGamma.REWARDS
              DemoGamma.agent 5 0 DemoGamma.start) as [values w1| |] eqn:Hvalues;
    [|discriminate Hvalues..].
  destruct (H _ _ _ _ _ _ _ _ _ _ _ Hact Hvalues) as (v & Hin & Hmax).
  vm_compute in Hact. injection Hact as <- _.
  vm_compute in Hvalues. injection Hvalues as <- _.
  destruct Hin as [[= <-] | [[=] | []]].
  specialize (Hmax 1 "Half." ltac:(right; left; reflexivity)).
  vm_compute in Hmax. now apply Hmax.
Qed.

(** C5, amended.  Let the generator's shuffle rearrange and nothing more.
    Whenever [Q._act] returns an action, that action is a candidate, and
    its value string, quantified at the gamma 0.9 that [_act] itself fixes
    (the agent's field [gamma] is not read), is worth at least as much as
    that of every candidate.  Among candidates of equal worth the choice
    goes by the numbers the generator draws after the shuffle, one per
    candidate in the shuffled order: the candidate at place [j] gets the
    [j]-th of them, and the chosen one got no less than any candidate of
    its worth.  And [_act] does return, for every state, when there is at
    least one action, the rollout depth is at least one, [REWARDS] has a
    token for the reward 0 and the client returns. *)
Theorem Q_act_takes_a_greatest_value
    (o : Oracle) (retries : nat) (REWARDS : list (Q * string))
    (self : QAgent.agent) (state : Z) (w : World) :
  (forall k (A : Type) (xs : list A), Permutation (shuffle o k A xs) xs) ->
  let env := Model.env (QAgent.base self) in
  let worth := fun v => quantify env v (Some (9 # 10)%Q) in
  (forall fuel a w',
      QAgent._act o retries REWARDS self fuel state w = Ok a w' ->
      exists values w1 v i,
        QAgent.get_values o retries REWARDS self fuel state w = Ok values w1
        /\ let candidates :=
             combine (QAgent.range (action_space_n env)) values in
           let shuffled := shuffle o (draws w1) (Z * string)%type candidates in
           let draw := fun j : nat => random o (S (draws w1) + j) in
           nth_error shuffled i = Some (a, v)
           /\ In (a, v) candidates
           /\ (forall a0 v0,
                 In (a0, v0) candidates -> (worth v0 <= worth v)%Q)
           /\ (forall j a0 v0,
                 nth_error shuffled j = Some (a0, v0) ->
                 (worth v0 == worth v)%Q -> (draw j <= draw i)%Q)
           /\ w' = mkWorld (db w1) (calls w1)
                     (S (draws w1) + length candidates))
  /\ (forall tok,
        service_answers o retries ->
        (forall w0, rewards_get REWARDS 0%Q w0 = Ok tok w0) ->
        all_dotted (db w) ->
        1 <= QAgent.max_steps self ->
        1 <= action_space_n env ->
        exists a w',
          QAgent._act o retries REWARDS self
            (Z.to_nat (QAgent.max_steps self)) state w = Ok a w').
Proof.
  intros Hperm env worth. split.
  2: { intros tok Hsvc Hzero Hdb Hdepth Hn.
       now apply (act_total o retries REWARDS self tok state Hsvc Hzero Hdepth). }
  intros fuel a w' Hact. unfold QAgent._act in Hact.
  unfold bind at 1 in Hact.
  destruct (QAgent.get_values o retries REWARDS self fuel state w)
    as [values w1| |]; try discriminate.
  unfold bind at 1, rng_shuffle at 1 in Hact.
  fold env in Hact.
  set (candidates := combine (QAgent.range (action_space_n env)) values) in *.
  set (shuffled := shuffle o (draws w1) (Z * string)%type candidates) in *.
  unfold bind at 1 in Hact.
  destruct (for_each (QAgent.keyed o self) shuffled _)
    as [with_keys w3| |] eqn:Hkeys; try discriminate.
  apply for_each_keyed in Hkeys as (Hmap & Hnth & ->).
  cbn [db calls draws] in Hnth |- *.
  destruct with_keys as [|first rest]; [discriminate |].
  unfold ret in Hact. injection Hact as Ha Hw'.
  destruct (max_by_key_spec rest first) as [Hin Hmax].
  set (m := QAgent.max_by_key first rest) in *.
  assert (Hshuffled : Permutation shuffled candidates) by apply Hperm.
  destruct (In_nth_error _ _ Hin) as [i Hi].
  assert (Hplace : nth_error shuffled i = Some (fst m))
    by (rewrite <- Hmap, nth_error_map, Hi; reflexivity).
  pose proof (Hnth _ _ Hi) as Hkey. fold env in Hkey. fold (worth (snd (fst m))) in Hkey.
  destruct m as [[a' v] key] eqn:Em. cbn [fst snd] in *. subst a' key.
  assert (Hcandidate : In (a, v) candidates).
  { eapply Permutation_in; [exact Hshuffled |].
    eapply nth_error_In. exact Hplace. }
  assert (Hbelow : forall j a0 v0,
             nth_error shuffled j = Some (a0, v0) ->
             (worth v0 <= worth v)%Q
             /\ ((worth v0 == worth v)%Q ->
                 (random o (S (draws w1) + j)
                  <= random o (S (draws w1) + i))%Q)).
  { intros j a0 v0 Hj.
    rewrite <- Hmap, nth_error_map in Hj.
    destruct (nth_error (first :: rest) j) as [y|] eqn:Hy; [|discriminate].
    injection Hj as Hfst.
    pose proof (Hnth _ _ Hy) as Hkey. rewrite Hfst in Hkey.
    cbn [snd] in Hkey. fold env in Hkey. fold (worth v0) in Hkey.
    specialize (Hmax y (nth_error_In _ _ Hy)). rewrite Hkey in Hmax.
    cbn [snd] in Hmax. apply key_le in Hmax. exact Hmax. }
  exists values, w1, v, i.
  split; [reflexivity |]. cbv zeta. fold candidates. fold shuffled.
  split; [exact Hplace |]. split; [exact Hcandidate |]. split; [|split].
  - intros a0 v0 H0.
    apply (Permutation_in _ (Permutation_sym Hshuffled)) in H0.
    apply In_nth_error in H0 as [j Hj]. now apply (Hbelow j a0 v0).
  - intros j a0 v0 Hj. now apply (Hbelow j a0 v0).
  - rewrite <- Hw'. f_equal. now rewrite (Permutation_length Hshuffled).
Qed.

Lemma Q_act_takes_a_greatest_value_witness :
  exists w',
    QAgent._act DemoTie.oracle 1 DemoGamma.REWARDS DemoGamma.agent 5 0
      DemoGamma.start = Ok 1 w'
    /\ exists values w1 v i,
         QAgent.get_values DemoTie.oracle 1 DemoGamma.REWARDS DemoGamma.agent
           5 0 DemoGamma.start = Ok values w1
         /\ let candidates := combine (QAgent.range 2) values in
            let shuffled :=
              shuffle DemoTie.oracle (draws w1) (Z * string)%type candidates in
            let draw := fun j : nat => random DemoTie.oracle (S (draws w1) + j) in
            nth_error shuffled i = Some (1, v)
            /\ In (1, v) candidates
            /\ (forall a0 v0,
                  In (a0, v0) candidates ->
                  (DemoGamma.quantify v0 (Some (9 # 10)%Q)
                   <= DemoGamma.quantify v (Some (9 # 10)%Q))%Q)
            /\ (forall j a0 v0,
                  nth_error shuffled j = Some (a0, v0) ->
                  (DemoGamma.quantify v0 (Some (9 # 10)%Q)
                   == DemoGamma.quantify v (Some (9 # 10)%Q))%Q ->
                  (draw j <= draw i)%Q)
            /\ w' = mkWorld (db w1) (calls w1)
                      (S (draws w1) + length candidates).
Proof.
  assert (Hperm : forall k (A : Type) (xs : list A),
             Permutation (shuffle DemoTie.oracle k A xs) xs)
    by (intros k A xs; reflexivity).
  destruct (Q_act_takes_a_greatest_value DemoTie.oracle 1 DemoGamma.REWARDS
              DemoGamma.agent 0 DemoGamma.start Hperm) as [Hmax Hreturns].
  destruct (Hreturns "Failure.") as (a & w' & Hact).
  - intros k prompt. exists 0%nat. split; [lia | reflexivity].
  - intros w0. reflexivity.
  - intros p c H. cbn in H. rewrite lookup_empty in H. discriminate.
  - cbn. lia.
  - cbn. lia.
  - assert (Ha : a = 1) by (vm_compute in Hact; now injection Hact as <- _).
    subst a. exists w'. split; [exact Hact |]. exact (Hmax _ _ _ Hact).
Defined.

(** ** The training loop: what an episode leaves in the buffer *)

Lemma push_all_suffixes (trajectory : list TimeStep.t) :
  forall buffer,
  Train.push_all buffer trajectory
  = (buffer ++ suffixes_longest_first trajectory)%list.
Proof.
  induction trajectory as [|head rest IH]; intros buffer; cbn.
  - now rewrite app_nil_r.
  - now rewrite IH, <- app_assoc.
Qed.

Lemma suffixes_length {A} (xs : list A) :
  length (suffixes_longest_first xs) = length xs.
Proof. induction xs as [|x xs IH]; cbn; [reflexivity | now rewrite IH]. Qed.

Lemma suffixes_nth {A} (xs : list A) :
  forall i, (i < length xs)%nat ->
  nth_error (suffixes_longest_first xs) i = Some (skipn i xs).
Proof.
  induction xs as [|x xs IH]; intros i Hi; cbn in Hi; [lia |].
  destruct i as [|i]; [reflexivity |]. cbn. apply IH. lia.
Qed.

Lemma slice_from_last {A} (m : Z) (xs : list A) :
  1 <= m ->
  Py.slice_from (- m) xs
  = last_steps (Z.to_nat (Z.min (Z.of_nat (length xs)) m)) xs.
Proof.
  intros Hm. unfold Py.slice_from, last_steps.
  destruct (Z.ltb_spec (- m) 0) as [_|H]; [|lia]. f_equal. lia.
Qed.

(** C4 as stated does not hold in the order: a stored trajectory of
    two steps enters the buffer whole first, its last step second. *)
Lemma shortest_suffix_first_refuted :
  ~ (forall (W : Type) (cfg : Train.Config) (v : Train.Locals W),
        Train.evaluate v = false ->
        Train.timed_out v = false ->
        Train.buffer (Train.store cfg v)
        = (Train.buffer v
           ++ suffixes_shortest_first
                (last_steps
                   (Z.to_nat (Z.min (Z.of_nat (length (Train.trajectory v)))
                                (Train.max_trajectory cfg)))
                   (Train.trajectory v)))%list).
Proof.
  intros H.
  specialize (H unit DemoTrain.config DemoTrain.finished eq_refl eq_refl).
  vm_compute in H. discriminate H.
Qed.

(** ** The training loop: the step counter *)

Lemma body_Some {W} (out : Train.Outside W) (cfg : Train.Config)
    (v v' : Train.Locals W) :
  Train.body out cfg v = Train.Finished v' ->
  Train.T v' = (if Train.evaluate v then Train.T v else Train.T v + 1)
  /\ Train.evaluate v' = Train.evaluate v
  /\ Train.t v' = Train.t v + 1
  /\ Train.buffer v' = Train.buffer v
  /\ Train.episodes v'
     = (if Train.done v' then Train.episodes v + 1 else Train.episodes v)
  /\ (Train.done v' = false -> Train.t v' < Train.max_steps cfg)
  /\ exists step, Train.trajectory v' = (Train.trajectory v ++ [step])%list.
Proof.
  unfold Train.body.
  destruct (Train.use_model_prob out cfg (Train.buffer v)) as [prob|];
    [|discriminate].
  destruct (if Train.evaluate v then _ else _) as [use_model w1].
  destruct (if use_model then _ else _) as [[action w2]|]; [|discriminate].
  unfold Train.after_choice, Train.take_step.
  destruct (Train.env_step out action w2) as [[[next_state reward] done] w3].
  destruct (Z.leb_spec (Train.max_steps cfg) (Train.t v + 1)) as [Hcap|Hcap];
    intros [= <-]; cbn; repeat split; eauto; try discriminate.
Qed.

Lemma while_not_done_done {W} (out : Train.Outside W) (cfg : Train.Config)
    (fuel : nat) (v v' : Train.Locals W) :
  Train.done v = true ->
  Train.while_not_done out cfg fuel v = Train.Finished v' -> v' = v.
Proof. intros Hdone. destruct fuel; cbn; rewrite Hdone; now intros [= <-]. Qed.

Lemma while_not_done_Some {W} (out : Train.Outside W) (cfg : Train.Config)
    (fuel : nat) :
  forall v v' : Train.Locals W,
  Train.while_not_done out cfg fuel v = Train.Finished v' ->
  (Train.done v = false -> Train.t v < Z.max 1 (Train.max_steps cfg)) ->
  Train.done v' = true
  /\ Train.evaluate v' = Train.evaluate v
  /\ Train.buffer v' = Train.buffer v
  /\ Train.T v'
     = (if Train.evaluate v then Train.T v
        else Train.T v + (Train.t v' - Train.t v))
  /\ Z.of_nat (length (Train.trajectory v'))
     = Z.of_nat (length (Train.trajectory v)) + (Train.t v' - Train.t v)
  /\ Train.t v <= Train.t v'
  /\ (Train.done v = false -> Train.t v < Train.t v'
                              /\ Train.t v' <= Z.max 1 (Train.max_steps cfg)
                              /\ Train.episodes v' = Train.episodes v + 1).
Proof.
  induction fuel as [|fuel IH]; intros v v'; cbn [Train.while_not_done];
    destruct (Train.done v) eqn:Hdone; try discriminate.
  - intros [= <-] _. rewrite Hdone. destruct (Train.evaluate v);
      repeat split; try lia; discriminate.
  - intros [= <-] _. rewrite Hdone. destruct (Train.evaluate v);
      repeat split; try lia; discriminate.
  - destruct (Train.body out cfg v) as [v1|e|] eqn:Hbody; [|discriminate..].
    intros Hrun Hcap. specialize (Hcap eq_refl).
    apply body_Some in Hbody
      as (HT & Heval & Ht & Hbuf & Hep & Hcap1 & step & Htraj).
    destruct (Train.done v1) eqn:Hd1.
    + apply while_not_done_done in Hrun; [subst v' | exact Hd1].
      rewrite Htraj, length_app, Hd1, Heval, Hbuf, HT, Ht, Hep. cbn [length].
      split; [reflexivity |]. split; [reflexivity |]. split; [reflexivity |].
      split; [destruct (Train.evaluate v); lia |]. repeat split; lia.
    + specialize (Hcap1 eq_refl).
      apply IH in Hrun as (Hd & He & Hb & HT' & Hlen & Hle & Hmore); [|lia].
      destruct (Hmore Hd1) as (Hlt & Hmax & Hepisodes).
      rewrite Htraj, length_app in Hlen. cbn [length] in Hlen.
      rewrite Heval in HT'.
      split; [exact Hd |]. split; [congruence |]. split; [congruence |].
      split; [destruct (Train.evaluate v); lia |]. repeat split; lia.
Qed.

Lemma store_keeps_counters {W} (cfg : Train.Config) (v : Train.Locals W) :
  Train.T (Train.store cfg v) = Train.T v
  /\ Train.episodes (Train.store cfg v) = Train.episodes v
  /\ Train.evaluate (Train.store cfg v) = Train.evaluate v
  /\ Train.t (Train.store cfg v) = Train.t v.
Proof.
  unfold Train.store.
  destruct (Train.evaluate v) eqn:E, (Train.timed_out v); cbn; auto.
Qed.

Lemma episode_Finished {W} (out : Train.Outside W) (cfg : Train.Config)
    (fuel : nat) (v v' : Train.Locals W) :
  Train.episode out cfg fuel v = Train.Finished v' ->
  Train.eval_frequency cfg <> 0
  /\ Train.evaluate v'
     = (Train.episodes v mod Train.eval_frequency cfg =? 0)
  /\ Train.episodes v' = Train.episodes v + 1
  /\ 1 <= Train.t v' <= Z.max 1 (Train.max_steps cfg)
  /\ Train.T v' = (if Train.evaluate v' then Train.T v
                   else Train.T v + Train.t v').
Proof.
  unfold Train.episode.
  destruct (Train.env_reset out (Train.world v)) as [state w].
  destruct (Z.eqb_spec (Train.eval_frequency cfg) 0) as [|Hf]; [discriminate |].
  destruct (Train.while_not_done out cfg fuel _) as [v1|e|] eqn:Hrun;
    [|discriminate..].
  intros [= <-].
  apply while_not_done_Some in Hrun
    as (_ & He & _ & HT & _ & _ & Hmore); [|cbn; lia].
  destruct (Hmore eq_refl) as (Hlt & Hmax & Hep). cbn in *.
  destruct (store_keeps_counters cfg v1) as (-> & -> & -> & ->).
  rewrite He. split; [exact Hf |]. split; [reflexivity |].
  split; [exact Hep |]. split; [lia |].
  rewrite HT. destruct (_ =? 0); [reflexivity | f_equal; lia].
Qed.

Lemma while_budget_Finished {W} (out : Train.Outside W) (cfg : Train.Config)
    (fuel : nat) :
  forall v v' : Train.Locals W,
  Train.while_budget out cfg fuel v = Train.Finished v' ->
  Train.total_steps cfg <= Train.T v'
  /\ (Train.T v' = Train.T v
      \/ (Train.T v < Train.total_steps cfg
          /\ Train.T v'
             < Train.total_steps cfg + Z.max 1 (Train.max_steps cfg))).
Proof.
  induction fuel as [|fuel IH]; intros v v'; cbn [Train.while_budget];
    destruct (Z.ltb_spec (Train.T v) (Train.total_steps cfg)) as [Hlt|Hge];
    try discriminate; try (intros [= <-]; split; [lia | now left]).
  destruct (Train.episode out cfg fuel v) as [v1| |] eqn:Hep; try discriminate.
  apply episode_Finished in Hep as (_ & _ & _ & Ht & HT).
  intros (Hfinal & Hbound)%IH. split; [exact Hfinal |]. right.
  split; [exact Hlt |].
  destruct (Train.evaluate v1), Hbound as [Hsame | [_ Hless]]; lia.
Qed.

Lemma episode_trajectory {W} (out : Train.Outside W) (cfg : Train.Config)
    (fuel : nat) (v v' : Train.Locals W) :
  Train.episode out cfg fuel v = Train.Finished v' ->
  exists v1,
    v' = Train.store cfg v1
    /\ Train.buffer v1 = Train.buffer v
    /\ Train.evaluate v1 = Train.evaluate v'
    /\ Train.timed_out v1 = Train.timed_out v'
    /\ Z.of_nat (length (Train.trajectory v1)) = Train.t v'.
Proof.
  unfold Train.episode.
  destruct (Train.env_reset out (Train.world v)) as [state w].
  destruct (Train.eval_frequency cfg =? 0); [discriminate |].
  destruct (Train.while_not_done out cfg fuel _) as [v1|e|] eqn:Hrun;
    [|discriminate..].
  intros [= <-]. exists v1.
  apply while_not_done_Some in Hrun as (_ & _ & Hb & _ & Hlen & _);
    [|cbn; lia].
  cbn in Hb, Hlen.
  destruct (store_keeps_counters cfg v1) as (_ & _ & -> & ->).
  repeat split; try assumption; try lia.
  unfold Train.store. now destruct (Train.evaluate v1), (Train.timed_out v1).
Qed.

(** C4, amended.  For a maximal trajectory length of at least one, a
    training episode of [k] steps that did not time out is cut to its last
    [m = min(k, max_trajectory)] steps and adds exactly [m] entries to the
    buffer, behind those already there: first the whole cut trajectory, then
    each shorter suffix in turn, the [i]-th entry being the last [m - i]
    steps, down to the last step alone.  A timed-out episode adds none. *)
Theorem store_pushes_every_suffix (W : Type) (cfg : Train.Config) :
  1 <= Train.max_trajectory cfg ->
  let m := fun trajectory : list TimeStep.t =>
             Z.to_nat (Z.min (Z.of_nat (length trajectory))
                         (Train.max_trajectory cfg)) in
  let added := fun trajectory : list TimeStep.t =>
                 suffixes_longest_first
                   (last_steps (m trajectory) trajectory) in
  (forall trajectory,
      length (added trajectory) = m trajectory
      /\ forall i, (i < m trajectory)%nat ->
                   nth_error (added trajectory) i
                   = Some (last_steps (m trajectory - i) trajectory))
  /\ (forall v : Train.Locals W,
        Train.evaluate v = false ->
        (Train.timed_out v = false ->
         Train.buffer (Train.store cfg v)
         = (Train.buffer v ++ added (Train.trajectory v))%list)
        /\ (Train.timed_out v = true ->
            Train.buffer (Train.store cfg v) = Train.buffer v))
  /\ (forall (out : Train.Outside W) fuel (v v' : Train.Locals W),
        Train.episode out cfg fuel v = Train.Finished v' ->
        Train.evaluate v' = false ->
        exists trajectory,
          Z.of_nat (length trajectory) = Train.t v'
          /\ (Train.timed_out v' = false ->
              Train.buffer v' = (Train.buffer v ++ added trajectory)%list)
          /\ (Train.timed_out v' = true -> Train.buffer v' = Train.buffer v)).
Proof.
  intros Hmax m added.
  assert (Hstore : forall v : Train.Locals W,
             Train.evaluate v = false ->
             (Train.timed_out v = false ->
              Train.buffer (Train.store cfg v)
              = (Train.buffer v ++ added (Train.trajectory v))%list)
             /\ (Train.timed_out v = true ->
                 Train.buffer (Train.store cfg v) = Train.buffer v)).
  { intros v Heval. unfold Train.store. rewrite Heval. split; intros ->.
    - cbn [Train.buffer].
      now rewrite (slice_from_last _ _ Hmax), push_all_suffixes.
    - reflexivity. }
  split; [|split; [exact Hstore |]].
  - intros trajectory.
    assert (Hlen : length (last_steps (m trajectory) trajectory) = m trajectory)
      by (unfold last_steps, m; rewrite length_skipn; lia).
    split; [unfold added; now rewrite suffixes_length |].
    intros i Hi. unfold added. rewrite suffixes_nth by lia.
    unfold last_steps. rewrite skipn_skipn. do 2 f_equal. unfold m in *. lia.
  - intros out fuel v v' Hep Heval.
    apply episode_trajectory in Hep as (v1 & -> & Hb & He & Ht & Hlen).
    exists (Train.trajectory v1). rewrite Heval in He.
    destruct (Hstore v1 He) as [Hdone Hout]. rewrite <- Hb, <- Ht.
    split; [exact Hlen | split; assumption].
Qed.

Lemma store_pushes_every_suffix_witness :
  Train.buffer (Train.store DemoTrain.config DemoTrain.finished)
  = [[DemoTrain.first_step; DemoTrain.second_step]; [DemoTrain.second_step]].
Proof.
  refine (proj1 (proj1 (proj2 (store_pushes_every_suffix unit DemoTrain.config
                                 _)) DemoTrain.finished _) _).
  - cbn. lia.
  - reflexivity.
  - reflexivity.
Defined.

Lemma insert_reverse_Forall (P : Q -> Prop) (x : Q) (sorted : list Q) :
  P x -> List.Forall P sorted -> List.Forall P (Py.insert_reverse x sorted).
Proof.
  intros Hx. induction 1 as [|y rest Hy Hrest IH]; cbn.
  - now constructor.
  - destruct (negb (Qle_bool y x)); repeat constructor; assumption.
Qed.

Lemma sum_nonnegative (xs : list Q) :
  Forall (fun x => (0 <= x)%Q) xs -> (0 <= Py.sum xs)%Q.
Proof.
  unfold Py.sum. intros Hxs.
  assert (H : forall acc, (0 <= acc)%Q -> (0 <= fold_left Qplus xs acc)%Q).
  { induction Hxs as [|x xs Hx _ IH]; intros acc Hacc; cbn; [exact Hacc |].
    apply IH. Lqa.lra. }
  apply H. Lqa.lra.
Qed.

Lemma value_sum_nonnegative {W} (out : Train.Outside W) (cfg : Train.Config)
    (buffer : list (list TimeStep.t)) :
  (forall trajectory, (0 <= Train.get_value out trajectory)%Q) ->
  (0 <= Train.value_sum out cfg buffer)%Q.
Proof.
  intros Hvalues. unfold Train.value_sum. apply sum_nonnegative.
  assert (Hall : Forall (fun x => (0 <= x)%Q)
                   (map (Train.get_value out) buffer))
    by (apply List.Forall_forall; intros x (t & <- & _)%in_map_iff;
        apply Hvalues).
  assert (Hsorted : Forall (fun x => (0 <= x)%Q)
                      (Py.sorted_reverse (map (Train.get_value out) buffer))).
  { induction Hall as [|x xs Hx _ IH]; cbn; [constructor |].
    now apply insert_reverse_Forall. }
  unfold Py.slice_to.
  match goal with
  | |- Forall _ (firstn ?k ?xs) =>
      rewrite <- (firstn_skipn k xs) in Hsorted
  end.
  now apply Forall_app in Hsorted as [Hkept _].
Qed.

Lemma while_not_done_Crashed {W} (out : Train.Outside W) (cfg : Train.Config)
    (fuel : nat) (e : Exn) :
  forall v : Train.Locals W,
  Train.while_not_done out cfg fuel v = Train.Crashed e ->
  Train.use_model_prob out cfg (Train.buffer v) = None /\ e = OverflowError.
Proof.
  induction fuel as [|fuel IH]; intros v; cbn [Train.while_not_done];
    destruct (Train.done v); try discriminate.
  destruct (Train.body out cfg v) as [v1|e1|] eqn:Hbody; [| |discriminate].
  - intros Hrun. apply body_Some in Hbody as (_ & _ & _ & <- & _).
    now apply IH.
  - intros [= <-]. unfold Train.body in Hbody.
    destruct (Train.use_model_prob out cfg (Train.buffer v)) as [prob|].
    + destruct (if Train.evaluate v then _ else _) as [use_model w1].
      destruct (if use_model then _ else _) as [[action w2]|]; discriminate.
    + now injection Hbody as <-.
Qed.

Lemma episode_Crashed {W} (out : Train.Outside W) (cfg : Train.Config)
    (fuel : nat) (v : Train.Locals W) (e : Exn) :
  Train.episode out cfg fuel v = Train.Crashed e ->
  (Train.eval_frequency cfg = 0 /\ e = ZeroDivisionError)
  \/ (Train.use_model_prob out cfg (Train.buffer v) = None
      /\ e = OverflowError).
Proof.
  unfold Train.episode.
  destruct (Train.env_reset out (Train.world v)) as [state w].
  destruct (Z.eqb_spec (Train.eval_frequency cfg) 0) as [Hf|Hf].
  - intros [= <-]. now left.
  - destruct (Train.while_not_done _ _ _ _) as [v1|e1|] eqn:Hrun;
      try discriminate.
    intros [= <-]. right. now apply while_not_done_Crashed in Hrun.
Qed.

(** When [math.exp] overflows on the empty buffer, the first step of the
    first episode raises. *)
Lemma train_overflows_at_once {W} (out : Train.Outside W)
    (cfg : Train.Config) (fuel : nat) (w : W) :
  0 < Train.total_steps cfg ->
  Train.eval_frequency cfg <> 0 ->
  Train.use_model_prob out cfg [] = None ->
  (2 <= fuel)%nat ->
  Train.train out cfg fuel w = Train.Crashed OverflowError.
Proof.
  intros Hsteps Hf Hexp Hfuel.
  destruct fuel as [|[|fuel]]; [lia | lia |].
  unfold Train.train. cbn [Train.while_budget Train.T].
  destruct (Z.ltb_spec 0 (Train.total_steps cfg)) as [_|H]; [|lia].
  unfold Train.episode. cbn [Train.world Train.episodes Train.T
                               Train.train_episodes Train.buffer].
  destruct (Train.env_reset out w) as [state w0].
  destruct (Z.eqb_spec (Train.eval_frequency cfg) 0) as [H|_];
    [contradiction |].
  cbn [Train.while_not_done Train.done]. unfold Train.body.
  cbn [Train.buffer]. now rewrite Hexp.
Qed.

Section Train_ends.

Context {W : Type}.
Variable out : Train.Outside W.
Variable cfg : Train.Config.

Hypothesis pi_returns :
  forall buffer state w, is_Some (Train.pi_act out buffer state w).
Hypothesis q_returns :
  forall buffer state w, is_Some (Train.q_act out buffer state w).
Hypothesis frequency : 2 <= Z.abs (Train.eval_frequency cfg).
Hypothesis exp_returns :
  forall x, (x <= 709)%Q -> is_Some (Train.math_exp out x).
Hypothesis values_nonnegative :
  forall trajectory, (0 <= Train.get_value out trajectory)%Q.
Hypothesis threshold : 2 * Train.min_successes cfg <= 709.

Let cap := Z.max 1 (Train.max_steps cfg).

Lemma prob_total (buffer : list (list TimeStep.t)) :
  is_Some (Train.use_model_prob out cfg buffer).
Proof.
  unfold Train.use_model_prob.
  pose proof (value_sum_nonnegative out cfg buffer values_nonnegative) as Hs.
  destruct (exp_returns
              (2 * (inject_Z (Train.min_successes cfg)
                    - Train.value_sum out cfg buffer))%Q) as [e ->];
    [|eexists; reflexivity].
  assert (H : (inject_Z (2 * Train.min_successes cfg) <= inject_Z 709)%Q)
    by (rewrite <- Zle_Qle; exact threshold).
  rewrite inject_Z_mult in H. change (inject_Z 2) with 2%Q in H.
  change (inject_Z 709) with 709%Q in H. Lqa.lra.
Qed.

Lemma body_total (v : Train.Locals W) :
  exists v', Train.body out cfg v = Train.Finished v'.
Proof.
  unfold Train.body.
  destruct (prob_total (Train.buffer v)) as [prob ->].
  destruct (if Train.evaluate v then _ else _) as [use_model w1].
  assert (Hchosen : exists action w2,
             (if use_model
              then (if Train.evaluate v then Train.pi_act out
                    else Train.q_act out) (Train.buffer v) (Train.state v) w1
              else Some (Train.env_sample out w1)) = Some (action, w2)).
  { destruct use_model.
    - destruct (Train.evaluate v).
      + destruct (pi_returns (Train.buffer v) (Train.state v) w1) as [[a w2] ->].
        eauto.
      + destruct (q_returns (Train.buffer v) (Train.state v) w1) as [[a w2] ->].
        eauto.
    - destruct (Train.env_sample out w1) as [a w2]. eauto. }
  destruct Hchosen as (action & w2 & ->). cbn [Train.after_choice]. eauto.
Qed.

Lemma while_not_done_total (fuel : nat) :
  forall v : Train.Locals W,
  (Train.done v = false -> Train.t v < cap) ->
  cap - Train.t v <= Z.of_nat fuel ->
  exists v', Train.while_not_done out cfg fuel v = Train.Finished v'.
Proof.
  induction fuel as [|fuel IH]; intros v Hcap Hfuel; cbn [Train.while_not_done];
    destruct (Train.done v) eqn:Hdone; eauto.
  - specialize (Hcap eq_refl). lia.
  - specialize (Hcap eq_refl).
    destruct (body_total v) as (v1 & Hbody). rewrite Hbody.
    apply body_Some in Hbody as (_ & _ & Ht & _ & _ & Hcap1 & _).
    apply IH; unfold cap in *; [intros H; specialize (Hcap1 H) |]; lia.
Qed.

Lemma episode_total (fuel : nat) (v : Train.Locals W) :
  cap <= Z.of_nat fuel ->
  exists v', Train.episode out cfg fuel v = Train.Finished v'.
Proof.
  intros Hfuel. unfold Train.episode.
  destruct (Train.env_reset out (Train.world v)) as [state w].
  destruct (Z.eqb_spec (Train.eval_frequency cfg) 0) as [Hf|_]; [lia |].
  match goal with
  | |- context [Train.while_not_done out cfg fuel ?v0] =>
      destruct (while_not_done_total fuel v0) as (v' & ->)
  end; cbn; unfold cap in *; try lia.
  eauto.
Qed.

Lemma next_episode_trains (e : Z) :
  e mod Train.eval_frequency cfg = 0 ->
  (e + 1) mod Train.eval_frequency cfg <> 0.
Proof.
  assert (Hf : Train.eval_frequency cfg <> 0) by lia.
  rewrite !(Z.mod_divide _ _ Hf). intros He He1.
  apply (Z.divide_add_cancel_r _ _ _ He) in He1.
  apply Z.divide_1_r in He1. lia.
Qed.

Lemma while_budget_total (fuel : nat) :
  forall v : Train.Locals W,
  episodes_left cfg v + cap <= Z.of_nat fuel ->
  exists v', Train.while_budget out cfg fuel v = Train.Finished v'.
Proof.
  induction fuel as [|fuel IH]; intros v; unfold episodes_left;
    cbn [Train.while_budget];
    destruct (Z.ltb_spec (Train.T v) (Train.total_steps cfg)) as [Hlt|Hge];
    eauto; intros Hfuel.
  - unfold cap in *. destruct (_ =? 0); lia.
  - destruct (episode_total fuel v) as (v1 & Hep);
      [unfold cap in *; destruct (_ =? 0); lia |].
    rewrite Hep. apply episode_Finished in Hep as (_ & Heval & Hepisodes & Ht & HT).
    apply IH. unfold episodes_left. rewrite Hepisodes.
    destruct (Z.eqb_spec (Train.episodes v mod Train.eval_frequency cfg) 0)
      as [Hmod|Hmod]; rewrite Heval in HT.
    + apply next_episode_trains in Hmod.
      destruct (Z.eqb_spec ((Train.episodes v + 1) mod Train.eval_frequency cfg) 0);
        [contradiction |].
      destruct (Z.ltb_spec (Train.T v1) (Train.total_steps cfg));
        unfold cap in *; lia.
    + destruct ((Train.episodes v + 1) mod Train.eval_frequency cfg =? 0);
        destruct (Z.ltb_spec (Train.T v1) (Train.total_steps cfg)).
      all: unfold cap in *; lia.
Qed.

Lemma train_total (w : W) :
  exists v',
    Train.train out cfg
      (Z.to_nat (2 * Z.max 0 (Train.total_steps cfg) + cap)) w
    = Train.Finished v'.
Proof.
  unfold Train.train. apply while_budget_total. unfold episodes_left.
  cbn [Train.T Train.episodes].
  destruct (Z.ltb_spec 0 (Train.total_steps cfg));
    try destruct (0 mod Train.eval_frequency cfg =? 0); unfold cap; lia.
Qed.

End Train_ends.




(** ** The training loop: trusting the model *)

Lemma insert_reverse_Permutation (x : Q) (sorted : list Q) :
  Permutation (Py.insert_reverse x sorted) (x :: sorted).
Proof.
  induction sorted as [|y rest IH]; cbn; [reflexivity |].
  destruct (negb (Qle_bool y x)); [|reflexivity].
  rewrite IH. apply perm_swap.
Qed.

Lemma insert_reverse_descending (x : Q) (sorted : list Q) :
  descending sorted -> descending (Py.insert_reverse x sorted).
Proof.
  unfold descending. induction 1 as [|y rest Hrest IH Hy]; cbn.
  - repeat constructor.
  - destruct (Qle_bool y x) eqn:E; cbn.
    + apply Qle_bool_iff in E. constructor; [now constructor |].
      constructor; [exact E |].
      eapply List.Forall_impl; [|exact Hy]. cbn. intros z Hz. Lqa.lra.
    + assert (Hlt : (x < y)%Q).
      { apply Qnot_le_lt. intros H%Qle_bool_iff. congruence. }
      constructor; [exact IH |].
      apply insert_reverse_Forall; [Lqa.lra | exact Hy].
Qed.

Lemma sorted_reverse_spec (xs : list Q) :
  Permutation (Py.sorted_reverse xs) xs /\ descending (Py.sorted_reverse xs).
Proof.
  induction xs as [|x xs [Hperm Hsorted]]; cbn.
  - split; [reflexivity | constructor].
  - split; [now rewrite insert_reverse_Permutation, Hperm |].
    now apply insert_reverse_descending.
Qed.

(** C6 as stated does not hold in which trajectories count.  A run
    of [train] with [n = 1] whose first training episode is worth 1 and
    whose second, more recent, is worth 0 leaves a buffer with the score
    1, not 0. *)
Lemma most_recent_trajectories_refuted :
  ~ (forall (W : Type) (out : Train.Outside W) (cfg : Train.Config)
            (fuel : nat) (w : W) (v' : Train.Locals W),
        Train.train out cfg fuel w = Train.Finished v' ->
        (Train.value_sum out cfg (Train.buffer v')
         == recent_value_sum out cfg (Train.buffer v'))%Q).
Proof.
  intros H.
  assert (E : exists v',
             Train.train DemoScore.outside DemoScore.config 9 0%nat
             = Train.Finished v'
             /\ Train.buffer v' = DemoScore.stored)
    by (vm_compute; eexists; split; reflexivity).
  destruct E as (v' & E & Hbuffer). apply H in E. rewrite Hbuffer in E.
  vm_compute in E. discriminate E.
Qed.

(** C6, amended.  At every step of the loop the score [s] is the sum of the
    [n] greatest values [get_value] gives, undiscounted, over the whole
    buffer (the values in descending order, cut after [n]).  When
    [math.exp(2 * (min_successes - s))] overflows the step raises
    [OverflowError], in an evaluation episode too.  Otherwise the
    probability of trusting the model is the logistic
    [1 / (1 + exp(2 * (min_successes - s)))], above 0 and at most 1; in an
    evaluation episode the step asks the policy agent, whatever that
    probability; in a training episode it draws a number and asks the
    value agent exactly when the number is below the probability and the
    agent is ready, and samples the action space otherwise.  The step then
    goes on with the action it was given. *)
Theorem model_trusted_by_logistic
    (W : Type) (out : Train.Outside W) (cfg : Train.Config)
    (v : Train.Locals W) :
  let buffer := Train.buffer v in
  let s := Train.value_sum out cfg buffer in
  let x := (2 * (inject_Z (Train.min_successes cfg) - s))%Q in
  (exists sorted,
      Permutation sorted (map (Train.get_value out) buffer)
      /\ descending sorted
      /\ s = Py.sum (Py.slice_to (Train.n cfg) sorted))
  /\ (Train.math_exp out x = None ->
      Train.body out cfg v = Train.Crashed OverflowError)
  /\ (forall e,
        Train.math_exp out x = Some e ->
        let p := (1 / (1 + e))%Q in
        Train.use_model_prob out cfg buffer = Some p
        /\ ((0 <= e)%Q -> (0 < p)%Q /\ (p <= 1)%Q)
        /\ (Train.evaluate v = true ->
            Train.body out cfg v
            = Train.after_choice out cfg v
                (Train.pi_act out buffer (Train.state v) (Train.world v)))
        /\ (Train.evaluate v = false ->
            let draw := fst (Train.rng_draw out (Train.world v)) in
            let w1 := snd (Train.rng_draw out (Train.world v)) in
            ((draw < p)%Q /\ Train.ready cfg buffer = true ->
             Train.body out cfg v
             = Train.after_choice out cfg v
                 (Train.q_act out buffer (Train.state v) w1))
            /\ (~ ((draw < p)%Q /\ Train.ready cfg buffer = true) ->
                Train.body out cfg v
                = Train.after_choice out cfg v
                    (Some (Train.env_sample out w1))))).
Proof.
  intros buffer s x.
  split.
  { exists (Py.sorted_reverse (map (Train.get_value out) buffer)).
    destruct (sorted_reverse_spec (map (Train.get_value out) buffer)).
    repeat split; assumption. }
  split.
  { intros Hexp. unfold Train.body, Train.use_model_prob.
    fold buffer. fold s. fold x. now rewrite Hexp. }
  intros e Hexp p.
  assert (Hp : Train.use_model_prob out cfg buffer = Some p).
  { unfold Train.use_model_prob. fold s. fold x. now rewrite Hexp. }
  split; [exact Hp |]. split.
  { intros He. unfold p. split.
    - apply Qlt_shift_div_l; Lqa.lra.
    - apply Qle_shift_div_r; Lqa.lra. }
  split.
  - intros Heval. unfold Train.body. fold buffer. now rewrite Hp, Heval.
  - intros Heval draw w1. unfold Train.body. fold buffer.
    rewrite Hp, Heval. unfold draw, w1.
    destruct (Train.rng_draw out (Train.world v)) as [d w]. cbn [fst snd].
    unfold Train.use_model. split.
    + intros [Hdraw Hready]. apply Qltb_true in Hdraw.
      now rewrite Hdraw, Hready.
    + intros Hnot.
      destruct (Qltb d p && Train.ready cfg buffer) eqn:Huse; [|reflexivity].
      apply andb_true_iff in Huse as [Hdraw Hready].
      apply Qltb_true in Hdraw. now elim Hnot.
Qed.

Lemma model_trusted_by_logistic_witness :
  Train.use_model_prob DemoScore.outside DemoScore.config DemoScore.stored
  = Some (1 / (1 + 1))%Q
  /\ Train.body DemoScore.outside DemoScore.config DemoScore.next
     = Train.after_choice DemoScore.outside DemoScore.config DemoScore.next
         (Train.q_act DemoScore.outside DemoScore.stored 0 5%nat).
Proof.
  destruct (model_trusted_by_logistic nat DemoScore.outside DemoScore.config
              DemoScore.next)
    as (_ & _ & Hstep).
  destruct (Hstep 1%Q eq_refl) as (Hp & _ & _ & Htrain).
  split; [exact Hp |].
  destruct (Htrain eq_refl) as [Hq _].
  apply Hq. split; reflexivity.
Defined.

(** * Further properties of the code *)

(** ** The completion client: the cache *)

(** X1.  An invocation of the client that returns never removes or changes
    an entry of the cache: what was stored stays stored, no key other than
    the prompt asked for is touched, and the random generator is not
    used. *)
Theorem call_keeps_the_cache
    (o : Oracle) (fuel : nat) (prompt : string) (w : World)
    (c : string) (w' : World) :
  GPT3.call o fuel prompt w = Ok c w' ->
  (forall q c0, db w !! q = Some c0 -> db w' !! q = Some c0)
  /\ (forall q, q <> prompt -> db w' !! q = db w !! q)
  /\ draws w' = draws w.
Proof.
  intros [[Hhit ->] | [Hmiss (n & _ & _ & _ & _ & ->)]]%call_Ok.
  - repeat split; trivial.
  - cbn [db draws]. split; [|split; [|reflexivity]].
    + intros q c0 Hq. rewrite lookup_insert_ne; [exact Hq |].
      intros <-. rewrite Hmiss in Hq. discriminate.
    + intros q Hq. now rewrite lookup_insert_ne.
Qed.

Lemma call_keeps_the_cache_witness :
  db (mkWorld (<["p" := "Left. x."]> ∅) 2 0) !! "q" = db DemoClient.start !! "q".
Proof.
  refine (proj1 (proj2 (call_keeps_the_cache DemoClient.oracle 2 "p"
                          DemoClient.start "Left. x."
                          (mkWorld (<["p" := "Left. x."]> ∅) 2 0) _)) "q" _).
  - reflexivity.
  - discriminate.
Defined.

(** X2.  On a miss the client is at the mercy of the service: when no
    answer to the prompt ever holds a full stop, the invocation never
    returns, however long it is followed, and the cache stays without an
    entry for the prompt. *)
Theorem call_never_returns_without_a_full_stop
    (o : Oracle) (prompt : string) (w : World) :
  db w !! prompt = None ->
  (forall k, (calls w <= k)%nat ->
             Py.contains_dot (Py.lstrip (create o k prompt)) = false) ->
  forall fuel, GPT3.call o fuel prompt w = OutOfFuel.
Proof.
  intros Hmiss Hnever fuel. unfold GPT3.call. rewrite Hmiss. clear Hmiss.
  revert w Hnever. induction fuel as [|fuel IH]; intros w Hnever; cbn.
  - reflexivity.
  - rewrite (Hnever (calls w)) by lia. apply IH. cbn.
    intros k Hk. apply Hnever. lia.
Qed.

Lemma call_never_returns_without_a_full_stop_witness :
  GPT3.call (mkOracle (fun _ _ => "abc") (fun _ _ xs => xs)
               (fun _ => 0%Q) (fun _ => 0)) 7 "p" DemoClient.start
  = OutOfFuel.
Proof.
  apply (call_never_returns_without_a_full_stop
           (mkOracle (fun _ _ => "abc") (fun _ _ xs => xs)
              (fun _ => 0%Q) (fun _ => 0)) "p" DemoClient.start).
  - reflexivity.
  - intros k _. reflexivity.
Defined.

(** X3.  The client hands out stripped text: from a cache whose entries have
    no white space in front, every completion it returns has none, and the
    cache stays so.  The [lstrip] that [Q.value] and [Pi._act] apply to the
    client's answer then changes nothing. *)
Theorem call_returns_stripped_text
    (o : Oracle) (fuel : nat) (prompt : string) (w : World)
    (c : string) (w' : World) :
  all_stripped (db w) ->
  GPT3.call o fuel prompt w = Ok c w' ->
  Py.lstrip c = c /\ all_stripped (db w').
Proof.
  intros Hdb [[Hhit ->] | [Hmiss (n & _ & _ & -> & _ & ->)]]%call_Ok.
  - split; [exact (Hdb _ _ Hhit) | exact Hdb].
  - split; [apply lstrip_lstrip |].
    cbn. intros q c0. rewrite lookup_insert. case_decide.
    + intros [= <-]. apply lstrip_lstrip.
    + apply Hdb.
Qed.

Lemma call_returns_stripped_text_witness :
  Py.lstrip "Left. x." = "Left. x."
  /\ all_stripped (db (mkWorld (<["p" := "Left. x."]> ∅) 2 0)).
Proof.
  apply (call_returns_stripped_text DemoClient.oracle 2 "p" DemoClient.start).
  - intros q c0 H. cbn in H. rewrite lookup_empty in H. discriminate.
  - reflexivity.
Defined.

(** ** The codec: what a rendered trajectory is worth *)

Lemma first_equals_plain (x : string) :
  no_equals x = true -> first_equals x = None.
Proof.
  induction x as [|c x IH]; cbn; [reflexivity |].
  intros [Hc Hx]%andb_true_iff. destruct (Ascii.eqb c "="); [discriminate |].
  now rewrite (IH Hx).
Qed.

Lemma findall_plain (x : string) :
  no_equals x = true -> Gqn.findall_from 0 x = [].
Proof.
  induction x as [|c x IH]; [reflexivity |].
  intros Hx. cbn [Gqn.findall_from].
  destruct (Gqn.match_here (String c x)) as [d|] eqn:E.
  - apply match_here_first_equals in E.
    rewrite (first_equals_plain _ Hx) in E. discriminate.
  - apply IH. cbn in Hx. now apply andb_true_iff in Hx as [_ Hx].
Qed.

Lemma no_equals_lstrip (x : string) :
  no_equals x = true -> no_equals (Py.lstrip x) = true.
Proof.
  induction x as [|c x IH]; cbn; [trivial |].
  destruct (Py.is_space c); [|trivial].
  intros [_ Hx]%andb_true_iff. now apply IH.
Qed.

Lemma findall_rendered (ds : list nat) (t : string) :
  Rendered ds t ->
  Gqn.findall_from 0 t = map (fun d => ascii_of_nat (48 + d)) ds.
Proof.
  induction 1 as [x Hx | x d ds rest Hx Hd _ IH]; cbn [map].
  - now apply findall_plain.
  - now rewrite (findall_skips_plain_text _ _ Hx), (findall_reward_text _ _ Hd), IH.
Qed.

Lemma Rendered_lstrip (ds : list nat) (t : string) :
  Rendered ds t -> Rendered ds (Py.lstrip t).
Proof.
  destruct 1 as [x Hx | x d ds rest Hx Hd Hrest].
  - constructor. now apply no_equals_lstrip.
  - destruct (lstrip_keeps_visible_suffix x
                (Gqn.reward_prefix +:+ String (ascii_of_nat (48 + d)) rest))
      as (x' & -> & Hx'); [reflexivity |].
    constructor; auto.
Qed.

Lemma Rendered_after_plain (p : string) (ds : list nat) (t : string) :
  no_equals p = true -> Rendered ds t -> Rendered ds (p +:+ t).
Proof.
  intros Hp. destruct 1 as [x Hx | x d ds rest Hx Hd Hrest].
  - constructor. now rewrite no_equals_app, Hp, Hx.
  - rewrite <- append_assoc. constructor; auto.
    now rewrite no_equals_app, Hp, Hx.
Qed.

Lemma sum_from (xs : list Q) (a : Q) :
  (fold_left Qplus xs a == a + Py.sum xs)%Q.
Proof.
  unfold Py.sum. revert a. induction xs as [|x xs IH]; intros a; cbn.
  - Lqa.lra.
  - rewrite (IH (a + x)%Q), (IH (0 + x)%Q). Lqa.lra.
Qed.

Lemma sum_cons (x : Q) (xs : list Q) : (Py.sum (x :: xs) == x + Py.sum xs)%Q.
Proof. unfold Py.sum at 1. cbn. rewrite sum_from. Lqa.lra. Qed.

Section Rendering_of_a_trajectory.

Variable env : Env.
Variable digit : TimeStep.t -> nat.

Hypothesis state_plain : forall s, no_equals (state_str env s) = true.
Hypothesis action_plain : forall a, no_equals (action_str env a) = true.

Lemma to_string_rendered (steps : list TimeStep.t) :
  Forall (readable env digit) steps ->
  exists ds,
    Rendered ds (to_string env steps)
    /\ Forall2 (fun d r => (inject_Z (Z.of_nat d) == r)%Q) ds
         (terminal_rewards steps).
Proof.
  induction 1 as [|step steps Hstep _ (ds & Hds & Hrewards)].
  - exists []. split; [now constructor | constructor].
  - cbn [to_string]. unfold Prompt.to_string, Prompt.make;
      cbn [Prompt.state Prompt.action Prompt.value].
    unfold terminal_rewards. cbn [List.filter].
    destruct (TimeStep.next_state step) as [s'|] eqn:Hnext.
    + exists ds. split; [|exact Hrewards].
      rewrite andb_false_r, !append_nil_l.
      repeat apply Rendered_after_plain; auto. now apply Rendered_lstrip.
    + destruct (Hstep Hnext) as (Hd & Hr & Htext).
      exists (digit step :: ds). cbn [map]. split.
      * repeat apply Rendered_after_plain; auto. apply Rendered_lstrip.
        rewrite Htext. unfold Gqn.reward_text.
        rewrite append_assoc, append_cons, append_nil_l.
        apply (Rendered_reward ""); [reflexivity | exact Hd |].
        apply Rendered_after_plain; [|exact Hds].
        now destruct (Py.truthy (to_string env steps) && Py.truthy _).
      * constructor; [now symmetry | exact Hrewards].
Qed.

End Rendering_of_a_trajectory.

Lemma sum_Forall2 (xs ys : list Q) :
  Forall2 Qeq xs ys -> (Py.sum xs == Py.sum ys)%Q.
Proof.
  induction 1 as [|x y xs ys Hxy _ IH]; [reflexivity |].
  now rewrite !sum_cons, Hxy, IH.
Qed.

Lemma float_of_digits (ds : list nat) (rs : list Q) :
  List.Forall (fun d => (d < 10)%nat) ds ->
  Forall2 (fun d r => (inject_Z (Z.of_nat d) == r)%Q) ds rs ->
  Forall2 Qeq
    (map Gqn.float_of_digit (map (fun d => ascii_of_nat (48 + d)) ds)) rs.
Proof.
  intros Hds H. induction H as [|d r ds rs Hdr _ IH]; cbn [map].
  - constructor.
  - apply List.Forall_cons_iff in Hds as [Hd Hds].
    constructor; [|now apply IH].
    destruct (digit_is_digit d Hd) as [_ ->]. exact Hdr.
Qed.

Lemma Rendered_digits (ds : list nat) (t : string) :
  Rendered ds t -> List.Forall (fun d => (d < 10)%nat) ds.
Proof. induction 1; constructor; assumption. Qed.

(** X4.  Rendering and quantifying compose for whole trajectories: when the
    state and action renderings hold no ['='] and every terminal step
    carries a one-digit reward rendered as [assert reward == d], the
    rendered trajectory is worth the sum of the rewards of its terminal
    steps, wherever they stand; without a terminal step it is worth 0. *)
Theorem quantify_to_string_sums_the_rewards
    (env : Env) (digit : TimeStep.t -> nat) (steps : list TimeStep.t) :
  (forall s, no_equals (state_str env s) = true) ->
  (forall a, no_equals (action_str env a) = true) ->
  Forall (readable env digit) steps ->
  (Gqn.quantify (to_string env steps) == Py.sum (terminal_rewards steps))%Q.
Proof.
  intros Hs Ha Hsteps.
  destruct (to_string_rendered env digit Hs Ha steps Hsteps)
    as (ds & Hrendered & Hrewards).
  unfold Gqn.quantify, Gqn.findall. rewrite (findall_rendered _ _ Hrendered).
  apply sum_Forall2, float_of_digits; [|exact Hrewards].
  exact (Rendered_digits _ _ Hrendered).
Qed.

Lemma quantify_to_string_sums_the_rewards_witness :
  (Gqn.quantify (to_string Demo.env DemoCodec.two_goals) == 5)%Q.
Proof.
  apply (quantify_to_string_sums_the_rewards Demo.env DemoCodec.digit
           DemoCodec.two_goals).
  - intros s. unfold Demo.env, state_str, Demo.state_str.
    destruct (s =? 0); reflexivity.
  - intros a. unfold Demo.env, action_str, Demo.action_str.
    destruct (a =? 0); reflexivity.
  - repeat constructor; try discriminate; cbn; lia.
Defined.

(** ** Quantification: bounds and the single digit *)

Lemma strip_prefix_length (p s r : string) :
  Gqn.strip_prefix p s = Some r ->
  String.length s = (String.length p + String.length r)%nat.
Proof.
  intros ->%strip_prefix_Some. induction p as [|a p IH]; cbn; [reflexivity |].
  now rewrite append_cons, <- IH.
Qed.

Lemma match_here_digit (s : string) (d : ascii) :
  Gqn.match_here s = Some d ->
  Gqn.is_digit d = true /\ (18 <= String.length s)%nat.
Proof.
  unfold Gqn.match_here.
  destruct (Gqn.strip_prefix Gqn.reward_prefix s) as [[|c r]|] eqn:E;
    try discriminate.
  destruct (Gqn.is_digit c) eqn:Hc; [|discriminate].
  intros [= <-]. split; [exact Hc |].
  apply strip_prefix_length in E. cbn in E. lia.
Qed.

Lemma findall_from_bounds (s : string) :
  forall skip,
  List.Forall (fun d => Gqn.is_digit d = true) (Gqn.findall_from skip s)
  /\ (18 * length (Gqn.findall_from skip s) <= String.length s - skip)%nat.
Proof.
  induction s as [|c s IH]; intros skip; cbn [Gqn.findall_from].
  - split; [constructor | cbn; lia].
  - destruct skip as [|skip].
    + destruct (Gqn.match_here (String c s)) as [d|] eqn:E.
      * apply match_here_digit in E as [Hd Hlen].
        destruct (IH 17%nat) as [Hall Hcount].
        split; [now constructor |]. cbn [length String.length] in *. lia.
      * destruct (IH 0%nat) as [Hall Hcount].
        split; [exact Hall |]. cbn [String.length]. lia.
    + destruct (IH skip) as [Hall Hcount].
      split; [exact Hall |]. cbn [String.length]. lia.
Qed.

Lemma float_of_digit_bounds (d : ascii) :
  Gqn.is_digit d = true ->
  (0 <= Gqn.float_of_digit d)%Q /\ (Gqn.float_of_digit d <= 9)%Q.
Proof.
  unfold Gqn.is_digit, Gqn.float_of_digit.
  intros [Hlo Hhi]%andb_true_iff.
  apply Nat.leb_le in Hlo, Hhi.
  split.
  - change 0%Q with (inject_Z 0). rewrite <- Zle_Qle. lia.
  - change 9%Q with (inject_Z 9). rewrite <- Zle_Qle. lia.
Qed.

Lemma sum_digit_bounds (ds : list ascii) :
  List.Forall (fun d => Gqn.is_digit d = true) ds ->
  (0 <= Py.sum (map Gqn.float_of_digit ds))%Q
  /\ (Py.sum (map Gqn.float_of_digit ds)
      <= inject_Z (9 * Z.of_nat (length ds)))%Q.
Proof.
  induction 1 as [|d ds Hd _ [IHlo IHhi]]; cbn [map length].
  - split; unfold Py.sum, Qle; cbn; lia.
  - destruct (float_of_digit_bounds d Hd) as [Hlo Hhi].
    rewrite sum_cons. split; [Lqa.lra |].
    replace (9 * Z.of_nat (S (length ds)))
      with (9 + 9 * Z.of_nat (length ds)) by lia.
    rewrite inject_Z_plus. change (inject_Z 9) with 9%Q. Lqa.lra.
Qed.

(** X5.  Whatever the text, [quantify] gives a number that is not negative
    and at most half the length of the text: each reward occurrence takes
    18 characters and counts for at most 9. *)
Theorem quantify_bounds (prompt : string) :
  (0 <= Gqn.quantify prompt)%Q
  /\ (2 * Gqn.quantify prompt
      <= inject_Z (Z.of_nat (String.length prompt)))%Q.
Proof.
  unfold Gqn.quantify, Gqn.findall.
  destruct (findall_from_bounds prompt 0) as [Hall Hcount].
  destruct (sum_digit_bounds _ Hall) as [Hlo Hhi].
  split; [exact Hlo |].
  assert (Hlen : (inject_Z (2 * (9 * Z.of_nat (length (Gqn.findall_from 0 prompt))))
                  <= inject_Z (Z.of_nat (String.length prompt)))%Q)
    by (rewrite <- Zle_Qle; lia).
  rewrite inject_Z_mult in Hlen. change (inject_Z 2) with 2%Q in Hlen.
  Lqa.lra.
Qed.

(** X6.  [quantify] reads one digit per occurrence: a reward occurrence with
    the digit [d], after text without ['='], counts for [d] whatever comes
    behind it, further digits included, and the rest of the text is counted
    on its own.  So [assert reward == 10] is read as 1. *)
Theorem quantify_reads_one_digit (x rest : string) (d : nat) :
  no_equals x = true ->
  (d < 10)%nat ->
  (Gqn.quantify (x +:+ Gqn.reward_text d +:+ rest)
   == inject_Z (Z.of_nat d) + Gqn.quantify rest)%Q.
Proof.
  intros Hx Hd. unfold Gqn.quantify, Gqn.findall, Gqn.reward_text.
  rewrite append_assoc, append_cons, append_nil_l.
  rewrite (findall_skips_plain_text _ _ Hx), (findall_reward_text _ _ Hd).
  cbn [map]. rewrite sum_cons.
  now destruct (digit_is_digit d Hd) as [_ ->].
Qed.

Lemma quantify_reads_one_digit_witness :
  (Gqn.quantify "assert reward == 10" == 1 + Gqn.quantify "0")%Q.
Proof.
  apply (quantify_reads_one_digit "" "0" 1); [reflexivity | lia].
Defined.

(** ** The codec: trajectories put one after the other *)

Section Rendering_composes.

Variable env : Env.

Hypothesis state_visible : forall s, starts_visible (state_str env s) = true.
Hypothesis reward_clean :
  forall r, no_leading_space (reward_str env r None) = true.

Lemma render_nonempty (step : TimeStep.t) (later : list TimeStep.t) :
  exists c rest, render env (step :: later) = String c rest.
Proof.
  cbn [render]. pose proof (state_visible (TimeStep.state step)) as H.
  destruct (state_str env (TimeStep.state step)) as [|c s]; [discriminate |].
  rewrite append_cons. eauto.
Qed.

Lemma render_app (before after : list TimeStep.t) :
  render env (before ++ after)
  = render env before
    +:+ (match last_reward_text env before, render env after with
         | String _ _, String _ _ => " "
         | _, _ => ""
         end)
    +:+ render env after.
Proof.
  induction before as [|step mid IH]; [reflexivity |].
  destruct mid as [|next later].
  - cbn [app render last_reward_text]. rewrite !append_empty_r.
    destruct (match TimeStep.next_state step with
              | Some _ => "" | None => _ end) as [|c r];
      rewrite ?append_assoc; reflexivity.
  - remember (next :: later) as mid eqn:Hmid.
    assert (Hlast : last_reward_text env (step :: mid)
                    = last_reward_text env mid) by (now subst mid).
    rewrite Hlast. cbn [app render]. rewrite IH.
    destruct (render_nonempty next later) as (c & rest & E).
    rewrite <- Hmid in E. rewrite E.
    destruct (match TimeStep.next_state step with
              | Some _ => "" | None => _ end) as [|c0 r0];
      repeat (rewrite append_assoc || rewrite append_cons
              || rewrite append_nil_l); reflexivity.
Qed.

End Rendering_composes.

(** X7.  Rendering goes through concatenation: for clean renderings (state
    texts non-empty, state and reward texts without white space in front),
    the rendering of one trajectory followed by another is the rendering of
    the first, then that of the second, with one space between them exactly
    when the first ends on a non-empty reward text and the second is not
    empty. *)
Theorem to_string_of_a_concatenation
    (env : Env) (before after : list TimeStep.t) :
  (forall s, starts_visible (state_str env s) = true) ->
  (forall r, no_leading_space (reward_str env r None) = true) ->
  to_string env (before ++ after)
  = to_string env before +:+ joint env before after +:+ to_string env after.
Proof.
  intros Hs Hr. unfold joint.
  rewrite !(to_string_render env Hs Hr). now apply render_app.
Qed.

Lemma to_string_of_a_concatenation_witness :
  to_string Demo.env ([Demo.goal] ++ Demo.walk)
  = to_string Demo.env [Demo.goal] +:+ " " +:+ to_string Demo.env Demo.walk.
Proof.
  apply (to_string_of_a_concatenation Demo.env [Demo.goal] Demo.walk).
  - intros s. reflexivity.
  - intros r. reflexivity.
Defined.

(** ** The environment base class: from action strings back to actions *)

Lemma filter_is_one {A} (f : A -> bool) (l : list A) (a : A) :
  List.filter f l = [a] ->
  In a l /\ f a = true /\ forall x, In x l -> f x = true -> x = a.
Proof.
  intros E.
  assert (Hin : forall x, In x (List.filter f l) <-> x = a).
  { intros x. rewrite E. cbn. split; [intros [<- | []]; reflexivity | auto]. }
  pose proof (proj2 (Hin a) eq_refl) as Ha.
  apply filter_In in Ha as [Ha Hfa].
  repeat split; try assumption.
  intros x Hx Hfx. apply Hin, filter_In. now split.
Qed.

Lemma filter_one {A} (f : A -> bool) (l : list A) (a : A) :
  List.NoDup l -> In a l -> f a = true ->
  (forall x, In x l -> f x = true -> x = a) ->
  List.filter f l = [a].
Proof.
  induction 1 as [|y l Hy Hl IH]; intros Ha Hfa Honly; [destruct Ha |].
  cbn [List.filter]. destruct (f y) eqn:Hfy.
  - assert (y = a) by (apply Honly; [now left | exact Hfy]). subst y.
    f_equal. destruct (List.filter f l) as [|z rest] eqn:E; [reflexivity |].
    assert (Hz : In z (List.filter f l)) by (rewrite E; now left).
    apply filter_In in Hz as [Hz Hfz].
    assert (z = a) by (apply Honly; [now right | exact Hfz]). now subst z.
  - destruct Ha as [-> | Ha]; [congruence |].
    apply IH; auto. intros x Hx. apply Honly. now right.
Qed.

Lemma range_In (n a : Z) : In a (QAgent.range n) <-> 0 <= a < n.
Proof.
  unfold QAgent.range. rewrite in_map_iff. split.
  - intros (i & <- & Hi%in_seq). lia.
  - intros Ha. exists (Z.to_nat a). split; [lia |]. apply in_seq. lia.
Qed.

Lemma range_NoDup (n : Z) : List.NoDup (QAgent.range n).
Proof.
  unfold QAgent.range. apply Finite.Injective_map_NoDup.
  - intros i j. apply Nat2Z.inj.
  - apply seq_NoDup.
Qed.

Lemma option_string_eqb_eq (a b : option string) :
  option_string_eqb a b = true <-> a = b.
Proof.
  destruct a as [x|], b as [y|]; cbn; try (split; congruence).
  rewrite String.eqb_eq. split; congruence.
Qed.

(** X8.  [Env.action] decodes a string to an action exactly when one and
    only one action below [action_space.n] is rendered as that string: an
    unknown string and a string shared by two actions both give [None]. *)
Theorem action_decodes_the_only_match
    (self : GqnEnv.t) (s : option string) (a : Z) :
  GqnEnv.action self s = Some a
  <-> (0 <= a < GqnEnv.n self
       /\ GqnEnv.action_str self a = s
       /\ forall a', 0 <= a' < GqnEnv.n self ->
                     GqnEnv.action_str self a' = s -> a' = a).
Proof.
  unfold GqnEnv.action. split.
  - destruct (List.filter _ _) as [|a0 [|a1 rest]] eqn:E; try discriminate.
    intros [= ->]. apply filter_is_one in E as (Hin & Heq & Honly).
    apply range_In in Hin. apply option_string_eqb_eq in Heq.
    repeat split; try lia; try assumption.
    intros a' Ha' Hs. apply Honly; [now apply range_In |].
    now apply option_string_eqb_eq.
  - intros (Ha & Hs & Honly).
    rewrite (filter_one _ _ a); [reflexivity | apply range_NoDup | | |].
    + now apply range_In.
    + now apply option_string_eqb_eq.
    + intros x Hx%range_In Hfx%option_string_eqb_eq. now apply Honly.
Qed.

Lemma getitem_in_range {A} (xs : list A) (i : Z) :
  0 <= i ->
  getitem xs i = nth_error xs (Z.to_nat i).
Proof.
  intros Hi. unfold getitem.
  destruct (Z.leb_spec 0 i); [|lia].
  destruct (Z.ltb_spec i (Z.of_nat (length xs))); cbn [andb]; [reflexivity |].
  destruct (Z.ltb_spec i 0); [lia |]. rewrite andb_false_r.
  symmetry. apply nth_error_None. lia.
Qed.

(** X9.  Round trip: when the names in [actions()] are all different, every
    action [a] below [action_space.n] that has a name is found again from
    its string, [action(action_str(a)) = a]. *)
Theorem action_of_action_str (self : GqnEnv.t) (a : Z) :
  List.NoDup (GqnEnv.actions self) ->
  0 <= a < GqnEnv.n self ->
  a < Z.of_nat (length (GqnEnv.actions self)) ->
  GqnEnv.action self (GqnEnv.action_str self a) = Some a.
Proof.
  intros Hnodup Ha Hlen. unfold GqnEnv.action.
  rewrite (filter_one _ _ a); [reflexivity | apply range_NoDup | | |].
  - now apply range_In.
  - now apply option_string_eqb_eq.
  - intros a' Ha'%range_In Heq%option_string_eqb_eq.
    unfold GqnEnv.action_str in Heq.
    rewrite !getitem_in_range in Heq by lia.
    destruct (nth_error (GqnEnv.actions self) (Z.to_nat a)) as [name|] eqn:Ea;
      [|apply nth_error_None in Ea; lia].
    destruct (nth_error (GqnEnv.actions self) (Z.to_nat a')) as [name'|] eqn:Ea';
      [|discriminate].
    injection Heq as Heq. apply append_stop_inj in Heq. subst name'.
    assert (Z.to_nat a' = Z.to_nat a); [|lia].
    apply (proj1 (List.NoDup_nth_error (GqnEnv.actions self)) Hnodup);
      [|congruence].
    apply nth_error_Some. congruence.
Qed.

Lemma action_of_action_str_witness :
  GqnEnv.action DemoGqn.env (GqnEnv.action_str DemoGqn.env 1) = Some 1.
Proof.
  apply (action_of_action_str DemoGqn.env 1).
  - repeat constructor; cbn; intuition discriminate.
  - cbn. lia.
  - cbn. lia.
Defined.

(** ** The training loop: what the buffer holds *)

Lemma body_more {W} (out : Train.Outside W) (cfg : Train.Config)
    (v v' : Train.Locals W) :
  Train.body out cfg v = Train.Finished v' ->
  (exists step,
      Train.trajectory v' = (Train.trajectory v ++ [step])%list
      /\ (Train.timed_out v' = false ->
          Train.timed_out v = false
          /\ (Train.done v' = true <-> TimeStep.next_state step = None)))
  /\ (Train.max_steps cfg <= Train.t v + 1 ->
      Train.done v' = true /\ Train.timed_out v' = true)
  /\ (Train.timed_out v = false -> Train.timed_out v' = true ->
      Train.done v' = true)
  /\ Train.train_episodes v'
     = (if Train.done v' && negb (Train.evaluate v)
        then Train.train_episodes v + 1 else Train.train_episodes v).
Proof.
  unfold Train.body.
  destruct (Train.use_model_prob out cfg (Train.buffer v)) as [prob|];
    [|discriminate].
  destruct (if Train.evaluate v then _ else _) as [use_model w1].
  destruct (if use_model then _ else _) as [[action w2]|]; [|discriminate].
  unfold Train.after_choice, Train.take_step.
  destruct (Train.env_step out action w2) as [[[next_state reward] done] w3].
  destruct (Z.leb_spec (Train.max_steps cfg) (Train.t v + 1)) as [Hcap|Hcap];
    intros [= <-]; cbn.
  - split; [|split; [auto | split; [auto | reflexivity]]].
    eexists. split; [reflexivity | discriminate].
  - split; [|split; [lia | split; [congruence | reflexivity]]].
    eexists. split; [reflexivity |]. intros ->. split; [reflexivity |].
    cbn. destruct done; split; congruence.
Qed.

Lemma while_not_done_shape {W} (out : Train.Outside W) (cfg : Train.Config)
    (fuel : nat) :
  forall v v' : Train.Locals W,
  Train.while_not_done out cfg fuel v = Train.Finished v' ->
  Train.done v = false ->
  Train.timed_out v = false ->
  Forall nonterminal (Train.trajectory v) ->
  (Train.timed_out v' = false -> episode_shaped (Train.trajectory v'))
  /\ Train.train_episodes v'
     = (if Train.evaluate v then Train.train_episodes v
        else Train.train_episodes v + 1).
Proof.
  induction fuel as [|fuel IH]; intros v v' Hrun Hdone Hout Hsteps;
    cbn [Train.while_not_done] in Hrun; rewrite Hdone in Hrun;
    [discriminate |].
  destruct (Train.body out cfg v) as [v1|e|] eqn:Hbody; [|discriminate..].
  pose proof (body_Some _ _ _ _ Hbody) as (_ & Heval & _).
  apply body_more in Hbody
    as ((step & Htraj & Hstep) & _ & Hended & Hepisodes).
  destruct (Train.done v1) eqn:Hd1.
  - apply while_not_done_done in Hrun; [subst v' | exact Hd1].
    split.
    + intros Hout1. destruct (Hstep Hout1) as [_ Hterminal].
      exists (Train.trajectory v), step. rewrite Htraj.
      repeat split; [exact Hsteps | now apply Hterminal].
    + rewrite Hepisodes. cbn. now destruct (Train.evaluate v).
  - cbn in Hepisodes.
    assert (Hout1 : Train.timed_out v1 = false).
    { destruct (Train.timed_out v1); [|reflexivity].
      now specialize (Hended Hout eq_refl). }
    destruct (Hstep Hout1) as [_ Hterminal].
    apply IH in Hrun as [Hshape Hcount]; [| exact Hd1 | exact Hout1 |].
    + split; [exact Hshape |]. rewrite Hcount, Heval, Hepisodes.
      reflexivity.
    + rewrite Htraj. apply Forall_app. split; [exact Hsteps |].
      constructor; [|constructor]. intros Hnone.
      apply Hterminal in Hnone. discriminate.
Qed.

Lemma suffixes_In {A} (xs : list A) :
  forall entry, In entry (suffixes_longest_first xs) ->
  entry <> [] /\ exists before, xs = (before ++ entry)%list.
Proof.
  induction xs as [|x xs IH]; cbn; intros entry Hin; [contradiction |].
  destruct Hin as [<- | Hin].
  - split; [discriminate | now exists []].
  - destruct (IH _ Hin) as [Hne [before ->]].
    split; [exact Hne | now exists (x :: before)].
Qed.

Lemma episode_shaped_suffix (trajectory before entry : list TimeStep.t) :
  episode_shaped trajectory ->
  trajectory = (before ++ entry)%list ->
  entry <> [] ->
  episode_shaped entry.
Proof.
  intros (steps & final & -> & Hsteps & Hfinal) Heq Hne.
  destruct (exists_last Hne) as (front & final' & ->).
  rewrite app_assoc in Heq. apply app_inj_tail in Heq as [Hs Hf].
  subst steps final'. apply Forall_app in Hsteps as [_ Hfront].
  now exists front, final.
Qed.

Lemma slice_from_suffix {A} (start : Z) (xs : list A) :
  exists before, xs = (before ++ Py.slice_from start xs)%list.
Proof.
  unfold Py.slice_from. eexists. symmetry. apply firstn_skipn.
Qed.

Lemma slice_from_length {A} (m : Z) (xs : list A) :
  1 <= m -> Z.of_nat (length (Py.slice_from (- m) xs)) <= m.
Proof.
  intros Hm. unfold Py.slice_from.
  destruct (Z.ltb_spec (- m) 0) as [_|H]; [|lia].
  rewrite length_skipn. lia.
Qed.

(** What one round of the outer loop does to the buffer: nothing, or the
    suffixes of the last steps of an episode that reached its end. *)
Lemma episode_buffer {W} (out : Train.Outside W) (cfg : Train.Config)
    (fuel : nat) (v v' : Train.Locals W) :
  Train.episode out cfg fuel v = Train.Finished v' ->
  exists added,
    Train.buffer v' = (Train.buffer v ++ added)%list
    /\ (added = []
        \/ exists trajectory,
             episode_shaped trajectory
             /\ added
                = suffixes_longest_first
                    (Py.slice_from (- Train.max_trajectory cfg) trajectory)).
Proof.
  unfold Train.episode.
  destruct (Train.env_reset out (Train.world v)) as [state w].
  destruct (Train.eval_frequency cfg =? 0); [discriminate |].
  destruct (Train.while_not_done _ _ _ _) as [v1|e|] eqn:Hrun; [|discriminate..].
  intros [= <-].
  pose proof Hrun as Hshape.
  apply while_not_done_shape in Hshape as [Hshape _];
    [| reflexivity | reflexivity | constructor].
  apply while_not_done_Some in Hrun as (_ & _ & Hbuffer & _); [|cbn; lia].
  cbn in Hbuffer. unfold Train.store.
  destruct (Train.evaluate v1);
    [exists []; rewrite app_nil_r; auto |].
  destruct (Train.timed_out v1); cbn;
    [exists []; rewrite app_nil_r; auto |].
  rewrite push_all_suffixes, Hbuffer.
  eexists. split; [reflexivity |]. right.
  exists (Train.trajectory v1). split; [now apply Hshape | reflexivity].
Qed.

Lemma while_budget_buffer {W} (out : Train.Outside W) (cfg : Train.Config)
    (P : list (list TimeStep.t) -> Prop) :
  (forall fuel v v',
      Train.episode out cfg fuel v = Train.Finished v' ->
      P (Train.buffer v) -> P (Train.buffer v')) ->
  forall fuel v v',
  Train.while_budget out cfg fuel v = Train.Finished v' ->
  P (Train.buffer v) -> P (Train.buffer v').
Proof.
  intros Hepisode. induction fuel as [|fuel IH]; intros v v' Hrun Hv;
    cbn [Train.while_budget] in Hrun;
    destruct (Train.T v <? Train.total_steps cfg);
    try discriminate; try (now injection Hrun as <-).
  destruct (Train.episode out cfg fuel v) as [v1| |] eqn:He;
    try discriminate.
  eapply IH; [exact Hrun |]. eapply Hepisode; eassumption.
Qed.

(** X10. Whatever [train] leaves in the buffer is the end of an episode
    that reached a terminal state: every entry is non-empty, its last step
    is the only one with [next_state = None]; and for
    [max_trajectory >= 1] no entry is longer than [max_trajectory]. *)
Theorem buffer_holds_ends_of_episodes {W} (out : Train.Outside W)
    (cfg : Train.Config) (fuel : nat) (w : W) (v' : Train.Locals W) :
  Train.train out cfg fuel w = Train.Finished v' ->
  Forall episode_shaped (Train.buffer v')
  /\ (1 <= Train.max_trajectory cfg ->
      Forall (fun entry =>
                Z.of_nat (length entry) <= Train.max_trajectory cfg)
        (Train.buffer v')).
Proof.
  intros Hrun. unfold Train.train in Hrun.
  split; [|intros Hm];
    (eapply while_budget_buffer in Hrun; [exact Hrun | | constructor]);
    clear Hrun; intros fuel1 v1 v2 He Hv;
    apply episode_buffer in He as (added & -> & Hadded);
    (apply Forall_app; split; [exact Hv |]);
    (destruct Hadded as [-> | (trajectory & Hshape & ->)];
     [constructor |]);
    apply List.Forall_forall; intros entry Hin;
    apply suffixes_In in Hin as [Hne [before Hbefore]].
  - destruct (slice_from_suffix (- Train.max_trajectory cfg) trajectory)
      as [front Hfront].
    rewrite Hbefore, app_assoc in Hfront.
    eapply episode_shaped_suffix; eassumption.
  - pose proof (slice_from_length _ trajectory Hm) as Hlen.
    rewrite Hbefore, length_app in Hlen. lia.
Qed.

Lemma buffer_holds_ends_of_episodes_witness :
  exists v',
    Train.train DemoGoal.outside DemoGoal.config 9 tt = Train.Finished v'
    /\ length (Train.buffer v') = 3%nat
    /\ Forall episode_shaped (Train.buffer v')
    /\ (1 <= Train.max_trajectory DemoGoal.config ->
        Forall (fun entry =>
                  Z.of_nat (length entry)
                  <= Train.max_trajectory DemoGoal.config)
          (Train.buffer v')).
Proof.
  eexists. split; [vm_compute; reflexivity |].
  split; [reflexivity |].
  apply (buffer_holds_ends_of_episodes DemoGoal.outside DemoGoal.config 9 tt).
  vm_compute. reflexivity.
Defined.

(** X11. The outer loop only ever appends to the buffer: what was stored
    stays, in its place, so an agent that is ready stays ready. *)
Theorem buffer_only_grows {W} (out : Train.Outside W) (cfg : Train.Config)
    (fuel : nat) (v v' : Train.Locals W) :
  Train.while_budget out cfg fuel v = Train.Finished v' ->
  (exists added, Train.buffer v' = (Train.buffer v ++ added)%list)
  /\ (Train.ready cfg (Train.buffer v) = true ->
      Train.ready cfg (Train.buffer v') = true).
Proof.
  intros Hrun.
  assert (Hgrows : exists added,
             Train.buffer v' = (Train.buffer v ++ added)%list).
  { eapply (while_budget_buffer out cfg
              (fun b => exists added, b = (Train.buffer v ++ added)%list))
      in Hrun; [exact Hrun | | exists []; now rewrite app_nil_r].
    clear. intros fuel v1 v2 He [added Hadded].
    apply episode_buffer in He as (more & Hmore & _).
    exists (added ++ more)%list. now rewrite Hmore, Hadded, app_assoc. }
  split; [exact Hgrows |].
  destruct Hgrows as [added ->]. unfold Train.ready.
  rewrite length_app. intros H%Z.leb_le. apply Z.leb_le. lia.
Qed.

Lemma buffer_only_grows_witness :
  exists v',
    Train.while_budget DemoGoal.outside DemoGoal.config 9
      (Train.mkLocals 0 1 0 [[DemoTrain.second_step]] false 0 [] false false
         0 0%Q tt)
    = Train.Finished v'
    /\ (exists added,
           Train.buffer v' = ([[DemoTrain.second_step]] ++ added)%list)
    /\ (Train.ready DemoGoal.config [[DemoTrain.second_step]] = true ->
        Train.ready DemoGoal.config (Train.buffer v') = true).
Proof.
  eexists. split; [vm_compute; reflexivity |].
  apply (buffer_only_grows DemoGoal.outside DemoGoal.config 9
           (Train.mkLocals 0 1 0 [[DemoTrain.second_step]] false 0 []
              false false 0 0%Q tt)).
  vm_compute. reflexivity.
Defined.

(** ** The training loop: degenerate configurations *)

Lemma while_budget_invariant {W} (out : Train.Outside W) (cfg : Train.Config)
    (P : Train.Locals W -> Prop) :
  (forall fuel v v',
      Train.episode out cfg fuel v = Train.Finished v' -> P v -> P v') ->
  forall fuel v v',
  Train.while_budget out cfg fuel v = Train.Finished v' -> P v -> P v'.
Proof.
  intros Hepisode. induction fuel as [|fuel IH]; intros v v' Hrun Hv;
    cbn [Train.while_budget] in Hrun;
    destruct (Train.T v <? Train.total_steps cfg);
    try discriminate; try (now injection Hrun as <-).
  destruct (Train.episode out cfg fuel v) as [v1| |] eqn:He;
    try discriminate.
  eapply IH; [exact Hrun |]. eapply Hepisode; eassumption.
Qed.



Lemma episode_at_the_cap {W} (out : Train.Outside W) (cfg : Train.Config)
    (fuel : nat) (v v' : Train.Locals W) :
  Train.max_steps cfg <= 1 ->
  Train.episode out cfg fuel v = Train.Finished v' ->
  Train.buffer v' = Train.buffer v /\ Train.t v' = 1.
Proof.
  intros Hmax. unfold Train.episode.
  destruct (Train.env_reset out (Train.world v)) as [state w].
  destruct (Train.eval_frequency cfg =? 0); [discriminate |].
  destruct fuel as [|fuel]; cbn [Train.while_not_done Train.done];
    [discriminate |].
  destruct (Train.body out cfg _) as [v1|e|] eqn:Hbody; [|discriminate..].
  pose proof (body_Some _ _ _ _ Hbody) as (_ & _ & Ht & Hbuffer & _).
  apply body_more in Hbody as (_ & Hcap & _). cbn in Hcap, Hbuffer, Ht.
  destruct (Hcap ltac:(lia)) as [Hdone Hout].
  destruct (Train.while_not_done out cfg fuel v1) as [v2|e|] eqn:Hrun;
    [|discriminate..].
  apply while_not_done_done in Hrun; [subst v2 | exact Hdone].
  intros [= <-]. unfold Train.store. rewrite Hout.
  destruct (Train.evaluate v1); cbn; auto.
Qed.

(** X13. With [max_steps <= 1] every episode is cut after its first step
    and counted as timed out, also when the environment ended it at that
    very step: nothing is ever stored, [train] ends with an empty
    buffer. *)
Theorem one_step_episodes_store_nothing {W} (out : Train.Outside W)
    (cfg : Train.Config) (fuel : nat) (w : W) (v' : Train.Locals W) :
  Train.max_steps cfg <= 1 ->
  Train.train out cfg fuel w = Train.Finished v' ->
  Train.buffer v' = [].
Proof.
  intros Hmax Hrun. unfold Train.train in Hrun.
  eapply (while_budget_invariant out cfg (fun v => Train.buffer v = []))
    in Hrun; [exact Hrun | | reflexivity].
  intros fuel1 v1 v2 He Hv.
  apply episode_at_the_cap in He as [-> _]; assumption.
Qed.

Lemma one_step_episodes_store_nothing_witness :
  exists v',
    Train.train DemoGoal.outside (Train.mkConfig 2 (9 # 10) 1 5 1 1 1 3) 9 tt
    = Train.Finished v'
    /\ Train.T v' = 3
    /\ Train.buffer v' = [].
Proof.
  eexists. split; [vm_compute; reflexivity |].
  split; [reflexivity |].
  apply (one_step_episodes_store_nothing DemoGoal.outside
           (Train.mkConfig 2 (9 # 10) 1 5 1 1 1 3) 9 tt);
    [cbn; lia | vm_compute; reflexivity].
Defined.

(** X14. [trajectory[-max_trajectory:]] bounds nothing when
    [max_trajectory] is not positive: with 0 the slice is the whole
    trajectory, with [-k] it is the trajectory without its first [k]
    steps; a training episode that was not timed out stores every suffix
    of that. *)
Theorem store_without_a_positive_bound {W} (cfg : Train.Config)
    (v : Train.Locals W) :
  Train.max_trajectory cfg <= 0 ->
  Train.evaluate v = false ->
  Train.timed_out v = false ->
  Train.buffer (Train.store cfg v)
  = (Train.buffer v
     ++ suffixes_longest_first
          (skipn (Z.to_nat (- Train.max_trajectory cfg))
             (Train.trajectory v)))%list.
Proof.
  intros Hm He Hout. unfold Train.store. rewrite He, Hout. cbn.
  rewrite push_all_suffixes. do 2 f_equal. unfold Py.slice_from.
  destruct (Z.ltb_spec (- Train.max_trajectory cfg) 0) as [H|_]; [lia |].
  destruct (Z.le_gt_cases (- Train.max_trajectory cfg)
              (Z.of_nat (length (Train.trajectory v)))) as [Hin|Hout'].
  - now rewrite Z.min_l.
  - rewrite Z.min_r, Nat2Z.id by lia.
    rewrite !skipn_all2; [reflexivity | lia | lia].
Qed.

Lemma store_without_a_positive_bound_witness :
  Train.buffer
    (Train.store (Train.mkConfig 2 (9 # 10) 5 0 1 1 1 3) DemoTrain.finished)
  = [[DemoTrain.first_step; DemoTrain.second_step]; [DemoTrain.second_step]]
  /\ Train.buffer
       (Train.store (Train.mkConfig 2 (9 # 10) 5 (-1) 1 1 1 3)
          DemoTrain.finished)
     = [[DemoTrain.second_step]].
Proof.
  split.
  - apply (store_without_a_positive_bound
             (Train.mkConfig 2 (9 # 10) 5 0 1 1 1 3) DemoTrain.finished);
      [cbn; lia | reflexivity | reflexivity].
  - apply (store_without_a_positive_bound
             (Train.mkConfig 2 (9 # 10) 5 (-1) 1 1 1 3) DemoTrain.finished);
      [cbn; lia | reflexivity | reflexivity].
Defined.

Lemma episode_counts {W} (out : Train.Outside W) (cfg : Train.Config)
    (fuel : nat) (v v' : Train.Locals W) :
  Train.episode out cfg fuel v = Train.Finished v' ->
  Train.train_episodes v'
  = (if Train.evaluate v' then Train.train_episodes v
     else Train.train_episodes v + 1).
Proof.
  unfold Train.episode.
  destruct (Train.env_reset out (Train.world v)) as [state w].
  destruct (Train.eval_frequency cfg =? 0); [discriminate |].
  destruct (Train.while_not_done _ _ _ _) as [v1|e|] eqn:Hrun; [|discriminate..].
  intros [= <-].
  pose proof Hrun as Hcount.
  apply while_not_done_shape in Hcount as [_ Hcount];
    [| reflexivity | reflexivity | constructor].
  apply while_not_done_Some in Hrun as (_ & Heval & _); [|cbn; lia].
  cbn in Hcount, Heval.
  destruct (store_keeps_counters cfg v1) as (_ & _ & -> & _).
  rewrite Heval, <- Hcount. unfold Train.store.
  destruct (Train.evaluate v1), (Train.timed_out v1); reflexivity.
Qed.

(** X15. The counters that [train] logs: when it returns, the training
    episodes are among the episodes, each took at least one step of [T]
    and at most [max(1, max_steps)]. *)
Theorem counters_of_a_run {W} (out : Train.Outside W) (cfg : Train.Config)
    (fuel : nat) (w : W) (v' : Train.Locals W) :
  Train.train out cfg fuel w = Train.Finished v' ->
  0 <= Train.train_episodes v' <= Train.episodes v'
  /\ Train.train_episodes v' <= Train.T v'
  /\ Train.T v'
     <= Train.train_episodes v' * Z.max 1 (Train.max_steps cfg).
Proof.
  intros Hrun. unfold Train.train in Hrun.
  eapply (while_budget_invariant out cfg
            (fun v =>
               0 <= Train.train_episodes v <= Train.episodes v
               /\ Train.train_episodes v <= Train.T v
               /\ Train.T v
                  <= Train.train_episodes v
                     * Z.max 1 (Train.max_steps cfg)))
    in Hrun; [exact Hrun | | cbn; lia].
  clear. intros fuel v v' He (Hep & Hlo & Hhi).
  pose proof (episode_counts _ _ _ _ _ He) as Hcount.
  apply episode_Finished in He as (_ & _ & Hepisodes & Ht & HT).
  rewrite Hcount, Hepisodes, HT.
  destruct (Train.evaluate v'); [lia |].
  set (cap := Z.max 1 (Train.max_steps cfg)) in *.
  rewrite Z.mul_add_distr_r. lia.
Qed.

Lemma counters_of_a_run_witness :
  exists v',
    Train.train DemoGoal.outside DemoGoal.config 9 tt = Train.Finished v'
    /\ Train.episodes v' = 6
    /\ 0 <= Train.train_episodes v' <= Train.episodes v'
    /\ Train.train_episodes v' <= Train.T v'
    /\ Train.T v'
       <= Train.train_episodes v'
          * Z.max 1 (Train.max_steps DemoGoal.config).
Proof.
  eexists. split; [vm_compute; reflexivity |].
  split; [reflexivity |].
  apply (counters_of_a_run DemoGoal.outside DemoGoal.config 9 tt).
  vm_compute. reflexivity.
Defined.

(** ** The training loop: when the value agent is asked *)

Lemma body_before_ready {W} (out : Train.Outside W) (cfg : Train.Config)
    (q1 q2 : list (list TimeStep.t) -> Z -> W -> option (Z * W))
    (v : Train.Locals W) :
  Train.ready cfg (Train.buffer v) = false ->
  Train.body (with_q_act out q1) cfg v = Train.body (with_q_act out q2) cfg v.
Proof.
  intros Hready. unfold Train.body.
  change (Train.use_model_prob (with_q_act out q1) cfg (Train.buffer v))
    with (Train.use_model_prob out cfg (Train.buffer v)).
  change (Train.use_model_prob (with_q_act out q2) cfg (Train.buffer v))
    with (Train.use_model_prob out cfg (Train.buffer v)).
  destruct (Train.use_model_prob out cfg (Train.buffer v)) as [prob|];
    [|reflexivity].
  unfold Train.use_model. rewrite Hready.
  change (Train.rng_draw (with_q_act out q1)) with (Train.rng_draw out).
  change (Train.rng_draw (with_q_act out q2)) with (Train.rng_draw out).
  destruct (Train.evaluate v); [reflexivity |].
  destruct (Train.rng_draw out (Train.world v)) as [draw w].
  rewrite andb_false_r. reflexivity.
Qed.

Lemma while_not_done_before_ready {W} (out : Train.Outside W)
    (cfg : Train.Config)
    (q1 q2 : list (list TimeStep.t) -> Z -> W -> option (Z * W))
    (fuel : nat) :
  forall v : Train.Locals W,
  Train.ready cfg (Train.buffer v) = false ->
  Train.while_not_done (with_q_act out q1) cfg fuel v
  = Train.while_not_done (with_q_act out q2) cfg fuel v.
Proof.
  induction fuel as [|fuel IH]; intros v Hready; [reflexivity |].
  cbn [Train.while_not_done].
  destruct (Train.done v); [reflexivity |].
  rewrite (body_before_ready out cfg q1 q2 v Hready).
  destruct (Train.body (with_q_act out q2) cfg v) as [v1|e|] eqn:Hbody;
    [|reflexivity..].
  apply IH. apply body_Some in Hbody as (_ & _ & _ & -> & _). exact Hready.
Qed.

(** X16. The buffer changes between episodes only, so an episode that
    starts with fewer than [q_prompt_size] entries in the buffer goes to
    its end without a single call of [q]: whatever agent stands for [q],
    one that never answers too, the episode is the same. *)
Theorem episode_before_ready_never_asks_q {W} (out : Train.Outside W)
    (cfg : Train.Config)
    (q1 q2 : list (list TimeStep.t) -> Z -> W -> option (Z * W))
    (fuel : nat) (v : Train.Locals W) :
  Train.ready cfg (Train.buffer v) = false ->
  Train.episode (with_q_act out q1) cfg fuel v
  = Train.episode (with_q_act out q2) cfg fuel v.
Proof.
  intros Hready. unfold Train.episode.
  change (Train.env_reset (with_q_act out q1)) with (Train.env_reset out).
  change (Train.env_reset (with_q_act out q2)) with (Train.env_reset out).
  destruct (Train.env_reset out (Train.world v)) as [state w].
  destruct (Train.eval_frequency cfg =? 0); [reflexivity |].
  now rewrite (while_not_done_before_ready out cfg q1 q2).
Qed.

Lemma episode_before_ready_never_asks_q_witness :
  Train.episode (with_q_act DemoGoal.outside (fun _ _ _ => None))
    DemoGoal.config 5
    (Train.mkLocals 0 1 0 [] false 0 [] false false 0 0%Q tt)
  = Train.episode (with_q_act DemoGoal.outside (fun _ _ w => Some (1, w)))
      DemoGoal.config 5
      (Train.mkLocals 0 1 0 [] false 0 [] false false 0 0%Q tt).
Proof.
  apply (episode_before_ready_never_asks_q DemoGoal.outside DemoGoal.config
           (fun _ _ _ => None) (fun _ _ w => Some (1, w)) 5
           (Train.mkLocals 0 1 0 [] false 0 [] false false 0 0%Q tt)).
  reflexivity.
Defined.

(** ** The agents: loops without a way out *)

Lemma names_no_action_lstrip (ACTIONS : list string) (completion : string) :
  names_no_action ACTIONS completion ->
  names_no_action ACTIONS (Py.lstrip completion).
Proof. unfold names_no_action. now rewrite lstrip_lstrip. Qed.

(** X17. [Pi._act] has no way out but an action of the table: when no
    completion the client can return, cached or live, starts with a
    sentence of [ACTIONS], the loop [while action is None] goes on for
    ever, whatever the fuel. *)
Theorem Pi_act_never_gives_up
    (o : Oracle) (retries : nat) (ACTIONS : list string) (self : Model.t)
    (state : Z) (w : World) (fuel : nat) :
  every_completion o (names_no_action ACTIONS) w ->
  Pi._act o retries ACTIONS self fuel state w = OutOfFuel.
Proof.
  unfold Pi._act. generalize (state_str (Model.env self) state) as s.
  intros s. revert w.
  induction fuel as [|fuel IH]; intros w Hw; [reflexivity |].
  cbn [Pi.retry]. unfold bind at 1. unfold Pi.attempt.
  destruct (sample_best_Ok o self w) as [trajectories Hsample].
  unfold bind at 1. rewrite Hsample.
  apply (every_completion_draw _ _ _ (S (draws w))) in Hw.
  unfold bind at 1.
  destruct (GPT3.call o retries _ _) as [c w1|e|] eqn:Hcall;
    [| now apply call_never_raises in Hcall | reflexivity].
  eapply every_completion_call in Hcall as [Hc Hw1];
    [| apply names_no_action_lstrip | exact Hw].
  destruct (Py.split_dot (Py.lstrip c)) as [|maybe_action rest] eqn:Hsplit;
    [now apply split_dot_nonempty in Hsplit |].
  unfold ret. rewrite (Hc _ _ Hsplit). now apply IH.
Qed.

Lemma Pi_act_never_gives_up_witness :
  Pi._act DemoLost.oracle 3 DemoAgents.ACTIONS DemoAgents.model 25 0
    DemoAgents.start
  = OutOfFuel.
Proof.
  apply (Pi_act_never_gives_up DemoLost.oracle 3 DemoAgents.ACTIONS
           DemoAgents.model 0 DemoAgents.start 25).
  split.
  - intros prompt completion H. cbn in H. now rewrite lookup_empty in H.
  - intros k prompt _ maybe_action rest H.
    vm_compute in H. injection H as <- _. reflexivity.
Defined.

(** X18. The bound of [Q.value] is the test [t == self.max_steps] on a
    [t] that starts at 1 and grows: with [max_steps <= 0] it is never
    met, and when no completion the client can return names a reward,
    [value] returns nothing, whatever the fuel. *)
Theorem Q_value_without_a_bound
    (o : Oracle) (retries : nat) (REWARDS : list (Q * string))
    (self : QAgent.agent) (fuel : nat) (state action : Z) (w : World)
    (value : string) (w' : World) :
  QAgent.max_steps self <= 0 ->
  every_completion o (names_no_reward REWARDS) w ->
  QAgent.value o retries REWARDS self fuel state (Some action) w
  <> Ok value w'.
Proof.
  intros Hmax Hw. unfold QAgent.value, QAgent.value_completions.
  destruct (sample_Ok o (QAgent.base self) w) as [trajectories Hsample].
  unfold bind at 1. unfold bind at 1. rewrite Hsample.
  apply (every_completion_draw _ _ _ (S (draws w))) in Hw.
  unfold bind at 1.
  destruct (GPT3.call o retries _ _) as [c w1|e|] eqn:Hcall;
    [| discriminate | discriminate].
  eapply every_completion_call in Hcall as [Hc Hw1];
    [| apply names_no_reward_lstrip | exact Hw].
  destruct (Py.split_dot (Py.lstrip c)) as [|first [|second rest]] eqn:Hsplit;
    [discriminate | discriminate |].
  destruct (Hc _ _ _ Hsplit) as [Hfirst _].
  destruct (QAgent.rollout o retries REWARDS self fuel (reformat first) 1
              [reformat first] w1) as [final w2|e|] eqn:Hrollout;
    [| discriminate | discriminate].
  now apply rollout_without_a_bound in Hrollout; [| | lia |].
Qed.

Lemma Q_value_without_a_bound_witness :
  QAgent.value DemoLost.oracle 3 DemoAgents.REWARDS DemoLost.agent 25 0
    (Some 1) DemoAgents.start
  = OutOfFuel
  /\ forall value w',
       QAgent.value DemoLost.oracle 3 DemoAgents.REWARDS DemoLost.agent 25 0
         (Some 1) DemoAgents.start
       <> Ok value w'.
Proof.
  split; [vm_compute; reflexivity |].
  intros value w'.
  apply (Q_value_without_a_bound DemoLost.oracle 3 DemoAgents.REWARDS
           DemoLost.agent 25 0 1 DemoAgents.start value w').
  - cbn. lia.
  - split.
    + intros prompt completion H. cbn in H. now rewrite lookup_empty in H.
    + intros k prompt _ first second rest H.
      vm_compute in H. injection H as <- <- _. split; reflexivity.
Defined.

(** ** The agents: what goes into a prompt *)

Lemma slice_to_In {A} (stop : Z) (xs : list A) (x : A) :
  In x (Py.slice_to stop xs) -> In x xs.
Proof.
  unfold Py.slice_to. intros Hin.
  rewrite <- (firstn_skipn (Z.to_nat
    (if stop <? 0 then Z.max 0 (Z.of_nat (length xs) + stop)
     else Z.min stop (Z.of_nat (length xs)))) xs).
  apply in_or_app. now left.
Qed.

Lemma slice_to_length {A} (stop : Z) (xs : list A) :
  0 <= stop ->
  Z.of_nat (length (Py.slice_to stop xs)) = Z.min stop (Z.of_nat (length xs)).
Proof.
  intros Hstop. unfold Py.slice_to.
  destruct (Z.ltb_spec stop 0) as [H|_]; [lia |].
  rewrite length_firstn. lia.
Qed.

(** X19. [sample_best] gives renderings of buffer entries whose value
    quantity at [gamma=1] exceeds [failure_threshold], and nothing else:
    at most [prompt_size] of them for [prompt_size >= 0], fewer when the
    buffer holds fewer successes, at the price of one shuffle and no call
    of the client. *)
Theorem sample_best_gives_successes
    (o : Oracle) (self : Model.t) (w w' : World) (prompts : list string) :
  (forall k (A : Type) (xs : list A), Permutation (shuffle o k A xs) xs) ->
  Model.sample_best o self w = Ok prompts w' ->
  (forall prompt, In prompt prompts ->
     exists p,
       In p (Model.buffer self)
       /\ (Model.failure_threshold self
           < Prompt.to_value_quantity p (Model.env self) (Some 1%Q))%Q
       /\ prompt = Prompt.to_string p (Model.env self))
  /\ (0 <= Model.prompt_size self ->
      Z.of_nat (length prompts)
      = Z.min (Model.prompt_size self)
          (Z.of_nat
             (length
                (List.filter
                   (fun p =>
                      Qltb (Model.failure_threshold self)
                        (Prompt.to_value_quantity p (Model.env self)
                           (Some 1%Q)))
                   (Model.buffer self)))))
  /\ w' = mkWorld (db w) (calls w) (S (draws w)).
Proof.
  intros Hperm. unfold Model.sample_best, bind, rng_shuffle, ret.
  intros [= <- <-].
  set (successes := List.filter _ (Model.buffer self)).
  assert (Hin : forall p, In p successes <->
                  In p (Model.buffer self)
                  /\ (Model.failure_threshold self
                      < Prompt.to_value_quantity p (Model.env self)
                          (Some 1%Q))%Q).
  { intros p. unfold successes. rewrite filter_In, Qltb_true. reflexivity. }
  split; [|split; [|reflexivity]].
  - intros prompt Hprompt. apply slice_to_In in Hprompt.
    apply in_map_iff in Hprompt as (p & <- & Hp).
    apply (Permutation_in _ (Hperm _ _ _)) in Hp. apply Hin in Hp.
    exists p. tauto.
  - intros Hsize.
    rewrite slice_to_length, length_map by exact Hsize.
    now rewrite (Permutation_length (Hperm _ _ _)).
Qed.

Lemma sample_best_gives_successes_witness :
  Model.sample_best DemoAgents.oracle DemoPrompts.model DemoAgents.start
  = Ok ["state zero. Right. assert reward == 1"] (mkWorld ∅ 0 1)
  /\ (forall prompt,
         In prompt ["state zero. Right. assert reward == 1"] ->
         exists p,
           In p (Model.buffer DemoPrompts.model)
           /\ (Model.failure_threshold DemoPrompts.model
               < Prompt.to_value_quantity p (Model.env DemoPrompts.model)
                   (Some 1%Q))%Q
           /\ prompt = Prompt.to_string p (Model.env DemoPrompts.model)).
Proof.
  split; [vm_compute; reflexivity |].
  apply (sample_best_gives_successes DemoAgents.oracle DemoPrompts.model
           DemoAgents.start (mkWorld ∅ 0 1)
           ["state zero. Right. assert reward == 1"]).
  - intros k A xs. apply Permutation_refl.
  - vm_compute. reflexivity.
Defined.

(** X20. An agent that is [ready] fills its prompt: for
    [prompt_size >= 0], [sample] gives exactly [prompt_size] renderings
    of buffer entries, successes or not. *)
Theorem sample_fills_the_prompt
    (o : Oracle) (self : Model.t) (w w' : World) (prompts : list string) :
  (forall k (A : Type) (xs : list A), Permutation (shuffle o k A xs) xs) ->
  Model.ready self = true ->
  0 <= Model.prompt_size self ->
  Model.sample o self w = Ok prompts w' ->
  Z.of_nat (length prompts) = Model.prompt_size self
  /\ (forall prompt, In prompt prompts ->
        exists p, In p (Model.buffer self)
                  /\ prompt = Prompt.to_string p (Model.env self))
  /\ w' = mkWorld (db w) (calls w) (S (draws w)).
Proof.
  intros Hperm Hready Hsize. unfold Model.sample, bind, rng_shuffle, ret.
  intros [= <- <-]. unfold Model.ready in Hready. apply Z.leb_le in Hready.
  split; [|split; [|reflexivity]].
  - rewrite slice_to_length by exact Hsize.
    rewrite (Permutation_length (Hperm _ _ _)), length_map. lia.
  - intros prompt Hprompt. apply slice_to_In in Hprompt.
    apply (Permutation_in _ (Hperm _ _ _)) in Hprompt.
    apply in_map_iff in Hprompt as (p & <- & Hp). now exists p.
Qed.

Lemma sample_fills_the_prompt_witness :
  Z.of_nat (length ["state zero. Right. assert reward == 1"])
  = Model.prompt_size DemoPrompts.model
  /\ (forall prompt,
         In prompt ["state zero. Right. assert reward == 1"] ->
         exists p, In p (Model.buffer DemoPrompts.model)
                   /\ prompt = Prompt.to_string p (Model.env DemoPrompts.model))
  /\ mkWorld ∅ 0 1
     = mkWorld (db DemoAgents.start) (calls DemoAgents.start)
         (S (draws DemoAgents.start)).
Proof.
  apply (sample_fills_the_prompt DemoAgents.oracle DemoPrompts.model
           DemoAgents.start (mkWorld ∅ 0 1)
           ["state zero. Right. assert reward == 1"]).
  - intros k A xs. apply Permutation_refl.
  - reflexivity.
  - cbn. lia.
  - vm_compute. reflexivity.
Defined.

(** ** The completion client of gqn: waiting and asking again *)

Lemma Qltb_false (a b : Q) : Qltb a b = false <-> (b <= a)%Q.
Proof.
  unfold Qltb. rewrite negb_false_iff. apply Qle_bool_iff.
Qed.

Lemma min_60_spec (w : Q) :
  ((60 < w)%Q /\ GqnGPT3.min_60 w = 60%Q)
  \/ ((w <= 60)%Q /\ GqnGPT3.min_60 w = w).
Proof.
  unfold GqnGPT3.min_60. destruct (Qltb 60 w) eqn:E.
  - left. now apply Qltb_true in E.
  - right. now apply Qltb_false in E.
Qed.

Lemma min_60_compat (a b : Q) :
  (a == b)%Q -> (GqnGPT3.min_60 a == GqnGPT3.min_60 b)%Q.
Proof.
  intros Hab.
  destruct (min_60_spec a) as [[Ha ->] | [Ha ->]],
           (min_60_spec b) as [[Hb ->] | [Hb ->]]; Lqa.lra.
Qed.

Lemma min_60_scaled (w c : Q) :
  (0 <= w)%Q -> (1 <= c)%Q ->
  (GqnGPT3.min_60 (GqnGPT3.min_60 w * c) == GqnGPT3.min_60 (w * c))%Q.
Proof.
  intros Hw Hc.
  destruct (min_60_spec w) as [[Hlt ->] | [Hle ->]]; [|reflexivity].
  assert (H60 : (60 <= 60 * c)%Q) by Lqa.lra.
  assert (Hwc : (60 < w * c)%Q) by Lqa.nra.
  destruct (min_60_spec (60 * c)) as [[_ ->] | [Hle ->]],
           (min_60_spec (w * c)) as [[_ ->] | [Hle' ->]]; Lqa.lra.
Qed.

Lemma pow2_ge_1 (j : nat) : (1 <= pow2 j)%Q.
Proof.
  unfold pow2. change 1%Q with (inject_Z 1). rewrite <- Zle_Qle.
  pose proof (Z.pow_pos_nonneg 2 (Z.of_nat j)). lia.
Qed.

Lemma pow2_S (j : nat) : (pow2 (S j) == 2 * pow2 j)%Q.
Proof.
  unfold pow2. rewrite Nat2Z.inj_succ, Z.pow_succ_r by lia.
  now rewrite inject_Z_mult.
Qed.

Lemma Forall2_Qeq_trans (xs ys zs : list Q) :
  Forall2 Qeq xs ys -> Forall2 Qeq ys zs -> Forall2 Qeq xs zs.
Proof.
  intros Hxy. revert zs.
  induction Hxy as [|x y xs ys Hx _ IH]; intros zs Hyz;
    inversion Hyz; subst; constructor;
    [now transitivity y | now apply IH].
Qed.

Lemma Forall2_Qeq_map {A} (f g : A -> Q) (xs : list A) :
  (forall x, (f x == g x)%Q) -> Forall2 Qeq (map f xs) (map g xs).
Proof.
  intros Hfg. induction xs; cbn; constructor; [apply Hfg | assumption].
Qed.

Section Requests.

Context {Store Cached : Type}.
Variable b : GqnGPT3.Base Store Cached.
Variable self : GqnGPT3.t.
Variables (prompt : string) (stop : list string) (temperature : Q).

Let r : Request.t := GqnGPT3.request b self prompt stop.

(** The loop from a non-negative waiting time, when the first answer in
    good order is the one of round [k]. *)
Lemma requests_schedule (k : nat) :
  forall (fuel : nat) (w : Q) (m : GqnGPT3.Machine Store)
         (text : string) (top : GqnGPT3.TopLogprobs),
  (0 <= w)%Q ->
  (k < fuel)%nat ->
  (forall i, (i < k)%nat ->
     forall text top,
       GqnGPT3.create b (length (GqnGPT3.sent m) + i) r
       <> GqnGPT3.Choice text top) ->
  GqnGPT3.create b (length (GqnGPT3.sent m) + k) r = GqnGPT3.Choice text top ->
  exists m' new,
    GqnGPT3.requests b self prompt stop temperature fuel w m
    = GqnGPT3.Returns (GqnGPT3.Fresh prompt (Py.lstrip text) top) m'
    /\ GqnGPT3.sent m' = (GqnGPT3.sent m ++ repeat r (S k))%list
    /\ GqnGPT3.slept m' = (GqnGPT3.slept m ++ new)%list
    /\ Forall2 Qeq new
         (map (fun i =>
                 GqnGPT3.min_60
                   (w * pow2 (rate_limited b r (length (GqnGPT3.sent m)) i)))
            (seq 0 (S k))).
Proof.
  induction k as [|k IH]; intros fuel w m text top Hw Hfuel Hbefore Hreply;
    (destruct fuel as [|fuel]; [lia |]); cbn [GqnGPT3.requests];
    (assert (Hcap : Qltb (GqnGPT3.min_60 w) 0 = false)
       by (apply Qltb_false;
           destruct (min_60_spec w) as [[_ ->] | [_ ->]]; Lqa.lra));
    rewrite Hcap; cbn [GqnGPT3.sent GqnGPT3.slept GqnGPT3.store
                         GqnGPT3.stopped]; fold r.
  - rewrite Nat.add_0_r in Hreply. rewrite Hreply.
    destruct (GqnGPT3.post_completion b _ _ _ _ _ _) as [response store'].
    eexists _, [GqnGPT3.min_60 w]. split; [reflexivity |].
    repeat split.
    + now destruct (String.eqb _ _), (6 <=? GqnGPT3.debug self).
    + now destruct (String.eqb _ _), (6 <=? GqnGPT3.debug self).
    + cbn [seq map rate_limited]. constructor; [|constructor].
      apply min_60_compat. change (pow2 0) with 1%Q. Lqa.lra.
  - pose proof (Hbefore 0%nat ltac:(lia)) as Hfirst.
    rewrite Nat.add_0_r in Hfirst.
    assert (Hnext :
      forall w1 m1,
        (0 <= w1)%Q ->
        GqnGPT3.sent m1 = (GqnGPT3.sent m ++ [r])%list ->
        exists m' new,
          GqnGPT3.requests b self prompt stop temperature fuel w1 m1
          = GqnGPT3.Returns (GqnGPT3.Fresh prompt (Py.lstrip text) top) m'
          /\ GqnGPT3.sent m' = (GqnGPT3.sent m ++ repeat r (S (S k)))%list
          /\ GqnGPT3.slept m' = (GqnGPT3.slept m1 ++ new)%list
          /\ Forall2 Qeq new
               (map (fun i =>
                       GqnGPT3.min_60
                         (w1 * pow2 (rate_limited b r
                                       (S (length (GqnGPT3.sent m))) i)))
                  (seq 0 (S k)))).
    { intros w1 m1 Hw1 Hsent.
      assert (Hlen : length (GqnGPT3.sent m1)
                     = S (length (GqnGPT3.sent m)))
        by (rewrite Hsent, length_app; cbn; lia).
      destruct (IH fuel w1 m1 text top Hw1 ltac:(lia)) as (m' & new & H).
      - intros i Hi. rewrite Hlen.
        replace (S (length (GqnGPT3.sent m)) + i)%nat
          with (length (GqnGPT3.sent m) + S i)%nat by lia.
        apply Hbefore. lia.
      - rewrite Hlen.
        now replace (S (length (GqnGPT3.sent m)) + k)%nat
          with (length (GqnGPT3.sent m) + S k)%nat by lia.
      - destruct H as (Hrun & Hsent' & Hslept & Hnew).
        exists m', new. rewrite Hrun, Hsent', Hsent, Hlen in *.
        repeat split; [now rewrite <- app_assoc | assumption | assumption]. }
    assert (Hmin : (0 <= GqnGPT3.min_60 w)%Q)
      by (destruct (min_60_spec w) as [[_ ->] | [_ ->]]; Lqa.lra).
    assert (Hhead : (GqnGPT3.min_60 w == GqnGPT3.min_60 (w * pow2 0))%Q)
      by (apply min_60_compat; change (pow2 0) with 1%Q; Lqa.lra).
    destruct (GqnGPT3.create b (length (GqnGPT3.sent m)) r)
      as [text0 top0| |] eqn:Hcreate; [now elim (Hfirst text0 top0) | |].
    + destruct (Hnext (GqnGPT3.min_60 w * 2)%Q
                  (GqnGPT3.mkMachine (GqnGPT3.store m)
                     (GqnGPT3.sent m ++ [r])
                     (GqnGPT3.slept m ++ [GqnGPT3.min_60 w])
                     (GqnGPT3.stopped m)))
        as (m' & new & Hrun & Hsent & Hslept & Hnew);
        [Lqa.lra | reflexivity |].
      exists m', (GqnGPT3.min_60 w :: new). rewrite Hrun.
      split; [reflexivity |]. split; [exact Hsent |].
      split; [rewrite Hslept; cbn; now rewrite <- app_assoc |].
      change (seq 0 (S (S k))) with (0%nat :: seq 1 (S k)).
      cbn [map]. constructor; [exact Hhead |].
      rewrite <- seq_shift, map_map.
      eapply Forall2_Qeq_trans; [exact Hnew |].
      apply Forall2_Qeq_map. intros i.
      cbn [rate_limited]. rewrite Hcreate.
      change (1 + ?n)%nat with (S n).
      rewrite <- (min_60_scaled w (pow2 (S _)))
        by (exact Hw || apply pow2_ge_1).
      apply min_60_compat. rewrite pow2_S. Lqa.lra.
    + destruct (Hnext (GqnGPT3.min_60 w)
                  (GqnGPT3.breakpoint
                     (GqnGPT3.mkMachine (GqnGPT3.store m)
                        (GqnGPT3.sent m ++ [r])
                        (GqnGPT3.slept m ++ [GqnGPT3.min_60 w])
                        (GqnGPT3.stopped m))))
        as (m' & new & Hrun & Hsent & Hslept & Hnew);
        [exact Hmin | reflexivity |].
      exists m', (GqnGPT3.min_60 w :: new). rewrite Hrun.
      split; [reflexivity |]. split; [exact Hsent |].
      split; [rewrite Hslept; cbn; now rewrite <- app_assoc |].
      change (seq 0 (S (S k))) with (0%nat :: seq 1 (S k)).
      cbn [map]. constructor; [exact Hhead |].
      rewrite <- seq_shift, map_map.
      eapply Forall2_Qeq_trans; [exact Hnew |].
      apply Forall2_Qeq_map. intros i.
      cbn [rate_limited]. rewrite Hcreate.
      change (0 + ?n)%nat with n.
      apply min_60_scaled; [exact Hw | apply pow2_ge_1].
Qed.

End Requests.

Lemma requests_from_zero {Store Cached} (b : GqnGPT3.Base Store Cached)
    (self : GqnGPT3.t) (prompt : string) (stop : list string)
    (temperature : Q) (fuel : nat) :
  forall (w : Q) (m m' : GqnGPT3.Machine Store)
         (res : GqnGPT3.Result Cached),
  (w == 0)%Q ->
  GqnGPT3.requests b self prompt stop temperature fuel w m
  = GqnGPT3.Returns res m' ->
  exists new,
    GqnGPT3.slept m' = (GqnGPT3.slept m ++ new)%list
    /\ Forall (fun s => (s == 0)%Q) new
    /\ length (GqnGPT3.sent m')
       = (length (GqnGPT3.sent m) + length new)%nat.
Proof.
  induction fuel as [|fuel IH]; intros w m m' res Hw; [discriminate |].
  cbn [GqnGPT3.requests].
  assert (Hmin : (GqnGPT3.min_60 w == 0)%Q)
    by (destruct (min_60_spec w) as [[H _] | [_ ->]]; Lqa.lra).
  destruct (Qltb (GqnGPT3.min_60 w) 0); [discriminate |].
  cbn [GqnGPT3.sent GqnGPT3.slept GqnGPT3.store GqnGPT3.stopped].
  assert (Hstep :
    forall w1 m1,
      (w1 == 0)%Q ->
      GqnGPT3.slept m1 = (GqnGPT3.slept m ++ [GqnGPT3.min_60 w])%list ->
      GqnGPT3.sent m1
      = (GqnGPT3.sent m ++ [GqnGPT3.request b self prompt stop])%list ->
      GqnGPT3.requests b self prompt stop temperature fuel w1 m1
      = GqnGPT3.Returns res m' ->
      exists new,
        GqnGPT3.slept m' = (GqnGPT3.slept m ++ new)%list
        /\ Forall (fun s => (s == 0)%Q) new
        /\ length (GqnGPT3.sent m')
           = (length (GqnGPT3.sent m) + length new)%nat).
  { intros w1 m1 Hw1 Hslept Hsent Hrun.
    apply IH in Hrun as (new & Hnew & Hzero & Hlen); [|exact Hw1].
    exists (GqnGPT3.min_60 w :: new).
    rewrite Hnew, Hslept, <- app_assoc. split; [reflexivity |].
    split; [now constructor |].
    rewrite Hlen, Hsent, length_app. cbn. lia. }
  destruct (GqnGPT3.create b _ _) as [text top| |].
  - destruct (GqnGPT3.post_completion b _ _ _ _ _ _) as [response store'].
    intros [= _ <-]. exists [GqnGPT3.min_60 w].
    split; [now destruct (String.eqb _ _), (6 <=? GqnGPT3.debug self) |].
    split; [now repeat constructor |].
    destruct (String.eqb _ _), (6 <=? GqnGPT3.debug self); cbn;
      rewrite length_app; cbn; lia.
  - apply Hstep; [Lqa.lra | reflexivity | reflexivity].
  - apply Hstep; [exact Hmin | reflexivity | reflexivity].
Qed.

Lemma requests_sent {Store Cached} (b : GqnGPT3.Base Store Cached)
    (self : GqnGPT3.t) (prompt : string) (stop : list string)
    (temperature : Q) (fuel : nat) :
  forall (w : Q) (m m' : GqnGPT3.Machine Store)
         (res : GqnGPT3.Result Cached),
  GqnGPT3.requests b self prompt stop temperature fuel w m
  = GqnGPT3.Returns res m' ->
  exists n text top,
    res = GqnGPT3.Fresh prompt (Py.lstrip text) top
    /\ GqnGPT3.sent m'
       = (GqnGPT3.sent m
          ++ repeat (GqnGPT3.request b self prompt stop) (S n))%list
    /\ GqnGPT3.create b (length (GqnGPT3.sent m) + n)
         (GqnGPT3.request b self prompt stop)
       = GqnGPT3.Choice text top
    /\ GqnGPT3.store m'
       = snd (GqnGPT3.post_completion b (GqnGPT3.store m) (Py.lstrip text)
                prompt stop temperature top).
Proof.
  induction fuel as [|fuel IH]; intros w m m' res; [discriminate |].
  cbn [GqnGPT3.requests].
  destruct (Qltb (GqnGPT3.min_60 w) 0); [discriminate |].
  cbn [GqnGPT3.sent GqnGPT3.slept GqnGPT3.store GqnGPT3.stopped].
  assert (Hstep :
    forall w1 m1,
      GqnGPT3.store m1 = GqnGPT3.store m ->
      GqnGPT3.sent m1
      = (GqnGPT3.sent m ++ [GqnGPT3.request b self prompt stop])%list ->
      GqnGPT3.requests b self prompt stop temperature fuel w1 m1
      = GqnGPT3.Returns res m' ->
      exists n text top,
        res = GqnGPT3.Fresh prompt (Py.lstrip text) top
        /\ GqnGPT3.sent m'
           = (GqnGPT3.sent m
              ++ repeat (GqnGPT3.request b self prompt stop) (S n))%list
        /\ GqnGPT3.create b (length (GqnGPT3.sent m) + n)
             (GqnGPT3.request b self prompt stop)
           = GqnGPT3.Choice text top
        /\ GqnGPT3.store m'
           = snd (GqnGPT3.post_completion b (GqnGPT3.store m)
                    (Py.lstrip text) prompt stop temperature top)).
  { intros w1 m1 Hstore Hsent Hrun.
    apply IH in Hrun as (n & text & top & -> & Hsent' & Hreply & Hposted).
    exists (S n), text, top. rewrite Hsent', Hsent, Hposted, Hstore.
    rewrite Hsent, length_app in Hreply. cbn in Hreply.
    replace (length (GqnGPT3.sent m) + S n)%nat
      with (length (GqnGPT3.sent m) + 1 + n)%nat by lia.
    repeat split; [now rewrite <- app_assoc | exact Hreply]. }
  destruct (GqnGPT3.create b _ _) as [text top| |] eqn:Hcreate.
  - destruct (GqnGPT3.post_completion b _ _ _ _ _ _)
      as [response store'] eqn:Hpost.
    intros [= <- <-]. exists 0%nat, text, top. rewrite Nat.add_0_r, Hpost.
    repeat split; try assumption;
      now destruct (String.eqb _ _), (6 <=? GqnGPT3.debug self).
  - apply Hstep; reflexivity.
  - apply Hstep; reflexivity.
Qed.

(** X21. Waiting between requests: from a waiting time [w >= 0], when
    the answer in good order is the one of round [k] (each earlier
    request ran into the rate limit or was invalid), the call returns that
    answer, stripped, after [k + 1] identical requests, and before request
    [i] it slept [min(w * 2 ** j, 60)] seconds, [j] the number of rate
    limit errors before: the wait doubles on those only and never exceeds
    a minute. *)
Theorem waits_double_up_to_a_minute {Store Cached}
    (b : GqnGPT3.Base Store Cached) (self : GqnGPT3.t) (prompt : string)
    (stop : list string) (temperature : Q) (use_cache : bool) (fuel : nat)
    (m : GqnGPT3.Machine Store) (w : Q) (k : nat) (text : string)
    (top : GqnGPT3.TopLogprobs) :
  let clipped := GqnGPT3.clip_prompt b prompt in
  let r := GqnGPT3.request b self clipped stop in
  GqnGPT3.wait_time self = Some w ->
  (0 <= w)%Q ->
  use_cache = false
  \/ (GqnGPT3.get_completions b (GqnGPT3.store m) clipped stop temperature = []
      /\ GqnGPT3.require_cache self = false) ->
  (k < fuel)%nat ->
  (forall i, (i < k)%nat ->
     forall text top,
       GqnGPT3.create b (length (GqnGPT3.sent m) + i) r
       <> GqnGPT3.Choice text top) ->
  GqnGPT3.create b (length (GqnGPT3.sent m) + k) r = GqnGPT3.Choice text top ->
  exists m' new,
    GqnGPT3.get_full_completion b self prompt stop temperature use_cache
      fuel m
    = GqnGPT3.Returns (GqnGPT3.Fresh clipped (Py.lstrip text) top) m'
    /\ GqnGPT3.sent m' = (GqnGPT3.sent m ++ repeat r (S k))%list
    /\ GqnGPT3.slept m' = (GqnGPT3.slept m ++ new)%list
    /\ Forall2 Qeq new
         (map (fun i =>
                 GqnGPT3.min_60
                   (w * pow2 (rate_limited b r (length (GqnGPT3.sent m)) i)))
            (seq 0 (S k))).
Proof.
  intros clipped r Hwait Hw Hlive Hfuel Hbefore Hreply.
  assert (Hloop :
    forall m0,
      GqnGPT3.sent m0 = GqnGPT3.sent m ->
      GqnGPT3.slept m0 = GqnGPT3.slept m ->
      exists m' new,
        GqnGPT3.requests b self clipped stop temperature fuel w m0
        = GqnGPT3.Returns (GqnGPT3.Fresh clipped (Py.lstrip text) top) m'
        /\ GqnGPT3.sent m' = (GqnGPT3.sent m ++ repeat r (S k))%list
        /\ GqnGPT3.slept m' = (GqnGPT3.slept m ++ new)%list
        /\ Forall2 Qeq new
             (map (fun i =>
                     GqnGPT3.min_60
                       (w * pow2 (rate_limited b r
                                    (length (GqnGPT3.sent m)) i)))
                (seq 0 (S k)))).
  { intros m0 Hsent Hslept. rewrite <- Hsent, <- Hslept.
    apply requests_schedule; rewrite ?Hsent; assumption. }
  assert (Hgo :
    exists m' new,
      (let m0 := if 5 <=? GqnGPT3.debug self then GqnGPT3.breakpoint m
                 else m in
       match GqnGPT3.wait_time self with
       | None => GqnGPT3.Raises GqnGPT3.TypeError m0
       | Some wait_time =>
           GqnGPT3.requests b self clipped stop temperature fuel wait_time m0
       end)
      = GqnGPT3.Returns (GqnGPT3.Fresh clipped (Py.lstrip text) top) m'
      /\ GqnGPT3.sent m' = (GqnGPT3.sent m ++ repeat r (S k))%list
      /\ GqnGPT3.slept m' = (GqnGPT3.slept m ++ new)%list
      /\ Forall2 Qeq new
           (map (fun i =>
                   GqnGPT3.min_60
                     (w * pow2 (rate_limited b r
                                  (length (GqnGPT3.sent m)) i)))
              (seq 0 (S k)))).
  { rewrite Hwait. cbv zeta.
    destruct (5 <=? GqnGPT3.debug self); now apply Hloop. }
  unfold GqnGPT3.get_full_completion. fold clipped.
  destruct Hlive as [-> | [Hmiss Hfree]]; [exact Hgo |].
  rewrite Hmiss, Hfree. destruct use_cache; exact Hgo.
Qed.

Lemma waits_double_up_to_a_minute_witness :
  exists m' new,
    GqnGPT3.get_full_completion DemoBackoff.base DemoBackoff.lm "ship=0"
      [":"] (7 # 10) true 6 DemoBackoff.start
    = GqnGPT3.Returns (GqnGPT3.Fresh "ship=0" "ship=1" []) m'
    /\ GqnGPT3.sent m'
       = repeat (GqnGPT3.request DemoBackoff.base DemoBackoff.lm "ship=0"
                   [":"]) 6
    /\ GqnGPT3.slept m' = new
    /\ Forall2 Qeq new
         (map (fun i =>
                 GqnGPT3.min_60
                   (4 * pow2 (rate_limited DemoBackoff.base
                                (GqnGPT3.request DemoBackoff.base
                                   DemoBackoff.lm "ship=0" [":"]) 0 i)))
            (seq 0 6)).
Proof.
  apply (waits_double_up_to_a_minute DemoBackoff.base DemoBackoff.lm "ship=0"
           [":"] (7 # 10) true 6 DemoBackoff.start 4 5 " ship=1" []).
  - reflexivity.
  - vm_compute. discriminate.
  - right. split; reflexivity.
  - lia.
  - intros i Hi text top.
    change ((if (i <? 5)%nat then GqnGPT3.RateLimitError
             else GqnGPT3.Choice " ship=1" [])
            <> GqnGPT3.Choice text top).
    destruct (Nat.ltb_spec i 5) as [_|H]; [discriminate | lia].
  - reflexivity.
Defined.

(** X22. The waiting time that [__post_init__] gives the models
    [text-davinci-002] and [gpt3] is 0, and from 0 the loop of
    [get_full_completion] never waits: doubling changes nothing, every
    request of a call that returns follows a sleep of 0 seconds, rate
    limit errors or not. *)
Theorem default_wait_never_backs_off {Store Cached}
    (b : GqnGPT3.Base Store Cached) (raw self : GqnGPT3.t) (prompt : string)
    (stop : list string) (temperature : Q) (use_cache : bool) (fuel : nat)
    (m m' : GqnGPT3.Machine Store) (res : GqnGPT3.Result Cached) :
  GqnGPT3.wait_time raw = None ->
  GqnGPT3.model_name raw = "text-davinci-002"
  \/ GqnGPT3.model_name raw = "gpt3" ->
  GqnGPT3.__post_init__ raw = inr self ->
  GqnGPT3.get_full_completion b self prompt stop temperature use_cache fuel m
  = GqnGPT3.Returns res m' ->
  exists new,
    GqnGPT3.slept m' = (GqnGPT3.slept m ++ new)%list
    /\ Forall (fun s => (s == 0)%Q) new
    /\ length (GqnGPT3.sent m')
       = (length (GqnGPT3.sent m) + length new)%nat.
Proof.
  intros Hnone Hname Hinit.
  assert (Hwait : GqnGPT3.wait_time self = Some 0%Q).
  { unfold GqnGPT3.__post_init__ in Hinit. rewrite Hnone in Hinit.
    destruct Hname as [Hname | Hname]; rewrite Hname in Hinit; cbn in Hinit;
      destruct (GqnGPT3.logprobs raw <=? 5); now inversion Hinit. }
  assert (Hlive :
    (let m0 := if 5 <=? GqnGPT3.debug self then GqnGPT3.breakpoint m else m in
     match GqnGPT3.wait_time self with
     | None => GqnGPT3.Raises GqnGPT3.TypeError m0
     | Some wait_time =>
         GqnGPT3.requests b self (GqnGPT3.clip_prompt b prompt) stop
           temperature fuel wait_time m0
     end)
    = GqnGPT3.Returns res m' ->
    exists new,
      GqnGPT3.slept m' = (GqnGPT3.slept m ++ new)%list
      /\ Forall (fun s => (s == 0)%Q) new
      /\ length (GqnGPT3.sent m')
         = (length (GqnGPT3.sent m) + length new)%nat).
  { rewrite Hwait. cbv zeta. intros Hrun.
    apply requests_from_zero in Hrun; [|reflexivity].
    now destruct (5 <=? GqnGPT3.debug self). }
  unfold GqnGPT3.get_full_completion.
  destruct use_cache; [|exact Hlive].
  destruct (GqnGPT3.get_completions b _ _ _ _) as [|completion rest].
  - destruct (GqnGPT3.require_cache self); [discriminate | exact Hlive].
  - intros [= _ <-]. exists []. rewrite app_nil_r. cbn.
    repeat split; [constructor | lia].
Qed.

Lemma default_wait_never_backs_off_witness :
  exists m',
    GqnGPT3.get_full_completion DemoBackoff.base
      (GqnGPT3.mk (-1) 5 100 "gpt3" false (Some 0%Q)) "ship=0" [":"]
      (7 # 10) true 6 DemoBackoff.start
    = GqnGPT3.Returns (GqnGPT3.Fresh "ship=0" "ship=1" []) m'
    /\ exists new,
         GqnGPT3.slept m' = (GqnGPT3.slept DemoBackoff.start ++ new)%list
         /\ Forall (fun s => (s == 0)%Q) new
         /\ length (GqnGPT3.sent m')
            = (length (GqnGPT3.sent DemoBackoff.start) + length new)%nat.
Proof.
  eexists. split; [vm_compute; reflexivity |].
  apply (default_wait_never_backs_off DemoBackoff.base
           (GqnGPT3.mk (-1) 5 100 "gpt3" false None)
           (GqnGPT3.mk (-1) 5 100 "gpt3" false (Some 0%Q))
           "ship=0" [":"] (7 # 10) true 6 DemoBackoff.start _
           (GqnGPT3.Fresh "ship=0" "ship=1" [])).
  - reflexivity.
  - now right.
  - reflexivity.
  - vm_compute. reflexivity.
Defined.

(** X23. What a call asks and what it answers.  An answer from the cache
    costs nothing: no request, no sleep, no change of the store.  A fresh
    answer holds the clipped prompt and the text of a choice without its
    leading white space, posted under the [temperature] of the call; the
    requests sent for it are all the same, for the clipped prompt, at the
    temperature 0.1 whatever [temperature] is, on the engine
    [text-davinci-002] when the model is named [gpt3]. *)
Theorem requests_of_a_call {Store Cached}
    (b : GqnGPT3.Base Store Cached) (self : GqnGPT3.t) (prompt : string)
    (stop : list string) (temperature : Q) (use_cache : bool) (fuel : nat)
    (m m' : GqnGPT3.Machine Store) (res : GqnGPT3.Result Cached) :
  GqnGPT3.get_full_completion b self prompt stop temperature use_cache fuel m
  = GqnGPT3.Returns res m' ->
  match res with
  | GqnGPT3.FromCache completion =>
      use_cache = true
      /\ m' = m
      /\ head (GqnGPT3.get_completions b (GqnGPT3.store m)
                 (GqnGPT3.clip_prompt b prompt) stop temperature)
         = Some completion
  | GqnGPT3.Fresh prompt' completion top_logprobs =>
      prompt' = GqnGPT3.clip_prompt b prompt
      /\ Py.lstrip completion = completion
      /\ (exists n,
             GqnGPT3.sent m'
             = (GqnGPT3.sent m
                ++ repeat
                     (Request.mk
                        (if String.eqb (GqnGPT3.model_name self) "gpt3"
                         then "text-davinci-002"
                         else GqnGPT3.model_name self)
                        (GqnGPT3.max_tokens_in_completion self)
                        (GqnGPT3.clip_prompt b prompt)
                        (GqnGPT3.logprobs self) (1 # 10) stop)
                     (S n))%list)
      /\ GqnGPT3.store m'
         = snd (GqnGPT3.post_completion b (GqnGPT3.store m) completion
                  prompt' stop temperature top_logprobs)
      /\ (use_cache = true ->
          GqnGPT3.get_completions b (GqnGPT3.store m)
            (GqnGPT3.clip_prompt b prompt) stop temperature = [])
  end.
Proof.
  assert (Hlive :
    (let m0 := if 5 <=? GqnGPT3.debug self then GqnGPT3.breakpoint m else m in
     match GqnGPT3.wait_time self with
     | None => GqnGPT3.Raises GqnGPT3.TypeError m0
     | Some wait_time =>
         GqnGPT3.requests b self (GqnGPT3.clip_prompt b prompt) stop
           temperature fuel wait_time m0
     end)
    = GqnGPT3.Returns res m' ->
    exists completion top_logprobs,
      res = GqnGPT3.Fresh (GqnGPT3.clip_prompt b prompt) completion
              top_logprobs
      /\ Py.lstrip completion = completion
      /\ (exists n,
             GqnGPT3.sent m'
             = (GqnGPT3.sent m
                ++ repeat
                     (GqnGPT3.request b self (GqnGPT3.clip_prompt b prompt)
                        stop)
                     (S n))%list)
      /\ GqnGPT3.store m'
         = snd (GqnGPT3.post_completion b (GqnGPT3.store m) completion
                  (GqnGPT3.clip_prompt b prompt) stop temperature
                  top_logprobs)).
  { cbv zeta. destruct (GqnGPT3.wait_time self) as [w|]; [|discriminate].
    intros Hrun.
    apply requests_sent in Hrun
      as (n & text & top & -> & Hsent & _ & Hstore).
    exists (Py.lstrip text), top.
    split; [reflexivity |]. split; [apply lstrip_lstrip |].
    destruct (5 <=? GqnGPT3.debug self); (split; [now exists n | exact Hstore]). }
  unfold GqnGPT3.get_full_completion.
  destruct use_cache.
  - destruct (GqnGPT3.get_completions b _ _ _ _) as [|completion rest] eqn:Hc.
    + destruct (GqnGPT3.require_cache self); [discriminate |].
      intros Hrun.
      destruct (Hlive Hrun) as (c & top & -> & Hstrip & Hsent & Hstore).
      repeat split; assumption.
    + intros [= <- <-]. repeat split.
  - intros Hrun.
    destruct (Hlive Hrun) as (c & top & -> & Hstrip & Hsent & Hstore).
    repeat split; try assumption. discriminate.
Qed.

Lemma requests_of_a_call_witness :
  exists m',
    GqnGPT3.get_full_completion DemoBackoff.base DemoBackoff.lm "ship=0"
      [":"] (7 # 10) true 6 DemoBackoff.start
    = GqnGPT3.Returns (GqnGPT3.Fresh "ship=0" "ship=1" []) m'
    /\ "ship=0" = GqnGPT3.clip_prompt DemoBackoff.base "ship=0"
    /\ Py.lstrip "ship=1" = "ship=1"
    /\ (exists n,
           GqnGPT3.sent m'
           = (GqnGPT3.sent DemoBackoff.start
              ++ repeat
                   (Request.mk "code-davinci-002" 100 "ship=0" 5 (1 # 10)
                      [":"])
                   (S n))%list)
    /\ GqnGPT3.store m' = ["ship=1"]
    /\ (true = true ->
        GqnGPT3.get_completions DemoBackoff.base
          (GqnGPT3.store DemoBackoff.start) "ship=0" [":"] (7 # 10)
        = []).
Proof.
  eexists. split; [vm_compute; reflexivity |].
  apply (requests_of_a_call DemoBackoff.base DemoBackoff.lm "ship=0" [":"]
           (7 # 10) true 6 DemoBackoff.start _
           (GqnGPT3.Fresh "ship=0" "ship=1" [])).
  vm_compute. reflexivity.
Defined.

(** ** The Space Invaders encoder and metrics *)

Lemma getitem_Some {A} (xs : list A) (i : Z) :
  (exists v, getitem xs i = Some v)
  <-> - Z.of_nat (length xs) <= i < Z.of_nat (length xs).
Proof.
  unfold getitem.
  destruct (Z.leb_spec 0 i), (Z.ltb_spec i (Z.of_nat (length xs)));
    cbn [andb].
  - split; [lia | intros _].
    destruct (nth_error xs (Z.to_nat i)) eqn:E; [eauto |].
    apply nth_error_None in E. lia.
  - destruct (Z.leb_spec (- Z.of_nat (length xs)) i), (Z.ltb_spec i 0);
      cbn [andb]; try lia; (split; [now intros [v Hv] | lia]).
  - destruct (Z.leb_spec (- Z.of_nat (length xs)) i), (Z.ltb_spec i 0);
      cbn [andb]; try lia.
    + split; [lia | intros _].
      destruct (nth_error xs (Z.to_nat (Z.of_nat (length xs) + i))) eqn:E;
        [eauto |].
      apply nth_error_None in E. lia.
    + split; [now intros [v Hv] | lia].
  - lia.
Qed.

Lemma nonterminal_reward_str_cases (ts : SpaceInvaders.TimeStep) :
  (SpaceInvaders.action ts <> 1
   /\ SpaceInvaders.Encoder.nonterminal_reward_str ts = "")
  \/ (SpaceInvaders.action ts = 1
      /\ (SpaceInvaders.reward ts == 0)%Q
      /\ SpaceInvaders.Encoder.nonterminal_reward_str ts = "missed;")
  \/ (SpaceInvaders.action ts = 1
      /\ ~ (SpaceInvaders.reward ts == 0)%Q
      /\ exists aliens_hit,
           SpaceInvaders.Encoder.nonterminal_reward_str ts
           = "hit " +:+ aliens_hit +:+ ";").
Proof.
  unfold SpaceInvaders.Encoder.nonterminal_reward_str.
  destruct (Z.eqb_spec (SpaceInvaders.action ts) 1) as [Ha|Ha]; cbn [negb];
    [|now left].
  right. destruct (Qeq_bool (SpaceInvaders.reward ts) 0) eqn:Hr.
  - left. apply Qeq_bool_iff in Hr. auto.
  - right. split; [exact Ha |]. split; [|eauto].
    intros H. apply Qeq_bool_iff in H. congruence.
Qed.

(** X24. What the encoder writes for a time step ends on one of its stop
    tokens: on [";"] when the step is not the last of its episode and its
    action is 1 (a shot, hit or missed), on [":"], the end of the action,
    otherwise.  It is written for the actions -3 to 2, [IndexError] is
    the only way it fails, and the assertion of [transition_query] never
    does. *)
Theorem time_step_str_ends_on_a_stop (ts : SpaceInvaders.TimeStep) :
  (forall s,
      SpaceInvaders.Encoder.time_step_str ts = inr s ->
      exists body,
        s = body +:+ (if negb (SpaceInvaders.done ts)
                         && (SpaceInvaders.action ts =? 1)
                      then ";" else ":"))
  /\ ((exists s, SpaceInvaders.Encoder.time_step_str ts = inr s)
      <-> -3 <= SpaceInvaders.action ts < 3)
  /\ (forall e,
        SpaceInvaders.Encoder.time_step_str ts = inl e ->
        e = SpaceInvaders.IndexError).
Proof.
  pose proof (getitem_Some SpaceInvaders.ACTIONS (SpaceInvaders.action ts))
    as Hrange. cbn [length SpaceInvaders.ACTIONS] in Hrange.
  unfold SpaceInvaders.Encoder.time_step_str,
    SpaceInvaders.Encoder.transition_query,
    SpaceInvaders.Encoder.reward_query, SpaceInvaders.Encoder.action_str.
  destruct (getitem SpaceInvaders.ACTIONS (SpaceInvaders.action ts))
    as [name|] eqn:Hname.
  - assert (Hin : -3 <= SpaceInvaders.action ts < 3)
      by (apply Hrange; eauto).
    destruct (SpaceInvaders.done ts); cbn [negb andb].
    + split; [|split; [split; eauto | discriminate]].
      intros s [= <-].
      exists (SpaceInvaders.Encoder.action_query (SpaceInvaders.state ts)
              +:+ " " +:+ name).
      repeat (rewrite append_assoc || rewrite append_cons
              || rewrite append_nil_l). reflexivity.
    + destruct (nonterminal_reward_str_cases ts)
        as [[Ha ->] | [(Ha & _ & ->) | (Ha & _ & hit & ->)]];
        cbn [Py.truthy];
        (split; [|split; [split; eauto | discriminate]]);
        intros s [= <-].
      * apply Z.eqb_neq in Ha. rewrite Ha.
        exists (SpaceInvaders.Encoder.action_query (SpaceInvaders.state ts)
                +:+ " " +:+ name).
        repeat (rewrite append_assoc || rewrite append_cons
                || rewrite append_nil_l). reflexivity.
      * rewrite Ha. cbn [Z.eqb Pos.eqb].
        exists (SpaceInvaders.Encoder.action_query (SpaceInvaders.state ts)
                +:+ " " +:+ name +:+ ":" +:+ " " +:+ "missed").
        repeat (rewrite append_assoc || rewrite append_cons
                || rewrite append_nil_l). reflexivity.
      * rewrite Ha. cbn [Z.eqb Pos.eqb].
        exists (SpaceInvaders.Encoder.action_query (SpaceInvaders.state ts)
                +:+ " " +:+ name +:+ ":" +:+ " " +:+ "hit " +:+ hit).
        repeat (rewrite append_assoc || rewrite append_cons
                || rewrite append_nil_l). reflexivity.
  - assert (Hout : ~ -3 <= SpaceInvaders.action ts < 3).
    { intros H. apply Hrange in H as [v Hv]. discriminate. }
    destruct (SpaceInvaders.done ts);
      (split; [discriminate |]);
      (split; [split; [now intros [s Hs] | intros H; now elim Hout] |]);
      now intros e [= <-].
Qed.

Lemma yield_by_last_step_In (keep : SpaceInvaders.TimeStep -> bool)
    (queries : list (list SpaceInvaders.TimeStepWithActions))
    (query : list SpaceInvaders.TimeStepWithActions) :
  In query (fst (SpaceInvaders.yield_by_last_step keep queries)) ->
  In query queries
  /\ exists last_step,
       getitem query (-1) = Some last_step
       /\ keep (SpaceInvaders.time_step last_step) = true.
Proof.
  induction queries as [|q rest IH];
    cbn [SpaceInvaders.yield_by_last_step]; [cbn; contradiction |].
  destruct (getitem q (-1)) as [last_step|] eqn:Hlast;
    [|cbn; contradiction].
  destruct (SpaceInvaders.yield_by_last_step keep rest) as [yielded raised].
  cbn [fst] in *.
  destruct (keep (SpaceInvaders.time_step last_step)) eqn:Hkeep.
  - intros [<- | Hin]; [split; [now left | eauto] |].
    destruct (IH Hin). split; [now right | assumption].
  - intros Hin. destruct (IH Hin). split; [now right | assumption].
Qed.

(** X25. The queries [MissReward] yields end in a shot with reward 0,
    the output it expects for each of them is ["missed;"], and none of
    them is a query [HitReward] yields. *)
Theorem miss_reward_expects_missed
    (queries : list (list SpaceInvaders.TimeStepWithActions))
    (query : list SpaceInvaders.TimeStepWithActions) :
  In query (fst (SpaceInvaders.MissReward._get_query_trajectories queries)) ->
  (exists last_step,
      getitem query (-1) = Some last_step
      /\ SpaceInvaders.action (SpaceInvaders.time_step last_step) = 1
      /\ SpaceInvaders.MissReward.get_output last_step = ["missed;"])
  /\ ~ In query
         (fst (SpaceInvaders.HitReward._get_query_trajectories queries)).
Proof.
  unfold SpaceInvaders.MissReward._get_query_trajectories,
    SpaceInvaders.HitReward._get_query_trajectories.
  intros Hin.
  apply yield_by_last_step_In in Hin as (_ & last_step & Hlast & Hkeep).
  apply andb_true_iff in Hkeep as [Ha Hr]. apply Z.eqb_eq in Ha.
  split.
  - exists last_step. split; [exact Hlast |]. split; [exact Ha |].
    unfold SpaceInvaders.MissReward.get_output,
      SpaceInvaders.Encoder.nonterminal_reward_str.
    now rewrite Ha, Hr.
  - intros Hhit.
    apply yield_by_last_step_In in Hhit as (_ & other & Hother & Hpos).
    rewrite Hlast in Hother. injection Hother as <-.
    apply Qeq_bool_iff in Hr. apply Qltb_true in Hpos. Lqa.lra.
Qed.

Lemma miss_reward_expects_missed_witness :
  fst (SpaceInvaders.MissReward._get_query_trajectories DemoInvaders.queries)
  = [[SpaceInvaders.mkTimeStepWithActions DemoInvaders.shot [1];
      SpaceInvaders.mkTimeStepWithActions DemoInvaders.miss [2]]]
  /\ (exists last_step,
         getitem
           [SpaceInvaders.mkTimeStepWithActions DemoInvaders.shot [1];
            SpaceInvaders.mkTimeStepWithActions DemoInvaders.miss [2]] (-1)
         = Some last_step
         /\ SpaceInvaders.action (SpaceInvaders.time_step last_step) = 1
         /\ SpaceInvaders.MissReward.get_output last_step = ["missed;"])
  /\ ~ In [SpaceInvaders.mkTimeStepWithActions DemoInvaders.shot [1];
           SpaceInvaders.mkTimeStepWithActions DemoInvaders.miss [2]]
         (fst (SpaceInvaders.HitReward._get_query_trajectories
                 DemoInvaders.queries)).
Proof.
  split; [vm_compute; reflexivity |].
  apply (miss_reward_expects_missed DemoInvaders.queries
           [SpaceInvaders.mkTimeStepWithActions DemoInvaders.shot [1];
            SpaceInvaders.mkTimeStepWithActions DemoInvaders.miss [2]]).
  vm_compute. now left.
Defined.

(** X26. The queries [HitReward] yields end in a step with a positive
    reward, whatever its action: the output it expects is a
    ["hit ...;"] sentence when that action is 1, and the empty string when
    it is not. *)
Theorem hit_reward_expects_a_hit
    (queries : list (list SpaceInvaders.TimeStepWithActions))
    (query : list SpaceInvaders.TimeStepWithActions) :
  In query (fst (SpaceInvaders.HitReward._get_query_trajectories queries)) ->
  exists last_step,
    getitem query (-1) = Some last_step
    /\ (0 < SpaceInvaders.reward (SpaceInvaders.time_step last_step))%Q
    /\ (SpaceInvaders.action (SpaceInvaders.time_step last_step) = 1 ->
        exists aliens_hit,
          SpaceInvaders.HitReward.get_output last_step
          = ["hit " +:+ aliens_hit +:+ ";"])
    /\ (SpaceInvaders.action (SpaceInvaders.time_step last_step) <> 1 ->
        SpaceInvaders.HitReward.get_output last_step = [""]).
Proof.
  unfold SpaceInvaders.HitReward._get_query_trajectories. intros Hin.
  apply yield_by_last_step_In in Hin as (_ & last_step & Hlast & Hkeep).
  apply Qltb_true in Hkeep.
  exists last_step. split; [exact Hlast |]. split; [exact Hkeep |].
  unfold SpaceInvaders.HitReward.get_output.
  destruct (nonterminal_reward_str_cases (SpaceInvaders.time_step last_step))
    as [[Ha ->] | [(Ha & Hr & _) | (Ha & _ & hit & ->)]].
  - split; [intros H; now elim Ha | reflexivity].
  - Lqa.lra.
  - split; [eauto | intros H; now elim H].
Qed.

Lemma hit_reward_expects_a_hit_witness :
  exists last_step,
    getitem [SpaceInvaders.mkTimeStepWithActions DemoInvaders.shot [1]] (-1)
    = Some last_step
    /\ (0 < SpaceInvaders.reward (SpaceInvaders.time_step last_step))%Q
    /\ (SpaceInvaders.action (SpaceInvaders.time_step last_step) = 1 ->
        exists aliens_hit,
          SpaceInvaders.HitReward.get_output last_step
          = ["hit " +:+ aliens_hit +:+ ";"])
    /\ (SpaceInvaders.action (SpaceInvaders.time_step last_step) <> 1 ->
        SpaceInvaders.HitReward.get_output last_step = [""]).
Proof.
  apply (hit_reward_expects_a_hit DemoInvaders.queries
           [SpaceInvaders.mkTimeStepWithActions DemoInvaders.shot [1]]).
  vm_compute. now left.
Defined.
